(** * The reone script virtual machine

    A shallow embedding of [src/libs/script/virtualmachine.cpp], of the
    [Variable] and [Argument] code that goes with it, and of
    [DoCommandAction::execute], followed by the properties the design
    document states about them.

    Conventions of the embedding.

    - A C++ [int] is a [Z] in the range of [int32_t].  Signed arithmetic
      that leaves the range, division by zero, a shift count outside
      [0..31], indexing a [std::vector] outside its bounds and [back()] or
      [pop_back()] of an empty vector have no defined result in C++: the
      embedding gives them the outcome [Undefined] and proves nothing about
      what follows.  Conversions to an unsigned or narrower type wrap, and
      that is written out ([as_uint32], [as_int32]).
    - A C++ [float] is an IEEE 754 binary32 value ([spec_float] at
      precision 24), operations round to nearest even.
    - The anonymous union of [Variable] is one 32-bit word; [intValue],
      [objectId] and [floatValue] are three readings of it.
    - A [std::vector] is a list whose last element is [back()].
    - The logging calls ([logOperands], [logResults], [logJump], [debug],
      [error]) write text and touch no state of the machine: they are left
      out. *)

From Stdlib Require Import ZArith Bool List String Lia.
From Stdlib Require Import Floats.SpecFloat.
From stdpp Require Import base option list strings.
Import ListNotations.
Local Open Scope Z_scope.

(** ** Outcomes of a computation *)

(** The exception classes the code throws; all derive from
    [std::exception]. *)
Inductive exception :=
  | invalid_argument
  | runtime_error
  | logic_error
  | out_of_range
  | length_error.

Inductive outcome (A : Type) :=
  | Ok (a : A)
  | Throw (e : exception)
  | Undefined.
Arguments Ok {A} a.
Arguments Throw {A} e.
Arguments Undefined {A}.

#[global] Instance outcome_ret : MRet outcome := fun A a => Ok a.
#[global] Instance outcome_bind : MBind outcome := fun A B f c =>
  match c with
  | Ok a => f a
  | Throw e => Throw e
  | Undefined => Undefined
  end.

(** ** Machine integers *)

Definition INT_MIN : Z := -2147483648.
Definition INT_MAX : Z := 2147483647.

(** The value of a 32-bit pattern read as [int32_t]; also the conversion of
    an integer to [int]. *)
Definition as_int32 (w : Z) : Z := (w + 2 ^ 31) mod 2 ^ 32 - 2 ^ 31.

(** Conversion to [uint32_t]. *)
Definition as_uint32 (z : Z) : Z := z mod 2 ^ 32.

(** Conversion to [uint64_t]. *)
Definition as_uint64 (z : Z) : Z := z mod 2 ^ 64.

#[global] Arguments as_int32 : simpl never.
#[global] Arguments as_uint32 : simpl never.
#[global] Arguments as_uint64 : simpl never.

(** The result of an arithmetic operation on [int]: defined when it is
    representable. *)
Definition int_result (z : Z) : outcome Z :=
  if (INT_MIN <=? z) && (z <=? INT_MAX) then Ok z else Undefined.

(** A shift count the language defines. *)
Definition shift_count (n : Z) : outcome Z :=
  if (0 <=? n) && (n <? 32) then Ok n else Undefined.

Definition Z_of_bool (b : bool) : Z := if b then 1 else 0.

(** ** Single precision floats *)

Module Float32.

Definition prec : Z := 24.
Definition emax : Z := 128.

Definition t := spec_float.

Definition zero : t := S754_zero false.
Definition add : t -> t -> t := SFadd prec emax.
Definition sub : t -> t -> t := SFsub prec emax.
Definition mul : t -> t -> t := SFmul prec emax.
Definition div : t -> t -> t := SFdiv prec emax.
Definition opp : t -> t := SFopp.
Definition abs : t -> t := SFabs.
Definition eqb : t -> t -> bool := SFeqb.
Definition ltb : t -> t -> bool := SFltb.
Definition leb : t -> t -> bool := SFleb.
Definition valid : t -> bool := valid_binary prec emax.

(** Conversion of an [int] to [float]. *)
Definition of_int (z : Z) : t := binary_normalize prec emax z 0 false.

(** [std::max(a, b)] is [(a < b) ? b : a]. *)
Definition max (a b : t) : t := if ltb a b then b else a.


Definition sign_bit (s : bool) : Z := if s then 2 ^ 31 else 0.

(** The 32-bit pattern of a value.  [spec_float] has one NaN: the sign
    and the payload a NaN carries in the machine are not represented, and
    the pattern written for [S754_nan], that of a quiet NaN, stands for
    whichever NaN pattern the machine holds. *)
Definition to_bits (f : t) : Z :=
  match f with
  | S754_zero s => sign_bit s
  | S754_infinity s => sign_bit s + 255 * 2 ^ 23
  | S754_nan => 255 * 2 ^ 23 + 2 ^ 22
  | S754_finite s m e =>
      if Z.pos m <? 2 ^ 23
      then sign_bit s + Z.pos m
      else sign_bit s + (e + 150) * 2 ^ 23 + (Z.pos m - 2 ^ 23)
  end.

(** The value of a 32-bit pattern; every NaN pattern is read as the one
    NaN. *)
Definition of_bits (w : Z) : t :=
  let s := 2 ^ 31 <=? w in
  let ex := (w / 2 ^ 23) mod 2 ^ 8 in
  let mant := w mod 2 ^ 23 in
  if ex =? 0 then
    if mant =? 0 then S754_zero s else S754_finite s (Z.to_pos mant) (-149)
  else if ex =? 255 then
    if mant =? 0 then S754_infinity s else S754_nan
  else S754_finite s (Z.to_pos (mant + 2 ^ 23)) (ex - 150).

End Float32.

(** [glm::vec3] with its componentwise operators. *)
Module glm.

Record vec3 := mkvec3 { x : Float32.t; y : Float32.t; z : Float32.t }.

Definition zero : vec3 := mkvec3 Float32.zero Float32.zero Float32.zero.

Definition map2 (f : Float32.t -> Float32.t -> Float32.t) (a b : vec3) : vec3 :=
  mkvec3 (f (x a) (x b)) (f (y a) (y b)) (f (z a) (z b)).

Definition add : vec3 -> vec3 -> vec3 := map2 Float32.add.
Definition sub : vec3 -> vec3 -> vec3 := map2 Float32.sub.

(** vector [op] scalar and scalar [op] vector *)
Definition vs (f : Float32.t -> Float32.t -> Float32.t) (a : vec3) (s : Float32.t) : vec3 :=
  mkvec3 (f (x a) s) (f (y a) s) (f (z a) s).
Definition sv (f : Float32.t -> Float32.t -> Float32.t) (s : Float32.t) (a : vec3) : vec3 :=
  mkvec3 (f s (x a)) (f s (y a)) (f s (z a)).

Definition eqb (a b : vec3) : bool :=
  Float32.eqb (x a) (x b) && Float32.eqb (y a) (y b) && Float32.eqb (z a) (z b).

End glm.

(** ** Types of the script library *)

Module VariableType.
Inductive t :=
  | Void | Int | Float | String | Vector | Object
  | Effect | Event | Location | Talent | Action.

Definition eqb (a b : t) : bool :=
  match a, b with
  | Void, Void | Int, Int | Float, Float | String, String
  | Vector, Vector | Object, Object | Effect, Effect | Event, Event
  | Location, Location | Talent, Talent | Action, Action => true
  | _, _ => false
  end.
End VariableType.

(** [ArgKind] as [Argument::verify] and [argKindToString] switch over it. *)
Module ArgKind.
Inductive t :=
  | Caller
  | ScriptVar
  | UserDefinedEventNumber
  | ClickingObject
  | EnteringObject
  | ExitingObject
  | LastClosedBy
  | LastOpenedBy
  | LastPerceived
  | LastPerceptionHeard
  | LastPerceptionInaudible
  | LastPerceptionSeen
  | LastPerceptionVanished.

Definition eqb (a b : t) : bool :=
  match a, b with
  | Caller, Caller | ScriptVar, ScriptVar
  | UserDefinedEventNumber, UserDefinedEventNumber
  | ClickingObject, ClickingObject | EnteringObject, EnteringObject
  | ExitingObject, ExitingObject | LastClosedBy, LastClosedBy
  | LastOpenedBy, LastOpenedBy | LastPerceived, LastPerceived
  | LastPerceptionHeard, LastPerceptionHeard
  | LastPerceptionInaudible, LastPerceptionInaudible
  | LastPerceptionSeen, LastPerceptionSeen
  | LastPerceptionVanished, LastPerceptionVanished => true
  | _, _ => false
  end.
End ArgKind.

(** The opcodes the constructor of [VirtualMachine] names, and [Other] for
    every further value an [InstructionType] can hold. *)
Module InstructionType.
Inductive t :=
  | NOP | NOP2
  | CPDOWNSP | RSADDI | RSADDF | RSADDS | RSADDO
  | RSADDEFF | RSADDEVT | RSADDLOC | RSADDTAL
  | CPTOPSP | CONSTI | CONSTF | CONSTS | CONSTO | ACTION
  | LOGANDII | LOGORII | INCORII | EXCORII | BOOLANDII
  | EQUALII | EQUALFF | EQUALSS | EQUALOO | EQUALTT
  | EQUALEFFEFF | EQUALEVTEVT | EQUALLOCLOC | EQUALTALTAL
  | NEQUALII | NEQUALFF | NEQUALSS | NEQUALOO | NEQUALTT
  | NEQUALEFFEFF | NEQUALEVTEVT | NEQUALLOCLOC | NEQUALTALTAL
  | GEQII | GEQFF | GTII | GTFF | LTII | LTFF | LEQII | LEQFF
  | SHLEFTII | SHRIGHTII | USHRIGHTII
  | ADDII | ADDIF | ADDFI | ADDFF | ADDSS | ADDVV
  | SUBII | SUBIF | SUBFI | SUBFF | SUBVV
  | MULII | MULIF | MULFI | MULFF | MULVF | MULFV
  | DIVII | DIVIF | DIVFI | DIVFF | DIVVF | DIVFV
  | MODII | NEGI | NEGF
  | MOVSP | JMP | JSR | JZ | RETN | DESTRUCT | NOTI
  | DECISP | INCISP | JNZ
  | CPDOWNBP | CPTOPBP | DECIBP | INCIBP
  | SAVEBP | RESTOREBP | STORE_STATE
  | Other (opcode : Z).
End InstructionType.

(** Modelled from the spec: a decoded [Instruction], which carries the
    opcode tag, the natural successor offset and the encoded fields of the
    opcode.  The struct is declared in a header of the script library; the
    fields are the ones [virtualmachine.cpp] reads: offsets are
    [uint32_t], sizes are unsigned 16-bit byte counts, [stackOffset] and
    [jumpOffset] are [int32_t]. *)
Module Instruction.
Record t := mk {
  offset : Z;
  type : InstructionType.t;
  nextOffset : Z;
  size : Z;
  stackOffset : Z;
  jumpOffset : Z;
  sizeNoDestroy : Z;
  sizeLocals : Z;
  routine : Z;
  argCount : Z;
  intValue : Z;
  floatValue : Float32.t;
  strValue : string;
  objectId : Z
}.

(** An instruction with every operand field zero. *)
Definition plain (off : Z) (ty : InstructionType.t) (next : Z) : t :=
  mk off ty next 0 0 0 0 0 0 0 0 Float32.zero EmptyString 0.
End Instruction.

(** Modelled from the spec: the Program interface ([ScriptProgram]), which
    the design document gives as [instruction(offset)], [length()] and
    [name()] over a read-only sequence of decoded instructions keyed by
    offset.  [getInstruction] answers [None] where no instruction starts at
    the offset; what the caller meets then is not part of this library. *)
Module ScriptProgram.
Record t := mk {
  name : string;
  length : Z;
  instructions : list Instruction.t
}.

Definition getInstruction (p : t) (off : Z) : option Instruction.t :=
  List.find (fun ins => Instruction.offset ins =? off) (instructions p).
End ScriptProgram.

(** [struct Variable], [struct Argument], [struct ExecutionContext] and
    [struct ExecutionState].

    [word] is the storage of the union.  A [std::shared_ptr<EngineType>] is
    the address it holds ([None] for [nullptr]); a
    [std::shared_ptr<ExecutionContext>] is the address together with the
    object it points to, which nothing in this library changes after its
    construction.  [routines] is the [IRoutines *] as an address. *)
Inductive Var := mkVariable {
  type : VariableType.t;
  strValue : string;
  vecValue : glm.vec3;
  engineType : option Z;
  context : option (Z * ExecutionContext);
  id : Z;
  word : Z
}
with Argument := mkArgument {
  kind : ArgKind.t;
  var : Var
}
with ExecutionState := mkExecutionState {
  globals : list Var;
  locals : list Var;
  program : option ScriptProgram.t;
  insOffset : Z
}
with ExecutionContext := mkExecutionContext {
  routines : Z;
  savedState : option ExecutionState;
  args : list Argument
}.

(** The three members of the union. *)
Definition intValue (v : Var) : Z := as_int32 (word v).
Definition objectId (v : Var) : Z := word v.
Definition floatValue (v : Var) : Float32.t := Float32.of_bits (word v).

(** The part of the process both the machine and native code act on:
    [g_id], the counter behind [Variable::id], and the next address
    [std::make_shared] hands out. *)
Record Process := mkProcess {
  g_id : Z;
  heap_next : Z
}.

(** Modelled from the spec: the Routine Table interface.  A routine exposes
    its declared argument types, its return type and [invoke]; [get] fails
    with an error when the id is outside the table.  Native code runs in
    the process, may throw, and hands back a variable. *)
Record Routine := mkRoutine {
  routine_name : string;
  argumentTypes : list VariableType.t;
  returnType : VariableType.t;
  invoke : list Var -> ExecutionContext -> Process -> outcome (Var * Process)
}.

Definition getArgumentCount (r : Routine) : Z :=
  Z.of_nat (List.length (argumentTypes r)).

Definition getArgumentType (r : Routine) (i : nat) : outcome VariableType.t :=
  match argumentTypes r !! i with
  | Some t => Ok t
  | None => Undefined
  end.

Record IRoutines := mkRoutines {
  table : list Routine
}.

Definition IRoutines_get (rs : IRoutines) (index : Z) : outcome Routine :=
  if (0 <=? index) && (index <? Z.of_nat (List.length (table rs))) then
    match table rs !! Z.to_nat index with
    | Some r => Ok r
    | None => Throw out_of_range
    end
  else Throw out_of_range.

(** What this code takes from outside: the two object constants of the
    script library's type header, and the routine tables of the engine,
    by address ([None] where no table lives). *)
Class Engine := mkEngine {
  kObjectSelf : Z;
  kObjectInvalid : Z;
  routinesAt : Z -> option IRoutines
}.

(** ** variable.cpp *)

(** A default-constructed [Variable]. *)
Definition Variable_default : Var :=
  mkVariable VariableType.Void EmptyString glm.zero None None 0 0.

(** [++g_id] *)
Definition next_id (p : Process) : Process :=
  mkProcess (as_uint64 (g_id p + 1)) (heap_next p).

Definition ofNull : Var := Variable_default.

Definition ofInt (value : Z) (p : Process) : Var * Process :=
  let p' := next_id p in
  (mkVariable VariableType.Int EmptyString glm.zero None None (g_id p') (as_uint32 value), p').

Definition ofFloat (value : Float32.t) (p : Process) : Var * Process :=
  let p' := next_id p in
  (mkVariable VariableType.Float EmptyString glm.zero None None (g_id p') (Float32.to_bits value), p').

Definition ofString (value : string) (p : Process) : Var * Process :=
  let p' := next_id p in
  (mkVariable VariableType.String value glm.zero None None (g_id p') 0, p').

Definition ofVector (value : glm.vec3) (p : Process) : Var * Process :=
  let p' := next_id p in
  (mkVariable VariableType.Vector EmptyString value None None (g_id p') 0, p').

Definition ofObject (objectId : Z) (p : Process) : Var * Process :=
  let p' := next_id p in
  (mkVariable VariableType.Object EmptyString glm.zero None None (g_id p') (as_uint32 objectId), p').

Definition ofEngineType (ty : VariableType.t) (engineType : option Z) (p : Process) : Var * Process :=
  let p' := next_id p in
  (mkVariable ty EmptyString glm.zero engineType None (g_id p') 0, p').

Definition ofEffect : option Z -> Process -> Var * Process := ofEngineType VariableType.Effect.
Definition ofEvent : option Z -> Process -> Var * Process := ofEngineType VariableType.Event.
Definition ofLocation : option Z -> Process -> Var * Process := ofEngineType VariableType.Location.
Definition ofTalent : option Z -> Process -> Var * Process := ofEngineType VariableType.Talent.

Definition ofAction (context : option (Z * ExecutionContext)) (p : Process) : Var * Process :=
  let p' := next_id p in
  (mkVariable VariableType.Action EmptyString glm.zero None context (g_id p') 0, p').

(** Equality of two shared pointers: the addresses they hold. *)
Definition ptr_eqb {A : Type} (addr : A -> Z) (a b : option A) : bool :=
  match a, b with
  | None, None => true
  | Some a', Some b' => addr a' =? addr b'
  | _, _ => false
  end.

(** [Variable::operator==] *)
Definition Variable_eqb (a b : Var) : bool :=
  VariableType.eqb (type a) (type b) &&
  String.eqb (strValue a) (strValue b) &&
  glm.eqb (vecValue a) (vecValue b) &&
  ptr_eqb (fun p => p) (engineType a) (engineType b) &&
  ptr_eqb fst (context a) (context b) &&
  (intValue a =? intValue b).

(** [Argument::verify].  The [throw std::logic_error] after the switch is
    reached by no enumerator of [ArgKind]. *)
Definition verify `{Engine} (a : Argument) : outcome unit :=
  match kind a with
  | ArgKind.Caller
  | ArgKind.ClickingObject
  | ArgKind.EnteringObject
  | ArgKind.ExitingObject
  | ArgKind.LastClosedBy
  | ArgKind.LastOpenedBy
  | ArgKind.LastPerceived =>
      if negb (VariableType.eqb (type (var a)) VariableType.Object)
         || (objectId (var a) =? kObjectSelf)
      then Throw invalid_argument
      else Ok ()
  | ArgKind.ScriptVar
  | ArgKind.UserDefinedEventNumber
  | ArgKind.LastPerceptionHeard
  | ArgKind.LastPerceptionInaudible
  | ArgKind.LastPerceptionSeen
  | ArgKind.LastPerceptionVanished =>
      if negb (VariableType.eqb (type (var a)) VariableType.Int)
      then Throw invalid_argument
      else Ok ()
  end.

(** The constructor [Argument(ArgKind kind, Variable var)]. *)
Definition Argument_new `{Engine} (k : ArgKind.t) (v : Var) : outcome Argument :=
  let a := mkArgument k v in
  verify a;; Ok a.

(** Modelled from the spec: [ExecutionContext::findArg], declared in
    [executioncontext.h] (find an argument variable or return [nullptr])
    and given by the design document as a linear scan where the first
    match wins. *)
Definition findArg (ctx : ExecutionContext) (k : ArgKind.t) : option Var :=
  var <$> List.find (fun a => ArgKind.eqb (kind a) k) (args ctx).

(** ** virtualmachine.cpp *)

Definition kStartInstructionOffset : Z := 13.

(** [kFloatTolerance = 1e-5]: the binary32 value nearest to 1/100000. *)
Definition kFloatTolerance : Float32.t := S754_finite false 10995116 (-40).

(** The members of [VirtualMachine], and the process it runs in. *)
Record VirtualMachine := mkVirtualMachine {
  _context : ExecutionContext;
  _program : option ScriptProgram.t;
  _stack : list Var;
  _returnOffsets : list Z;
  _globalCount : Z;
  _nextInstruction : Z;
  _savedState : ExecutionState;
  process : Process
}.

Definition ExecutionState_default : ExecutionState :=
  mkExecutionState [] [] None 0.

(** The constructor; the handler table it fills is [find_handler] below. *)
Definition VirtualMachine_new (program : option ScriptProgram.t)
    (context : ExecutionContext) (p : Process) : VirtualMachine :=
  mkVirtualMachine context program [] [] 0 0 ExecutionState_default p.

Definition set_stack (s : list Var) (m : VirtualMachine) : VirtualMachine :=
  mkVirtualMachine (_context m) (_program m) s (_returnOffsets m)
    (_globalCount m) (_nextInstruction m) (_savedState m) (process m).

Definition set_returnOffsets (r : list Z) (m : VirtualMachine) : VirtualMachine :=
  mkVirtualMachine (_context m) (_program m) (_stack m) r
    (_globalCount m) (_nextInstruction m) (_savedState m) (process m).

Definition set_globalCount (g : Z) (m : VirtualMachine) : VirtualMachine :=
  mkVirtualMachine (_context m) (_program m) (_stack m) (_returnOffsets m)
    g (_nextInstruction m) (_savedState m) (process m).

Definition set_nextInstruction (n : Z) (m : VirtualMachine) : VirtualMachine :=
  mkVirtualMachine (_context m) (_program m) (_stack m) (_returnOffsets m)
    (_globalCount m) n (_savedState m) (process m).

Definition set_savedState (s : ExecutionState) (m : VirtualMachine) : VirtualMachine :=
  mkVirtualMachine (_context m) (_program m) (_stack m) (_returnOffsets m)
    (_globalCount m) (_nextInstruction m) s (process m).

Definition set_process (p : Process) (m : VirtualMachine) : VirtualMachine :=
  mkVirtualMachine (_context m) (_program m) (_stack m) (_returnOffsets m)
    (_globalCount m) (_nextInstruction m) (_savedState m) p.

(** *** std::vector *)

Definition vsize {A : Type} (l : list A) : Z := Z.of_nat (List.length l).

Definition back {A : Type} (l : list A) : outcome A :=
  match last l with
  | Some a => Ok a
  | None => Undefined
  end.

Definition pop_back {A : Type} (l : list A) : outcome (list A) :=
  match l with
  | [] => Undefined
  | _ => Ok (removelast l)
  end.

(** [l[i]] read *)
Definition at_ {A : Type} (l : list A) (i : Z) : outcome A :=
  if 0 <=? i then
    match l !! Z.to_nat i with
    | Some a => Ok a
    | None => Undefined
    end
  else Undefined.

(** [l[i] = a] *)
Definition assign {A : Type} (l : list A) (i : Z) (a : A) : outcome (list A) :=
  if (0 <=? i) && (i <? vsize l) then Ok (<[Z.to_nat i := a]> l) else Undefined.

(** [l.resize(n)] with [n] an [int]: a negative [n] converts to a size
    beyond [max_size()]. *)
Definition resize (l : list Var) (n : Z) : outcome (list Var) :=
  if n <? 0 then Throw length_error
  else Ok (take (Z.to_nat n) l ++ replicate (Z.to_nat n - List.length l)%nat Variable_default).

(** [for (i = 0; i < count; ++i) l[dst++] = l[src++];] *)
Fixpoint copy_within {A : Type} (l : list A) (dst src : Z) (count : nat) : outcome (list A) :=
  match count with
  | O => Ok l
  | S count' =>
      a ← at_ l src;
      l' ← assign l dst a;
      copy_within l' (dst + 1) (src + 1) count'
  end.

(** [for (i = 0; i < count; ++i) l.push_back(l[src++]);] *)
Fixpoint copy_to_top {A : Type} (l : list A) (src : Z) (count : nat) : outcome (list A) :=
  match count with
  | O => Ok l
  | S count' =>
      a ← at_ l src;
      copy_to_top (l ++ [a]) (src + 1) count'
  end.

(** [for (i = 0; i < count; ++i) out.push_back(l[src++]);] from an empty
    [out] *)
Fixpoint read_run {A : Type} (l : list A) (src : Z) (count : nat) : outcome (list A) :=
  match count with
  | O => Ok []
  | S count' =>
      a ← at_ l src;
      rest ← read_run l (src + 1) count';
      Ok (a :: rest)
  end.

(** *** Stack access of the machine *)

Definition push_back (v : Var) (m : VirtualMachine) : VirtualMachine :=
  set_stack (_stack m ++ [v]) m.

(** [_stack.push_back(Variable::ofX(...))] *)
Definition push_new (mk : Process -> Var * Process) (m : VirtualMachine) : VirtualMachine :=
  let '(v, p) := mk (process m) in
  set_process p (push_back v m).

(** [Variable var(std::move(_stack.back())); _stack.pop_back();] *)
Definition pop (m : VirtualMachine) : outcome (Var * VirtualMachine) :=
  v ← back (_stack m);
  Ok (v, set_stack (removelast (_stack m)) m).

Definition throwIfInvalidType (expected actual : VariableType.t) : outcome unit :=
  if VariableType.eqb actual expected then Ok () else Throw runtime_error.

Definition getIntFromStack (m : VirtualMachine) : outcome (Z * VirtualMachine) :=
  '(v, m1) ← pop m;
  throwIfInvalidType VariableType.Int (type v);;
  Ok (intValue v, m1).

Definition getFloatFromStack (m : VirtualMachine) : outcome (Float32.t * VirtualMachine) :=
  '(v, m1) ← pop m;
  throwIfInvalidType VariableType.Float (type v);;
  Ok (floatValue v, m1).

Definition getVectorFromStack (m : VirtualMachine) : outcome (glm.vec3 * VirtualMachine) :=
  '(z, m1) ← getFloatFromStack m;
  '(y, m2) ← getFloatFromStack m1;
  '(x, m3) ← getFloatFromStack m2;
  Ok (glm.mkvec3 x y z, m3).

Definition withStackVariables
    (fn : Var -> Var -> VirtualMachine -> outcome VirtualMachine)
    (m : VirtualMachine) : outcome VirtualMachine :=
  '(second, m1) ← pop m;
  '(first, m2) ← pop m1;
  fn first second m2.

(** The typed variants of [withStackVariables]: [ty1] and [ty2] are the
    tags checked, [get1] and [get2] the members read. *)
Definition withTyped {A B : Type}
    (ty1 : VariableType.t) (get1 : Var -> A)
    (ty2 : VariableType.t) (get2 : Var -> B)
    (fn : A -> B -> VirtualMachine -> outcome VirtualMachine)
    (m : VirtualMachine) : outcome VirtualMachine :=
  withStackVariables (fun lhs rhs m' =>
    throwIfInvalidType ty1 (type lhs);;
    throwIfInvalidType ty2 (type rhs);;
    fn (get1 lhs) (get2 rhs) m') m.

Definition withIntsFromStack := withTyped VariableType.Int intValue VariableType.Int intValue.
Definition withIntFloatFromStack := withTyped VariableType.Int intValue VariableType.Float floatValue.
Definition withFloatIntFromStack := withTyped VariableType.Float floatValue VariableType.Int intValue.
Definition withFloatsFromStack := withTyped VariableType.Float floatValue VariableType.Float floatValue.
Definition withStringsFromStack := withTyped VariableType.String strValue VariableType.String strValue.
Definition withObjectsFromStack := withTyped VariableType.Object objectId VariableType.Object objectId.
Definition withEffectsFromStack := withTyped VariableType.Effect engineType VariableType.Effect engineType.
Definition withEventsFromStack := withTyped VariableType.Event engineType VariableType.Event engineType.
Definition withLocationsFromStack := withTyped VariableType.Location engineType VariableType.Location engineType.
Definition withTalentsFromStack := withTyped VariableType.Talent engineType VariableType.Talent engineType.

Definition withFloatVectorFromStack
    (fn : Float32.t -> glm.vec3 -> VirtualMachine -> outcome VirtualMachine)
    (m : VirtualMachine) : outcome VirtualMachine :=
  '(rhs, m1) ← getVectorFromStack m;
  '(lhs, m2) ← getFloatFromStack m1;
  fn lhs rhs m2.

Definition withVectorFloatFromStack
    (fn : glm.vec3 -> Float32.t -> VirtualMachine -> outcome VirtualMachine)
    (m : VirtualMachine) : outcome VirtualMachine :=
  '(rhs, m1) ← getFloatFromStack m;
  '(lhs, m2) ← getVectorFromStack m1;
  fn lhs rhs m2.

Definition withVectorsFromStack
    (fn : glm.vec3 -> glm.vec3 -> VirtualMachine -> outcome VirtualMachine)
    (m : VirtualMachine) : outcome VirtualMachine :=
  '(rhs, m1) ← getVectorFromStack m;
  '(lhs, m2) ← getVectorFromStack m1;
  fn lhs rhs m2.

(** *** Instruction handlers *)

(** The shape shared by the handlers that pop two operands and push one
    [int]: [f] is the body of the lambda. *)
Definition push_int (v : Z) (m : VirtualMachine) : VirtualMachine :=
  push_new (ofInt v) m.

Definition push_float (v : Float32.t) (m : VirtualMachine) : VirtualMachine :=
  push_new (ofFloat v) m.

(** [push_back(ofFloat(result.x)); push_back(ofFloat(result.y));
    push_back(ofFloat(result.z));] *)
Definition push_xyz (v : glm.vec3) (m : VirtualMachine) : VirtualMachine :=
  push_float (glm.z v) (push_float (glm.y v) (push_float (glm.x v) m)).

Definition executeCPDOWNSP (ins : Instruction.t) (m : VirtualMachine) : outcome VirtualMachine :=
  let count := Z.quot (Instruction.size ins) 4 in
  let srcIdx := vsize (_stack m) - count in
  let dstIdx := vsize (_stack m) + Z.quot (Instruction.stackOffset ins) 4 in
  s ← copy_within (_stack m) dstIdx srcIdx (Z.to_nat count);
  Ok (set_stack s m).

Definition executeRSADDI (ins : Instruction.t) (m : VirtualMachine) : outcome VirtualMachine :=
  Ok (push_new (ofInt 0) m).

Definition executeRSADDF (ins : Instruction.t) (m : VirtualMachine) : outcome VirtualMachine :=
  Ok (push_new (ofFloat Float32.zero) m).

Definition executeRSADDS (ins : Instruction.t) (m : VirtualMachine) : outcome VirtualMachine :=
  Ok (push_new (ofString EmptyString) m).

Definition executeRSADDO `{Engine} (ins : Instruction.t) (m : VirtualMachine) : outcome VirtualMachine :=
  Ok (push_new (ofObject kObjectInvalid) m).

Definition executeRSADDEFF (ins : Instruction.t) (m : VirtualMachine) : outcome VirtualMachine :=
  Ok (push_new (ofEffect None) m).

Definition executeRSADDEVT (ins : Instruction.t) (m : VirtualMachine) : outcome VirtualMachine :=
  Ok (push_new (ofEvent None) m).

Definition executeRSADDLOC (ins : Instruction.t) (m : VirtualMachine) : outcome VirtualMachine :=
  Ok (push_new (ofLocation None) m).

Definition executeRSADDTAL (ins : Instruction.t) (m : VirtualMachine) : outcome VirtualMachine :=
  Ok (push_new (ofTalent None) m).

Definition executeCPTOPSP (ins : Instruction.t) (m : VirtualMachine) : outcome VirtualMachine :=
  let count := Z.quot (Instruction.size ins) 4 in
  let srcIdx := vsize (_stack m) + Z.quot (Instruction.stackOffset ins) 4 in
  s ← copy_to_top (_stack m) srcIdx (Z.to_nat count);
  Ok (set_stack s m).

Definition executeCONSTI (ins : Instruction.t) (m : VirtualMachine) : outcome VirtualMachine :=
  Ok (push_new (ofInt (Instruction.intValue ins)) m).

Definition executeCONSTF (ins : Instruction.t) (m : VirtualMachine) : outcome VirtualMachine :=
  Ok (push_new (ofFloat (Instruction.floatValue ins)) m).

Definition executeCONSTS (ins : Instruction.t) (m : VirtualMachine) : outcome VirtualMachine :=
  Ok (push_new (ofString (Instruction.strValue ins)) m).

Definition executeCONSTO `{Engine} (ins : Instruction.t) (m : VirtualMachine) : outcome VirtualMachine :=
  let id := Instruction.objectId ins in
  if negb (id =? kObjectSelf) then Ok (push_new (ofObject id) m)
  else
    match findArg (_context m) ArgKind.Caller with
    | Some caller => Ok (push_back caller m)
    | None => Ok (push_new (ofObject kObjectInvalid) m)
    end.

(** The copy of the running context an [Action] parameter receives:
    a copy of the object [_context] points to, with [savedState] replaced
    by a copy of [_savedState]. *)
Definition capture_context (m : VirtualMachine) : ExecutionContext :=
  mkExecutionContext (routines (_context m)) (Some (_savedState m)) (args (_context m)).

(** One pass of the argument loop of [executeACTION], for parameter [i]. *)
Definition marshal_arg (ty : VariableType.t) (args : list Var) (m : VirtualMachine)
    : outcome (list Var * VirtualMachine) :=
  match ty with
  | VariableType.Vector =>
      '(vec, m1) ← getVectorFromStack m;
      let '(v, p) := ofVector vec (process m1) in
      Ok (args ++ [v], set_process p m1)
  | VariableType.Action =>
      let p0 := process m in
      let ctx := (heap_next p0, capture_context m) in
      let '(v, p) := ofAction (Some ctx) (mkProcess (g_id p0) (heap_next p0 + 1)) in
      Ok (args ++ [v], set_process p m)
  | _ =>
      v ← back (_stack m);
      if negb (VariableType.eqb (type v) ty) then Throw runtime_error
      else Ok (args ++ [v], set_stack (removelast (_stack m)) m)
  end.

Fixpoint marshal_args (r : Routine) (i : nat) (count : nat) (args : list Var)
    (m : VirtualMachine) : outcome (list Var * VirtualMachine) :=
  match count with
  | O => Ok (args, m)
  | S count' =>
      ty ← getArgumentType r i;
      '(args', m') ← marshal_arg ty args m;
      marshal_args r (S i) count' args' m'
  end.

(** The switch over [routine.returnType()] that ends [executeACTION]. *)
Definition push_return (ty : VariableType.t) (retValue : Var) (m : VirtualMachine) : VirtualMachine :=
  match ty with
  | VariableType.Void => m
  | VariableType.Vector =>
      push_float (glm.x (vecValue retValue))
        (push_float (glm.y (vecValue retValue))
          (push_float (glm.z (vecValue retValue)) m))
  | _ => push_back retValue m
  end.

Definition executeACTION `{Engine} (ins : Instruction.t) (m : VirtualMachine) : outcome VirtualMachine :=
  match routinesAt (routines (_context m)) with
  | None => Undefined
  | Some rs =>
      r ← IRoutines_get rs (Instruction.routine ins);
      if getArgumentCount r <? Instruction.argCount ins then Throw invalid_argument
      else
        '(args, m1) ← marshal_args r 0 (Z.to_nat (Instruction.argCount ins)) [] m;
        '(retValue, p) ← invoke r args (_context m1) (process m1);
        Ok (push_return (returnType r) retValue (set_process p m1))
  end.

(** Two popped [int]s, one pushed [int]. *)
Definition int_int (f : Z -> Z -> outcome Z) (m : VirtualMachine) : outcome VirtualMachine :=
  withIntsFromStack (fun lhs rhs m' => v ← f lhs rhs; Ok (push_int v m')) m.

Definition executeLOGANDII (ins : Instruction.t) : VirtualMachine -> outcome VirtualMachine :=
  int_int (fun lhs rhs => Ok (Z_of_bool (negb (lhs =? 0) && negb (rhs =? 0)))).

Definition executeLOGORII (ins : Instruction.t) : VirtualMachine -> outcome VirtualMachine :=
  int_int (fun lhs rhs => Ok (Z_of_bool (negb (lhs =? 0) || negb (rhs =? 0)))).

Definition executeINCORII (ins : Instruction.t) : VirtualMachine -> outcome VirtualMachine :=
  int_int (fun lhs rhs => Ok (Z.lor lhs rhs)).

Definition executeEXCORII (ins : Instruction.t) : VirtualMachine -> outcome VirtualMachine :=
  int_int (fun lhs rhs => Ok (Z.lxor lhs rhs)).

Definition executeBOOLANDII (ins : Instruction.t) : VirtualMachine -> outcome VirtualMachine :=
  int_int (fun lhs rhs => Ok (Z.land lhs rhs)).

Definition executeEQUALII (ins : Instruction.t) : VirtualMachine -> outcome VirtualMachine :=
  int_int (fun lhs rhs => Ok (Z_of_bool (lhs =? rhs))).

Definition executeEQUALFF (ins : Instruction.t) : VirtualMachine -> outcome VirtualMachine :=
  withFloatsFromStack (fun lhs rhs m' =>
    Ok (push_int (Z_of_bool (Float32.ltb (Float32.abs (Float32.sub lhs rhs)) kFloatTolerance)) m')).

Definition executeEQUALSS (ins : Instruction.t) : VirtualMachine -> outcome VirtualMachine :=
  withStringsFromStack (fun lhs rhs m' => Ok (push_int (Z_of_bool (String.eqb lhs rhs)) m')).

Definition executeEQUALOO (ins : Instruction.t) : VirtualMachine -> outcome VirtualMachine :=
  withObjectsFromStack (fun lhs rhs m' => Ok (push_int (Z_of_bool (lhs =? rhs)) m')).

(** [for (i = 0; i < n; ++i) { vars.push_back(std::move(_stack.back()));
    _stack.pop_back(); }] *)
Fixpoint pop_many (n : nat) (m : VirtualMachine) : outcome (list Var * VirtualMachine) :=
  match n with
  | O => Ok ([], m)
  | S n' =>
      '(v, m1) ← pop m;
      '(vars, m2) ← pop_many n' m1;
      Ok (v :: vars, m2)
  end.

(** [std::equal] over two ranges of one length *)
Fixpoint std_equal (vars1 vars2 : list Var) : bool :=
  match vars1, vars2 with
  | v1 :: r1, v2 :: r2 => Variable_eqb v1 v2 && std_equal r1 r2
  | _, _ => true
  end.

Definition tuples_from_stack (ins : Instruction.t) (m : VirtualMachine)
    : outcome (bool * VirtualMachine) :=
  let numVariables := Z.to_nat (Z.quot (Instruction.size ins) 4) in
  '(vars1, m1) ← pop_many numVariables m;
  '(vars2, m2) ← pop_many numVariables m1;
  Ok (std_equal vars1 vars2, m2).

Definition executeEQUALTT (ins : Instruction.t) (m : VirtualMachine) : outcome VirtualMachine :=
  '(equal, m') ← tuples_from_stack ins m;
  Ok (push_int (Z_of_bool equal) m').

Definition engine_eq (lhs rhs : option Z) (m' : VirtualMachine) : outcome VirtualMachine :=
  Ok (push_int (Z_of_bool (ptr_eqb (fun p => p) lhs rhs)) m').

Definition engine_ne (lhs rhs : option Z) (m' : VirtualMachine) : outcome VirtualMachine :=
  Ok (push_int (Z_of_bool (negb (ptr_eqb (fun p => p) lhs rhs))) m').

Definition executeEQUALEFFEFF (ins : Instruction.t) : VirtualMachine -> outcome VirtualMachine :=
  withEffectsFromStack engine_eq.
Definition executeEQUALEVTEVT (ins : Instruction.t) : VirtualMachine -> outcome VirtualMachine :=
  withEventsFromStack engine_eq.
Definition executeEQUALLOCLOC (ins : Instruction.t) : VirtualMachine -> outcome VirtualMachine :=
  withLocationsFromStack engine_eq.
Definition executeEQUALTALTAL (ins : Instruction.t) : VirtualMachine -> outcome VirtualMachine :=
  withTalentsFromStack engine_eq.

Definition executeNEQUALII (ins : Instruction.t) : VirtualMachine -> outcome VirtualMachine :=
  int_int (fun lhs rhs => Ok (Z_of_bool (negb (lhs =? rhs)))).

Definition executeNEQUALFF (ins : Instruction.t) : VirtualMachine -> outcome VirtualMachine :=
  withFloatsFromStack (fun lhs rhs m' =>
    Ok (push_int (Z_of_bool (negb (Float32.eqb lhs rhs))) m')).

Definition executeNEQUALSS (ins : Instruction.t) : VirtualMachine -> outcome VirtualMachine :=
  withStringsFromStack (fun lhs rhs m' => Ok (push_int (Z_of_bool (negb (String.eqb lhs rhs))) m')).

Definition executeNEQUALOO (ins : Instruction.t) : VirtualMachine -> outcome VirtualMachine :=
  withObjectsFromStack (fun lhs rhs m' => Ok (push_int (Z_of_bool (negb (lhs =? rhs))) m')).

Definition executeNEQUALTT (ins : Instruction.t) (m : VirtualMachine) : outcome VirtualMachine :=
  '(equal, m') ← tuples_from_stack ins m;
  Ok (push_int (Z_of_bool (negb equal)) m').

Definition executeNEQUALEFFEFF (ins : Instruction.t) : VirtualMachine -> outcome VirtualMachine :=
  withEffectsFromStack engine_ne.
Definition executeNEQUALEVTEVT (ins : Instruction.t) : VirtualMachine -> outcome VirtualMachine :=
  withEventsFromStack engine_ne.
Definition executeNEQUALLOCLOC (ins : Instruction.t) : VirtualMachine -> outcome VirtualMachine :=
  withLocationsFromStack engine_ne.
Definition executeNEQUALTALTAL (ins : Instruction.t) : VirtualMachine -> outcome VirtualMachine :=
  withTalentsFromStack engine_ne.

Definition executeGEQII (ins : Instruction.t) : VirtualMachine -> outcome VirtualMachine :=
  int_int (fun lhs rhs => Ok (Z_of_bool (rhs <=? lhs))).

Definition float_compare (f : Float32.t -> Float32.t -> bool) : VirtualMachine -> outcome VirtualMachine :=
  withFloatsFromStack (fun lhs rhs m' => Ok (push_int (Z_of_bool (f lhs rhs)) m')).

Definition executeGEQFF (ins : Instruction.t) : VirtualMachine -> outcome VirtualMachine :=
  float_compare (fun lhs rhs => Float32.leb rhs lhs).

Definition executeGTII (ins : Instruction.t) : VirtualMachine -> outcome VirtualMachine :=
  int_int (fun lhs rhs => Ok (Z_of_bool (rhs <? lhs))).

Definition executeGTFF (ins : Instruction.t) : VirtualMachine -> outcome VirtualMachine :=
  float_compare (fun lhs rhs => Float32.ltb rhs lhs).

Definition executeLTII (ins : Instruction.t) : VirtualMachine -> outcome VirtualMachine :=
  int_int (fun lhs rhs => Ok (Z_of_bool (lhs <? rhs))).

Definition executeLTFF (ins : Instruction.t) : VirtualMachine -> outcome VirtualMachine :=
  float_compare Float32.ltb.

Definition executeLEQII (ins : Instruction.t) : VirtualMachine -> outcome VirtualMachine :=
  int_int (fun lhs rhs => Ok (Z_of_bool (lhs <=? rhs))).

Definition executeLEQFF (ins : Instruction.t) : VirtualMachine -> outcome VirtualMachine :=
  float_compare Float32.leb.

(** [left << right] on [int]: defined for a non-negative [left] whose
    shifted value fits the unsigned type, and then converted to [int]. *)
Definition executeSHLEFTII (ins : Instruction.t) : VirtualMachine -> outcome VirtualMachine :=
  int_int (fun lhs rhs =>
    n ← shift_count rhs;
    if (0 <=? lhs) && (Z.shiftl lhs n <? 2 ^ 32) then Ok (as_int32 (Z.shiftl lhs n))
    else Undefined).

(** [>>] on a negative [int] is the arithmetic shift on every compiler the
    project builds with. *)
Definition executeSHRIGHTII (ins : Instruction.t) : VirtualMachine -> outcome VirtualMachine :=
  int_int (fun lhs rhs =>
    let result := lhs in
    if result <? 0 then
      negated ← int_result (- result);
      n ← shift_count rhs;
      int_result (- (Z.shiftr negated n))
    else
      n ← shift_count rhs;
      Ok (Z.shiftr result n)).

Definition executeUSHRIGHTII (ins : Instruction.t) : VirtualMachine -> outcome VirtualMachine :=
  int_int (fun lhs rhs =>
    n ← shift_count rhs;
    Ok (as_int32 (Z.shiftr (as_uint32 lhs) n))).

Definition executeADDII (ins : Instruction.t) : VirtualMachine -> outcome VirtualMachine :=
  int_int (fun lhs rhs => int_result (lhs + rhs)).

Definition int_float (f : Float32.t -> Float32.t -> Float32.t) : VirtualMachine -> outcome VirtualMachine :=
  withIntFloatFromStack (fun lhs rhs m' => Ok (push_float (f (Float32.of_int lhs) rhs) m')).

Definition float_int (f : Float32.t -> Float32.t -> Float32.t) : VirtualMachine -> outcome VirtualMachine :=
  withFloatIntFromStack (fun lhs rhs m' => Ok (push_float (f lhs (Float32.of_int rhs)) m')).

Definition float_float (f : Float32.t -> Float32.t -> Float32.t) : VirtualMachine -> outcome VirtualMachine :=
  withFloatsFromStack (fun lhs rhs m' => Ok (push_float (f lhs rhs) m')).

Definition executeADDIF (ins : Instruction.t) : VirtualMachine -> outcome VirtualMachine :=
  int_float Float32.add.
Definition executeADDFI (ins : Instruction.t) : VirtualMachine -> outcome VirtualMachine :=
  float_int Float32.add.
Definition executeADDFF (ins : Instruction.t) : VirtualMachine -> outcome VirtualMachine :=
  float_float Float32.add.

Definition executeADDSS (ins : Instruction.t) : VirtualMachine -> outcome VirtualMachine :=
  withStringsFromStack (fun lhs rhs m' => Ok (push_new (ofString (String.append lhs rhs)) m')).

Definition executeADDVV (ins : Instruction.t) : VirtualMachine -> outcome VirtualMachine :=
  withVectorsFromStack (fun lhs rhs m' => Ok (push_xyz (glm.add lhs rhs) m')).

Definition executeSUBII (ins : Instruction.t) : VirtualMachine -> outcome VirtualMachine :=
  int_int (fun lhs rhs => int_result (lhs - rhs)).
Definition executeSUBIF (ins : Instruction.t) : VirtualMachine -> outcome VirtualMachine :=
  int_float Float32.sub.
Definition executeSUBFI (ins : Instruction.t) : VirtualMachine -> outcome VirtualMachine :=
  float_int Float32.sub.
Definition executeSUBFF (ins : Instruction.t) : VirtualMachine -> outcome VirtualMachine :=
  float_float Float32.sub.

Definition executeSUBVV (ins : Instruction.t) : VirtualMachine -> outcome VirtualMachine :=
  withVectorsFromStack (fun lhs rhs m' => Ok (push_xyz (glm.sub lhs rhs) m')).

Definition executeMULII (ins : Instruction.t) : VirtualMachine -> outcome VirtualMachine :=
  int_int (fun lhs rhs => int_result (lhs * rhs)).
Definition executeMULIF (ins : Instruction.t) : VirtualMachine -> outcome VirtualMachine :=
  int_float Float32.mul.
Definition executeMULFI (ins : Instruction.t) : VirtualMachine -> outcome VirtualMachine :=
  float_int Float32.mul.
Definition executeMULFF (ins : Instruction.t) : VirtualMachine -> outcome VirtualMachine :=
  float_float Float32.mul.

Definition executeMULVF (ins : Instruction.t) : VirtualMachine -> outcome VirtualMachine :=
  withVectorFloatFromStack (fun lhs rhs m' => Ok (push_xyz (glm.vs Float32.mul lhs rhs) m')).

Definition executeMULFV (ins : Instruction.t) : VirtualMachine -> outcome VirtualMachine :=
  withFloatVectorFromStack (fun lhs rhs m' => Ok (push_xyz (glm.sv Float32.mul lhs rhs) m')).

Definition executeDIVII (ins : Instruction.t) : VirtualMachine -> outcome VirtualMachine :=
  int_int (fun lhs rhs => if rhs =? 0 then Undefined else int_result (Z.quot lhs rhs)).

Definition executeDIVIF (ins : Instruction.t) : VirtualMachine -> outcome VirtualMachine :=
  int_float (fun lhs rhs => Float32.div lhs (Float32.max kFloatTolerance rhs)).

Definition executeDIVFI (ins : Instruction.t) : VirtualMachine -> outcome VirtualMachine :=
  float_int Float32.div.

Definition executeDIVFF (ins : Instruction.t) : VirtualMachine -> outcome VirtualMachine :=
  float_float (fun lhs rhs => Float32.div lhs (Float32.max kFloatTolerance rhs)).

Definition executeDIVVF (ins : Instruction.t) : VirtualMachine -> outcome VirtualMachine :=
  withVectorFloatFromStack (fun lhs rhs m' => Ok (push_xyz (glm.vs Float32.div lhs rhs) m')).

Definition executeDIVFV (ins : Instruction.t) : VirtualMachine -> outcome VirtualMachine :=
  withFloatVectorFromStack (fun lhs rhs m' => Ok (push_xyz (glm.sv Float32.div lhs rhs) m')).

Definition executeMODII (ins : Instruction.t) : VirtualMachine -> outcome VirtualMachine :=
  int_int (fun lhs rhs =>
    if rhs =? 0 then Undefined
    else int_result (Z.quot lhs rhs);; Ok (Z.rem lhs rhs)).

(** [_stack.back() = neg;] *)
Definition set_back (v : Var) (m : VirtualMachine) : VirtualMachine :=
  set_stack (removelast (_stack m) ++ [v]) m.

Definition executeNEGI (ins : Instruction.t) (m : VirtualMachine) : outcome VirtualMachine :=
  top ← back (_stack m);
  n ← int_result (- intValue top);
  let '(neg, p) := ofInt n (process m) in
  Ok (set_back neg (set_process p m)).

Definition executeNEGF (ins : Instruction.t) (m : VirtualMachine) : outcome VirtualMachine :=
  top ← back (_stack m);
  let '(neg, p) := ofFloat (Float32.opp (floatValue top)) (process m) in
  Ok (set_back neg (set_process p m)).

Fixpoint pop_times (count : nat) (s : list Var) : outcome (list Var) :=
  match count with
  | O => Ok s
  | S count' => s' ← pop_back s; pop_times count' s'
  end.

Definition executeMOVSP (ins : Instruction.t) (m : VirtualMachine) : outcome VirtualMachine :=
  negated ← int_result (- Instruction.stackOffset ins);
  let count := Z.quot negated 4 in
  s ← pop_times (Z.to_nat count) (_stack m);
  Ok (set_stack s m).

(** [ins.offset + ins.jumpOffset] stored in the [uint32_t] cursor *)
Definition jump_target (ins : Instruction.t) : Z :=
  as_uint32 (Instruction.offset ins + Instruction.jumpOffset ins).

Definition executeJMP (ins : Instruction.t) (m : VirtualMachine) : outcome VirtualMachine :=
  Ok (set_nextInstruction (jump_target ins) m).

Definition executeJSR (ins : Instruction.t) (m : VirtualMachine) : outcome VirtualMachine :=
  let m1 := set_returnOffsets (_returnOffsets m ++ [Instruction.nextOffset ins]) m in
  Ok (set_nextInstruction (jump_target ins) m1).

Definition executeJZ (ins : Instruction.t) (m : VirtualMachine) : outcome VirtualMachine :=
  '(value, m1) ← getIntFromStack m;
  let zero := value =? 0 in
  if zero then Ok (set_nextInstruction (jump_target ins) m1) else Ok m1.

Definition executeRETN (ins : Instruction.t) (m : VirtualMachine) : outcome VirtualMachine :=
  match last (_returnOffsets m) with
  | None =>
      match _program m with
      | Some p => Ok (set_nextInstruction (ScriptProgram.length p) m)
      | None => Undefined
      end
  | Some off =>
      Ok (set_returnOffsets (removelast (_returnOffsets m)) (set_nextInstruction off m))
  end.

Definition executeDESTRUCT (ins : Instruction.t) (m : VirtualMachine) : outcome VirtualMachine :=
  let startIdx := vsize (_stack m) - Z.quot (Instruction.size ins) 4 in
  let startIdxNoDestroy := startIdx + Z.quot (Instruction.stackOffset ins) 4 in
  let countNoDestroy := Z.quot (Instruction.sizeNoDestroy ins) 4 in
  s ← copy_within (_stack m) startIdx startIdxNoDestroy (Z.to_nat countNoDestroy);
  s' ← resize s (startIdx + countNoDestroy);
  Ok (set_stack s' m).

(** [_stack[dstIdx] = Variable::ofInt(_stack[dstIdx].intValue + delta);] *)
Definition step_int_at (dstIdx : Z) (delta : Z) (m : VirtualMachine) : outcome VirtualMachine :=
  v ← at_ (_stack m) dstIdx;
  n ← int_result (intValue v + delta);
  let '(v', p) := ofInt n (process m) in
  s ← assign (_stack m) dstIdx v';
  Ok (set_stack s (set_process p m)).

Definition executeDECISP (ins : Instruction.t) (m : VirtualMachine) : outcome VirtualMachine :=
  step_int_at (vsize (_stack m) + Z.quot (Instruction.stackOffset ins) 4) (-1) m.

Definition executeINCISP (ins : Instruction.t) (m : VirtualMachine) : outcome VirtualMachine :=
  step_int_at (vsize (_stack m) + Z.quot (Instruction.stackOffset ins) 4) 1 m.

Definition executeNOTI (ins : Instruction.t) (m : VirtualMachine) : outcome VirtualMachine :=
  '(value, m1) ← getIntFromStack m;
  Ok (push_int (Z_of_bool (value =? 0)) m1).

Definition executeJNZ (ins : Instruction.t) (m : VirtualMachine) : outcome VirtualMachine :=
  '(value, m1) ← getIntFromStack m;
  let notZero := negb (value =? 0) in
  if notZero then Ok (set_nextInstruction (jump_target ins) m1) else Ok m1.

Definition executeCPDOWNBP (ins : Instruction.t) (m : VirtualMachine) : outcome VirtualMachine :=
  let count := Z.quot (Instruction.size ins) 4 in
  let srcIdx := vsize (_stack m) - count in
  let dstIdx := _globalCount m + Z.quot (Instruction.stackOffset ins) 4 in
  s ← copy_within (_stack m) dstIdx srcIdx (Z.to_nat count);
  Ok (set_stack s m).

Definition executeCPTOPBP (ins : Instruction.t) (m : VirtualMachine) : outcome VirtualMachine :=
  let count := Z.quot (Instruction.size ins) 4 in
  let srcIdx := _globalCount m + Z.quot (Instruction.stackOffset ins) 4 in
  s ← copy_to_top (_stack m) srcIdx (Z.to_nat count);
  Ok (set_stack s m).

Definition executeDECIBP (ins : Instruction.t) (m : VirtualMachine) : outcome VirtualMachine :=
  step_int_at (_globalCount m + Z.quot (Instruction.stackOffset ins) 4) (-1) m.

Definition executeINCIBP (ins : Instruction.t) (m : VirtualMachine) : outcome VirtualMachine :=
  step_int_at (_globalCount m + Z.quot (Instruction.stackOffset ins) 4) 1 m.

Definition executeSAVEBP (ins : Instruction.t) (m : VirtualMachine) : outcome VirtualMachine :=
  let m1 := set_globalCount (vsize (_stack m)) m in
  Ok (push_int (_globalCount m1) m1).

Definition executeRESTOREBP (ins : Instruction.t) (m : VirtualMachine) : outcome VirtualMachine :=
  '(value, m1) ← getIntFromStack m;
  Ok (set_globalCount value m1).

Definition executeSTORE_STATE (ins : Instruction.t) (m : VirtualMachine) : outcome VirtualMachine :=
  let count := Z.quot (Instruction.size ins) 4 in
  let srcIdx := _globalCount m - count in
  gs ← read_run (_stack m) srcIdx (Z.to_nat count);
  let count' := Z.quot (Instruction.sizeLocals ins) 4 in
  let srcIdx' := vsize (_stack m) - count' in
  ls ← read_run (_stack m) srcIdx' (Z.to_nat count');
  Ok (set_savedState
        (mkExecutionState gs ls (_program m) (as_uint32 (Instruction.offset ins + 16))) m).

(** The empty lambdas registered for [NOP] and [NOP2]. *)
Definition executeNOP (ins : Instruction.t) (m : VirtualMachine) : outcome VirtualMachine :=
  Ok m.

(** *** The handler table

    [_handlers] after the constructor: the entries of [g_handlers] and the
    two empty lambdas.  [None] is [_handlers.end()]. *)
Definition find_handler `{Engine} (ty : InstructionType.t)
    : option (Instruction.t -> VirtualMachine -> outcome VirtualMachine) :=
  match ty with
  | InstructionType.CPDOWNSP => Some executeCPDOWNSP
  | InstructionType.RSADDI => Some executeRSADDI
  | InstructionType.RSADDF => Some executeRSADDF
  | InstructionType.RSADDS => Some executeRSADDS
  | InstructionType.RSADDO => Some executeRSADDO
  | InstructionType.RSADDEFF => Some executeRSADDEFF
  | InstructionType.RSADDEVT => Some executeRSADDEVT
  | InstructionType.RSADDLOC => Some executeRSADDLOC
  | InstructionType.RSADDTAL => Some executeRSADDTAL
  | InstructionType.CPTOPSP => Some executeCPTOPSP
  | InstructionType.CONSTI => Some executeCONSTI
  | InstructionType.CONSTF => Some executeCONSTF
  | InstructionType.CONSTS => Some executeCONSTS
  | InstructionType.CONSTO => Some executeCONSTO
  | InstructionType.ACTION => Some executeACTION
  | InstructionType.LOGANDII => Some executeLOGANDII
  | InstructionType.LOGORII => Some executeLOGORII
  | InstructionType.INCORII => Some executeINCORII
  | InstructionType.EXCORII => Some executeEXCORII
  | InstructionType.BOOLANDII => Some executeBOOLANDII
  | InstructionType.EQUALII => Some executeEQUALII
  | InstructionType.EQUALFF => Some executeEQUALFF
  | InstructionType.EQUALSS => Some executeEQUALSS
  | InstructionType.EQUALOO => Some executeEQUALOO
  | InstructionType.EQUALTT => Some executeEQUALTT
  | InstructionType.EQUALEFFEFF => Some executeEQUALEFFEFF
  | InstructionType.EQUALEVTEVT => Some executeEQUALEVTEVT
  | InstructionType.EQUALLOCLOC => Some executeEQUALLOCLOC
  | InstructionType.EQUALTALTAL => Some executeEQUALTALTAL
  | InstructionType.NEQUALII => Some executeNEQUALII
  | InstructionType.NEQUALFF => Some executeNEQUALFF
  | InstructionType.NEQUALSS => Some executeNEQUALSS
  | InstructionType.NEQUALOO => Some executeNEQUALOO
  | InstructionType.NEQUALTT => Some executeNEQUALTT
  | InstructionType.NEQUALEFFEFF => Some executeNEQUALEFFEFF
  | InstructionType.NEQUALEVTEVT => Some executeNEQUALEVTEVT
  | InstructionType.NEQUALLOCLOC => Some executeNEQUALLOCLOC
  | InstructionType.NEQUALTALTAL => Some executeNEQUALTALTAL
  | InstructionType.GEQII => Some executeGEQII
  | InstructionType.GEQFF => Some executeGEQFF
  | InstructionType.GTII => Some executeGTII
  | InstructionType.GTFF => Some executeGTFF
  | InstructionType.LTII => Some executeLTII
  | InstructionType.LTFF => Some executeLTFF
  | InstructionType.LEQII => Some executeLEQII
  | InstructionType.LEQFF => Some executeLEQFF
  | InstructionType.SHLEFTII => Some executeSHLEFTII
  | InstructionType.SHRIGHTII => Some executeSHRIGHTII
  | InstructionType.USHRIGHTII => Some executeUSHRIGHTII
  | InstructionType.ADDII => Some executeADDII
  | InstructionType.ADDIF => Some executeADDIF
  | InstructionType.ADDFI => Some executeADDFI
  | InstructionType.ADDFF => Some executeADDFF
  | InstructionType.ADDSS => Some executeADDSS
  | InstructionType.ADDVV => Some executeADDVV
  | InstructionType.SUBII => Some executeSUBII
  | InstructionType.SUBIF => Some executeSUBIF
  | InstructionType.SUBFI => Some executeSUBFI
  | InstructionType.SUBFF => Some executeSUBFF
  | InstructionType.SUBVV => Some executeSUBVV
  | InstructionType.MULII => Some executeMULII
  | InstructionType.MULIF => Some executeMULIF
  | InstructionType.MULFI => Some executeMULFI
  | InstructionType.MULFF => Some executeMULFF
  | InstructionType.MULVF => Some executeMULVF
  | InstructionType.MULFV => Some executeMULFV
  | InstructionType.DIVII => Some executeDIVII
  | InstructionType.DIVIF => Some executeDIVIF
  | InstructionType.DIVFI => Some executeDIVFI
  | InstructionType.DIVFF => Some executeDIVFF
  | InstructionType.DIVVF => Some executeDIVVF
  | InstructionType.DIVFV => Some executeDIVFV
  | InstructionType.MODII => Some executeMODII
  | InstructionType.NEGI => Some executeNEGI
  | InstructionType.NEGF => Some executeNEGF
  | InstructionType.MOVSP => Some executeMOVSP
  | InstructionType.JMP => Some executeJMP
  | InstructionType.JSR => Some executeJSR
  | InstructionType.JZ => Some executeJZ
  | InstructionType.RETN => Some executeRETN
  | InstructionType.DESTRUCT => Some executeDESTRUCT
  | InstructionType.NOTI => Some executeNOTI
  | InstructionType.DECISP => Some executeDECISP
  | InstructionType.INCISP => Some executeINCISP
  | InstructionType.JNZ => Some executeJNZ
  | InstructionType.CPDOWNBP => Some executeCPDOWNBP
  | InstructionType.CPTOPBP => Some executeCPTOPBP
  | InstructionType.DECIBP => Some executeDECIBP
  | InstructionType.INCIBP => Some executeINCIBP
  | InstructionType.SAVEBP => Some executeSAVEBP
  | InstructionType.RESTOREBP => Some executeRESTOREBP
  | InstructionType.STORE_STATE => Some executeSTORE_STATE
  | InstructionType.NOP => Some executeNOP
  | InstructionType.NOP2 => Some executeNOP
  | InstructionType.Other _ => None
  end.

(** *** VirtualMachine::run *)

(** How a call of [run()] ends: it returns an [int]; or [getInstruction],
    which is called outside the [try] block, found no instruction at the
    cursor; or a handler left defined behaviour. *)
Inductive RunResult :=
  | Returned (value : Z)
  | ProgramFault
  | RunUndefined.

(** The statements of [run()] before the loop. *)
Definition run_prologue (m : VirtualMachine) : VirtualMachine * Z :=
  match savedState (_context m) with
  | Some st =>
      let m1 := set_stack (_stack m ++ globals st) m in
      let m2 := set_globalCount (vsize (_stack m1)) m1 in
      let m3 := set_stack (_stack m2 ++ locals st) m2 in
      (m3, insOffset st)
  | None => (m, kStartInstructionOffset)
  end.

(** The statements of [run()] after the loop. *)
Definition run_epilogue (m : VirtualMachine) : Z :=
  match last (_stack m) with
  | Some top =>
      if VariableType.eqb (type top) VariableType.Int then intValue top else -1
  | None => -1
  end.

(** One pass of the body of the [while] loop. *)
Inductive Iteration :=
  | Continue (m : VirtualMachine) (insOff : Z)
  | Finished (r : RunResult).

Definition run_body `{Engine} (p : ScriptProgram.t) (m : VirtualMachine) (insOff : Z) : Iteration :=
  match ScriptProgram.getInstruction p insOff with
  | None => Finished ProgramFault
  | Some ins =>
      match find_handler (Instruction.type ins) with
      | None => Finished (Returned (-1))
      | Some handler =>
          let m1 := set_nextInstruction (Instruction.nextOffset ins) m in
          match handler ins m1 with
          | Throw _ => Finished (Returned (-1))
          | Undefined => Finished RunUndefined
          | Ok m2 => Continue m2 (_nextInstruction m2)
          end
      end
  end.

(** The loop, cut after [fuel] passes: [None] when it is still running. *)
Fixpoint run_loop `{Engine} (fuel : nat) (p : ScriptProgram.t) (m : VirtualMachine)
    (insOff : Z) : option RunResult :=
  if insOff <? ScriptProgram.length p then
    match fuel with
    | O => None
    | S fuel' =>
        match run_body p m insOff with
        | Continue m' insOff' => run_loop fuel' p m' insOff'
        | Finished r => Some r
        end
    end
  else Some (Returned (run_epilogue m)).

Definition run `{Engine} (fuel : nat) (m : VirtualMachine) : option RunResult :=
  match _program m with
  | None => Some RunUndefined
  | Some p =>
      let '(m1, insOff) := run_prologue m in
      run_loop fuel p m1 insOff
  end.

(** The machine and cursor after [k] passes of the loop that all ran to
    their end; [None] when the loop stops sooner. *)
Fixpoint passes `{Engine} (k : nat) (p : ScriptProgram.t) (m : VirtualMachine)
    (insOff : Z) : option (VirtualMachine * Z) :=
  match k with
  | O => Some (m, insOff)
  | S k' =>
      if insOff <? ScriptProgram.length p then
        match run_body p m insOff with
        | Continue m' insOff' => passes k' p m' insOff'
        | Finished _ => None
        end
      else None
  end.

(** ** docommand.cpp *)

(** [arg.var.objectId = ...] *)
Definition set_objectId (v : Var) (objectId : Z) : Var :=
  mkVariable (type v) (strValue v) (vecValue v) (engineType v) (context v) (id v)
    (as_uint32 objectId).

(** The loop over [executionCtx->args]: [None] when it ends with
    [foundCaller] false. *)
Fixpoint overwrite_caller (actorId : Z) (l : list Argument) : option (list Argument) :=
  match l with
  | [] => None
  | arg :: rest =>
      if ArgKind.eqb (kind arg) ArgKind.Caller
      then Some (mkArgument (kind arg) (set_objectId (var arg) actorId) :: rest)
      else cons arg <$> overwrite_caller actorId rest
  end.

(** The context [DoCommandAction::execute] builds from [_actionToDo] for
    the actor. *)
Definition rebind_caller `{Engine} (actionToDo : ExecutionContext) (actorId : Z)
    (p : Process) : outcome (ExecutionContext * Process) :=
  match overwrite_caller actorId (args actionToDo) with
  | Some args' =>
      Ok (mkExecutionContext (routines actionToDo) (savedState actionToDo) args', p)
  | None =>
      let '(v, p') := ofObject actorId p in
      a ← Argument_new ArgKind.Caller v;
      Ok (mkExecutionContext (routines actionToDo) (savedState actionToDo)
            (args actionToDo ++ [a]), p')
  end.

(** [DoCommandAction::execute] up to the call of [complete()]: the run of
    the machine it constructs. *)
Definition DoCommandAction_execute `{Engine} (fuel : nat) (actionToDo : ExecutionContext)
    (actorId : Z) (p : Process) : outcome (option RunResult) :=
  '(executionCtx, p') ← rebind_caller actionToDo actorId p;
  match savedState actionToDo with
  | None => Undefined
  | Some st => Ok (run fuel (VirtualMachine_new (program st) executionCtx p'))
  end.

(** ** Notions the statements use *)

(** The pairing of kinds and variables as the design document words it:
    the kinds that name an object, the kinds that carry a number, and what
    each asks of the variable. *)
Definition object_kinds : list ArgKind.t :=
  [ ArgKind.Caller; ArgKind.ClickingObject; ArgKind.EnteringObject;
    ArgKind.ExitingObject; ArgKind.LastClosedBy; ArgKind.LastOpenedBy;
    ArgKind.LastPerceived ].

Definition numeric_kinds : list ArgKind.t :=
  [ ArgKind.ScriptVar; ArgKind.UserDefinedEventNumber;
    ArgKind.LastPerceptionHeard; ArgKind.LastPerceptionInaudible;
    ArgKind.LastPerceptionSeen; ArgKind.LastPerceptionVanished ].

Definition pairing_respected `{Engine} (k : ArgKind.t) (v : Var) : Prop :=
  (k ∈ object_kinds -> type v = VariableType.Object /\ objectId v <> kObjectSelf) /\
  (k ∈ numeric_kinds -> type v = VariableType.Int).



(** The floats on the stack, bottom first, and the cursor, where the loop
    stands after some passes. *)
Definition stack_floats_after (r : option (VirtualMachine * Z)) : option (list Float32.t * Z) :=
  match r with
  | Some (m, insOff) => Some (map floatValue (_stack m), insOff)
  | None => None
  end.

(** ** Sample data for the scenarios of the design document *)

(** An engine for the scenarios: the invalid object is 0 as the design
    document gives it, the self sentinel is another id, and no routine
    table is installed. *)
Definition scenario_engine : Engine := mkEngine 2130706432 0 (fun _ => None).

Definition process0 : Process := mkProcess 0 0.

(** A context with no saved state and no arguments. *)
Definition bare_context : ExecutionContext := mkExecutionContext 0 None [].

Definition int_var (value : Z) : Var := fst (ofInt value process0).
Definition float_var (value : Float32.t) : Var := fst (ofFloat value process0).

(** The floats of the scenarios: 1.0, 2.0, 3.0, 100000.0, 2^127, and the
    binary32 value nearest to 5e-6. *)
Definition float_one : Float32.t := S754_finite false 8388608 (-23).
Definition float_two : Float32.t := S754_finite false 8388608 (-22).
Definition float_three : Float32.t := S754_finite false 12582912 (-22).

(** Instructions at an offset, with the width of their encoding. *)
Definition CONSTI_at (off value : Z) : Instruction.t :=
  Instruction.mk off InstructionType.CONSTI (off + 6) 0 0 0 0 0 0 0 value
    Float32.zero EmptyString 0.

Definition CONSTF_at (off : Z) (value : Float32.t) : Instruction.t :=
  Instruction.mk off InstructionType.CONSTF (off + 6) 0 0 0 0 0 0 0 0
    value EmptyString 0.

Definition ACTION_at (off routine argCount : Z) : Instruction.t :=
  Instruction.mk off InstructionType.ACTION (off + 5) 0 0 0 0 0 routine argCount 0
    Float32.zero EmptyString 0.

(** [CPTOPSP -4, 4]: copy the top variable to the top. *)
Definition CPTOPSP_top : Instruction.t :=
  Instruction.mk 13 InstructionType.CPTOPSP 21 4 (-4) 0 0 0 0 0 0 Float32.zero EmptyString 0.

(** [CPDOWNSP -8, 4]: copy the top variable over the one below it. *)
Definition CPDOWNSP_top : Instruction.t :=
  Instruction.mk 13 InstructionType.CPDOWNSP 21 4 (-8) 0 0 0 0 0 0 Float32.zero EmptyString 0.

(** [CONSTI 2; CONSTI 3; ADDII; RETN], laid out from the entry offset. *)
Definition add_program : ScriptProgram.t :=
  ScriptProgram.mk "add" 29
    [ CONSTI_at 13 2;
      CONSTI_at 19 3;
      Instruction.plain 25 InstructionType.ADDII 27;
      Instruction.plain 27 InstructionType.RETN 29 ].

(** A program whose first instruction carries an opcode outside the
    handler table. *)
Definition unknown_opcode_program : ScriptProgram.t :=
  ScriptProgram.mk "unknown" 17
    [ Instruction.plain 13 (InstructionType.Other 255) 15;
      Instruction.plain 15 InstructionType.RETN 17 ].

(** [CONSTF 0.0; JZ]: the handler of [JZ] meets a [Float] where it wants
    an [Int]. *)
Definition type_error_program : ScriptProgram.t :=
  ScriptProgram.mk "mismatch" 25
    [ CONSTF_at 13 Float32.zero;
      Instruction.mk 19 InstructionType.JZ 25 0 0 6 0 0 0 0 0 Float32.zero EmptyString 0 ].


(** A machine whose stack holds the one [int] 7. *)
Definition machine_with_7 : VirtualMachine :=
  set_stack [int_var 7] (VirtualMachine_new (Some add_program) bare_context process0).

(** A fresh machine whose stack holds the two given variables, the second
    on top. *)
Definition machine_with_operands (a b : Var) : VirtualMachine :=
  set_stack [a; b] (VirtualMachine_new (Some add_program) bare_context process0).

(** A captured context whose arguments are [LastOpenedBy = Object(7)] and
    [Caller = Object(5)]. *)
Definition door_context : ExecutionContext :=
  mkExecutionContext 0 (Some (mkExecutionState [] [] (Some add_program) 29))
    [ mkArgument ArgKind.LastOpenedBy (fst (ofObject 7 process0));
      mkArgument ArgKind.Caller (fst (ofObject 5 process0)) ].

(** Two native routines for the vector scenario: the first returns the
    vector (1, 2, 3); the second takes a vector and returns its x
    component.  Their table lives at address 1. *)
Definition vector_123 : glm.vec3 := glm.mkvec3 float_one float_two float_three.

Definition produce_vector : Routine :=
  mkRoutine "produce_vector" [] VariableType.Vector
    (fun _ _ p => Ok (ofVector vector_123 p)).

Definition vector_x : Routine :=
  mkRoutine "vector_x" [VariableType.Vector] VariableType.Float
    (fun args _ p =>
       match args with
       | [v] => Ok (ofFloat (glm.x (vecValue v)) p)
       | _ => Throw invalid_argument
       end).

Definition vector_engine : Engine :=
  mkEngine 2130706432 0
    (fun addr => if addr =? 1 then Some (mkRoutines [produce_vector; vector_x]) else None).

(** [ACTION produce_vector; ACTION vector_x; RETN] *)
Definition vector_program : ScriptProgram.t :=
  ScriptProgram.mk "vector" 25
    [ ACTION_at 13 0 0;
      ACTION_at 18 1 1;
      Instruction.plain 23 InstructionType.RETN 25 ].

Definition vector_machine : VirtualMachine :=
  VirtualMachine_new (Some vector_program) (mkExecutionContext 1 None []) process0.


(** ** Further code of the script library and of its callers

    The definitions the further properties at the end of the file are
    stated with: the effect of a handler on the size of the stack, the
    members a handler leaves alone, [ScriptRunner::run], the conversions
    between arguments and text, and the console command that runs a
    script, with the data of their scenarios. *)

From Stdlib Require Import Ascii.

(** [_stack.size()] *)
Definition ssize (m : VirtualMachine) : Z := vsize (_stack m).

(** The number of variables the argument loop of [ACTION] pops for a
    parameter of a type: three floats for a vector, nothing for an
    action. *)
Definition arg_pops (ty : VariableType.t) : Z :=
  match ty with
  | VariableType.Vector => 3
  | VariableType.Action => 0
  | _ => 1
  end.

(** The number of variables [ACTION] pushes for a return type. *)
Definition return_pushes (ty : VariableType.t) : Z :=
  match ty with
  | VariableType.Void => 0
  | VariableType.Vector => 3
  | _ => 1
  end.

Definition sum_pops (tys : list VariableType.t) : Z :=
  fold_right (fun ty acc => arg_pops ty + acc) 0 tys.

(** What [ACTION] adds to the size of the stack: the pushes for the
    return type of the routine less the pops for the parameters the
    instruction passes. *)
Definition action_effect `{Engine} (ins : Instruction.t) (m : VirtualMachine) : option Z :=
  match routinesAt (routines (_context m)) with
  | None => None
  | Some rs =>
      match IRoutines_get rs (Instruction.routine ins) with
      | Ok r =>
          Some (return_pushes (returnType r)
                - sum_pops (take (Z.to_nat (Instruction.argCount ins)) (argumentTypes r)))
      | _ => None
      end
  end.

(** What the handler of an instruction adds to the size of the stack
    when it returns, read off the handlers: [None] for an opcode without
    a handler. *)
Definition stack_effect `{Engine} (ins : Instruction.t) (m : VirtualMachine) : option Z :=
  let count := Z.max 0 (Z.quot (Instruction.size ins) 4) in
  match Instruction.type ins with
  | InstructionType.NOP | InstructionType.NOP2
  | InstructionType.CPDOWNSP | InstructionType.CPDOWNBP
  | InstructionType.JMP | InstructionType.JSR | InstructionType.RETN
  | InstructionType.NEGI | InstructionType.NEGF | InstructionType.NOTI
  | InstructionType.DECISP | InstructionType.INCISP
  | InstructionType.DECIBP | InstructionType.INCIBP
  | InstructionType.STORE_STATE => Some 0
  | InstructionType.RSADDI | InstructionType.RSADDF | InstructionType.RSADDS
  | InstructionType.RSADDO | InstructionType.RSADDEFF | InstructionType.RSADDEVT
  | InstructionType.RSADDLOC | InstructionType.RSADDTAL
  | InstructionType.CONSTI | InstructionType.CONSTF | InstructionType.CONSTS
  | InstructionType.CONSTO | InstructionType.SAVEBP => Some 1
  | InstructionType.CPTOPSP | InstructionType.CPTOPBP => Some count
  | InstructionType.ACTION => action_effect ins m
  | InstructionType.ADDVV | InstructionType.SUBVV => Some (-3)
  | InstructionType.EQUALTT | InstructionType.NEQUALTT => Some (1 - 2 * count)
  | InstructionType.MOVSP =>
      Some (- Z.max 0 (Z.quot (- Instruction.stackOffset ins) 4))
  | InstructionType.DESTRUCT =>
      Some (Z.quot (Instruction.sizeNoDestroy ins) 4 - Z.quot (Instruction.size ins) 4)
  | InstructionType.LOGANDII | InstructionType.LOGORII | InstructionType.INCORII
  | InstructionType.EXCORII | InstructionType.BOOLANDII
  | InstructionType.EQUALII | InstructionType.EQUALFF | InstructionType.EQUALSS
  | InstructionType.EQUALOO | InstructionType.EQUALEFFEFF | InstructionType.EQUALEVTEVT
  | InstructionType.EQUALLOCLOC | InstructionType.EQUALTALTAL
  | InstructionType.NEQUALII | InstructionType.NEQUALFF | InstructionType.NEQUALSS
  | InstructionType.NEQUALOO | InstructionType.NEQUALEFFEFF | InstructionType.NEQUALEVTEVT
  | InstructionType.NEQUALLOCLOC | InstructionType.NEQUALTALTAL
  | InstructionType.GEQII | InstructionType.GEQFF | InstructionType.GTII
  | InstructionType.GTFF | InstructionType.LTII | InstructionType.LTFF
  | InstructionType.LEQII | InstructionType.LEQFF
  | InstructionType.SHLEFTII | InstructionType.SHRIGHTII | InstructionType.USHRIGHTII
  | InstructionType.ADDII | InstructionType.ADDIF | InstructionType.ADDFI
  | InstructionType.ADDFF | InstructionType.ADDSS
  | InstructionType.SUBII | InstructionType.SUBIF | InstructionType.SUBFI
  | InstructionType.SUBFF
  | InstructionType.MULII | InstructionType.MULIF | InstructionType.MULFI
  | InstructionType.MULFF | InstructionType.MULVF | InstructionType.MULFV
  | InstructionType.DIVII | InstructionType.DIVIF | InstructionType.DIVFI
  | InstructionType.DIVFF | InstructionType.DIVVF | InstructionType.DIVFV
  | InstructionType.MODII
  | InstructionType.JZ | InstructionType.JNZ | InstructionType.RESTOREBP => Some (-1)
  | InstructionType.Other _ => None
  end.

(** A fresh machine with the given stack, bottom first. *)
Definition machine_with_stack (s : list Var) : VirtualMachine :=
  set_stack s (VirtualMachine_new (Some add_program) bare_context process0).

(** [DESTRUCT 12, 4, 4]: of the top three variables keep the middle
    one. *)
Definition DESTRUCT_middle : Instruction.t :=
  Instruction.mk 13 InstructionType.DESTRUCT 21 12 4 0 4 0 0 0 0 Float32.zero EmptyString 0.

(** [MOVSP -8]: pop two variables. *)
Definition MOVSP_two : Instruction.t :=
  Instruction.mk 13 InstructionType.MOVSP 19 0 (-8) 0 0 0 0 0 0 Float32.zero EmptyString 0.


(** Two machines that differ at most in the stack (and in the process
    they run in). *)
Definition frame (m m' : VirtualMachine) : Prop :=
  _context m' = _context m /\
  _program m' = _program m /\
  _savedState m' = _savedState m /\
  _globalCount m' = _globalCount m /\
  _returnOffsets m' = _returnOffsets m /\
  _nextInstruction m' = _nextInstruction m.

(** The opcodes whose handlers assign to [_savedState], [_globalCount],
    [_returnOffsets] and [_nextInstruction]. *)
Definition may_change_savedState (ty : InstructionType.t) : bool :=
  match ty with InstructionType.STORE_STATE => true | _ => false end.

Definition may_change_globalCount (ty : InstructionType.t) : bool :=
  match ty with InstructionType.SAVEBP | InstructionType.RESTOREBP => true | _ => false end.

Definition may_change_returnOffsets (ty : InstructionType.t) : bool :=
  match ty with InstructionType.JSR | InstructionType.RETN => true | _ => false end.

Definition may_change_nextInstruction (ty : InstructionType.t) : bool :=
  match ty with
  | InstructionType.JMP | InstructionType.JSR | InstructionType.JZ
  | InstructionType.JNZ | InstructionType.RETN => true
  | _ => false
  end.

(** [JSR +8; RETN; RETN]: a call of the subroutine at offset 21, which
    returns at once. *)
Definition call_program : ScriptProgram.t :=
  ScriptProgram.mk "call" 23
    [ Instruction.mk 13 InstructionType.JSR 19 0 0 8 0 0 0 0 0 Float32.zero EmptyString 0;
      Instruction.plain 19 InstructionType.RETN 21;
      Instruction.plain 21 InstructionType.RETN 23 ].

(** [CONSTO] with the self sentinel of the scenarios. *)
Definition CONSTO_self : Instruction.t :=
  Instruction.mk 13 InstructionType.CONSTO 19 0 0 0 0 0 0 0 0 Float32.zero EmptyString
    2130706432.

(** [CONSTO self; RETN] *)
Definition self_program : ScriptProgram.t :=
  ScriptProgram.mk "self" 21
    [ CONSTO_self; Instruction.plain 19 InstructionType.RETN 21 ].

(** A captured context that resumes [self_program] at its start, with
    the given object as caller. *)
Definition rebound_context (caller : Z) : ExecutionContext :=
  mkExecutionContext 0 (Some (mkExecutionState [] [] (Some self_program) 13))
    [ mkArgument ArgKind.Caller (set_objectId (fst (ofObject 5 process0)) caller) ].

(** [ScriptRunner::run(resRef, args)].  [_scripts] is the script provider
    as the lookup [get] performs, [_routines] the address of the routine
    table of the game. *)
Definition ScriptRunner_run `{Engine} (_scripts : string -> option ScriptProgram.t)
    (_routines : Z) (fuel : nat) (resRef : string) (args : list Argument) (p : Process)
    : option RunResult :=
  match _scripts resRef with
  | None => Some (Returned (-1))
  | Some program =>
      let ctx := mkExecutionContext _routines None args in
      run fuel (VirtualMachine_new (Some program) ctx p)
  end.

(** [ScriptRunner::run(resRef, callerId)] *)
Definition ScriptRunner_run_caller `{Engine} (_scripts : string -> option ScriptProgram.t)
    (_routines : Z) (fuel : nat) (resRef : string) (callerId : Z) (p : Process)
    : outcome (option RunResult) :=
  if negb (callerId =? 0) then
    let '(v, p') := ofObject callerId p in
    a ← Argument_new ArgKind.Caller v;
    Ok (ScriptRunner_run _scripts _routines fuel resRef [a] p')
  else Ok (ScriptRunner_run _scripts _routines fuel resRef [] p).

(** The tags a handler of two scalar operands checks, as its
    [with...FromStack] helper names them: the first is the tag of the
    operand pushed first. *)
Definition operand_types (ty : InstructionType.t) : option (VariableType.t * VariableType.t) :=
  match ty with
  | InstructionType.LOGANDII | InstructionType.LOGORII | InstructionType.INCORII
  | InstructionType.EXCORII | InstructionType.BOOLANDII
  | InstructionType.EQUALII | InstructionType.NEQUALII
  | InstructionType.GEQII | InstructionType.GTII | InstructionType.LTII | InstructionType.LEQII
  | InstructionType.SHLEFTII | InstructionType.SHRIGHTII | InstructionType.USHRIGHTII
  | InstructionType.ADDII | InstructionType.SUBII | InstructionType.MULII
  | InstructionType.DIVII | InstructionType.MODII =>
      Some (VariableType.Int, VariableType.Int)
  | InstructionType.EQUALFF | InstructionType.NEQUALFF
  | InstructionType.GEQFF | InstructionType.GTFF | InstructionType.LTFF | InstructionType.LEQFF
  | InstructionType.ADDFF | InstructionType.SUBFF | InstructionType.MULFF
  | InstructionType.DIVFF =>
      Some (VariableType.Float, VariableType.Float)
  | InstructionType.ADDIF | InstructionType.SUBIF | InstructionType.MULIF
  | InstructionType.DIVIF =>
      Some (VariableType.Int, VariableType.Float)
  | InstructionType.ADDFI | InstructionType.SUBFI | InstructionType.MULFI
  | InstructionType.DIVFI =>
      Some (VariableType.Float, VariableType.Int)
  | InstructionType.EQUALSS | InstructionType.NEQUALSS | InstructionType.ADDSS =>
      Some (VariableType.String, VariableType.String)
  | InstructionType.EQUALOO | InstructionType.NEQUALOO =>
      Some (VariableType.Object, VariableType.Object)
  | InstructionType.EQUALEFFEFF | InstructionType.NEQUALEFFEFF =>
      Some (VariableType.Effect, VariableType.Effect)
  | InstructionType.EQUALEVTEVT | InstructionType.NEQUALEVTEVT =>
      Some (VariableType.Event, VariableType.Event)
  | InstructionType.EQUALLOCLOC | InstructionType.NEQUALLOCLOC =>
      Some (VariableType.Location, VariableType.Location)
  | InstructionType.EQUALTALTAL | InstructionType.NEQUALTALTAL =>
      Some (VariableType.Talent, VariableType.Talent)
  | _ => None
  end.

(** A native routine of two int parameters that returns their sum; its
    table lives at address 2. *)
Definition add_ints : Routine :=
  mkRoutine "add_ints" [VariableType.Int; VariableType.Int] VariableType.Int
    (fun args _ p =>
       match args with
       | [a; b] => Ok (ofInt (intValue a + intValue b) p)
       | _ => Throw invalid_argument
       end).

Definition arith_engine : Engine :=
  mkEngine 2130706432 0
    (fun addr => if addr =? 2 then Some (mkRoutines [add_ints]) else None).

(** A machine of that engine with the int 3 and, on top, the int 2. *)
Definition arith_machine : VirtualMachine :=
  set_stack [int_var 3; int_var 2]
    (VirtualMachine_new (Some add_program) (mkExecutionContext 2 None []) process0).

(** A machine with the globals 10 and 20 and the local 30, and a
    [STORE_STATE 8, 4] at offset 40. *)
Definition machine_with_globals : VirtualMachine :=
  set_globalCount 2
    (set_stack [int_var 10; int_var 20; int_var 30]
       (VirtualMachine_new (Some add_program) bare_context process0)).

Definition STORE_STATE_at_40 : Instruction.t :=
  Instruction.mk 40 InstructionType.STORE_STATE 56 8 0 0 0 4 0 0 0 Float32.zero EmptyString 0.

(** A parameter type the argument loop of [ACTION] pops as one variable. *)
Definition popped_as_is (ty : VariableType.t) : bool :=
  match ty with
  | VariableType.Vector | VariableType.Action => false
  | _ => true
  end.

(** What [toString] and [fromString] take from the standard library and
    from [boost::format]: the two number parsers, which throw when the
    text starts with no number, and the conversions [%u], [%d] and
    [%f]. *)
Class Conversions := mkConversions {
  stoul : string -> outcome Z;
  stoi : string -> outcome Z;
  format_u : Z -> string;
  format_d : Z -> string;
  format_f : Float32.t -> string
}.

(** The double quote, as a text. *)
Definition quote : string := String (ascii_of_nat 34) EmptyString.

(** [Variable::toString].  The [default] label is reached by no enumerator
    of [VariableType]. *)
Definition Variable_toString `{Conversions} (v : Var) : string :=
  let prefix := String.append "%" (String.append (format_u (id v)) ":") in
  match type v with
  | VariableType.Void => "void"
  | VariableType.Int => String.append prefix (format_d (intValue v))
  | VariableType.Float => String.append prefix (format_f (floatValue v))
  | VariableType.String =>
      String.append prefix (String.append quote (String.append (strValue v) quote))
  | VariableType.Object => String.append prefix (format_u (objectId v))
  | VariableType.Vector =>
      String.append prefix
        (String.append "["
           (String.append (format_f (glm.x (vecValue v)))
              (String.append ","
                 (String.append (format_f (glm.y (vecValue v)))
                    (String.append ","
                       (String.append (format_f (glm.z (vecValue v))) "]"))))))
  | VariableType.Effect => String.append prefix "effect"
  | VariableType.Event => String.append prefix "event"
  | VariableType.Location => String.append prefix "location"
  | VariableType.Talent => String.append prefix "talent"
  | VariableType.Action => String.append prefix "action"
  end.

(** [argKindToString].  The [throw] after the switch is reached by no
    enumerator of [ArgKind]. *)
Definition argKindToString (kind : ArgKind.t) : string :=
  match kind with
  | ArgKind.Caller => "Caller"
  | ArgKind.ScriptVar => "ScriptVar"
  | ArgKind.UserDefinedEventNumber => "UserDefinedEventNumber"
  | ArgKind.ClickingObject => "ClickingObject"
  | ArgKind.EnteringObject => "EnteringObject"
  | ArgKind.ExitingObject => "ExitingObject"
  | ArgKind.LastClosedBy => "LastClosedBy"
  | ArgKind.LastOpenedBy => "LastOpenedBy"
  | ArgKind.LastPerceived => "LastPerceived"
  | ArgKind.LastPerceptionHeard => "LastPerceptionHeard"
  | ArgKind.LastPerceptionInaudible => "LastPerceptionInaudible"
  | ArgKind.LastPerceptionSeen => "LastPerceptionSeen"
  | ArgKind.LastPerceptionVanished => "LastPerceptionVanished"
  end.

(** [Argument::toString] *)
Definition Argument_toString `{Conversions} (a : Argument) : string :=
  String.append (argKindToString (kind a)) (String.append ":" (Variable_toString (var a))).

(** [return {kind, Variable::ofObject(std::stoul(value))};] *)
Definition object_argument `{Engine} `{Conversions} (k : ArgKind.t) (value : string)
    (p : Process) : outcome (Argument * Process) :=
  n ← stoul value;
  let '(v, p') := ofObject n p in
  a ← Argument_new k v;
  Ok (a, p').

(** [return {kind, Variable::ofInt(std::stoi(value))};] *)
Definition int_argument `{Engine} `{Conversions} (k : ArgKind.t) (value : string)
    (p : Process) : outcome (Argument * Process) :=
  n ← stoi value;
  let '(v, p') := ofInt n p in
  a ← Argument_new k v;
  Ok (a, p').

(** [Argument::fromString] *)
Definition Argument_fromString `{Engine} `{Conversions} (str : string) (p : Process)
    : outcome (Argument * Process) :=
  match String.index 0 ":" str with
  | None => Throw invalid_argument
  | Some colon =>
      let value := String.substring (S colon) (String.length str - S colon) str in
      let kind := String.substring 0 colon str in
      if String.eqb kind "Caller" then object_argument ArgKind.Caller value p
      else if String.eqb kind "ScriptVar" then int_argument ArgKind.ScriptVar value p
      else if String.eqb kind "UserDefinedEventNumber"
      then int_argument ArgKind.UserDefinedEventNumber value p
      else if String.eqb kind "ClickingObject"
      then object_argument ArgKind.ClickingObject value p
      else if String.eqb kind "EnteringObject"
      then object_argument ArgKind.EnteringObject value p
      else if String.eqb kind "ExitingObject"
      then object_argument ArgKind.ExitingObject value p
      else if String.eqb kind "LastClosedBy"
      then object_argument ArgKind.LastClosedBy value p
      else if String.eqb kind "LastOpenedBy"
      then object_argument ArgKind.LastOpenedBy value p
      else if String.eqb kind "LastPerceived"
      then object_argument ArgKind.LastPerceived value p
      else if String.eqb kind "LastPerceptionHeard"
      then int_argument ArgKind.LastPerceptionHeard value p
      else if String.eqb kind "LastPerceptionInaudible"
      then int_argument ArgKind.LastPerceptionInaudible value p
      else if String.eqb kind "LastPerceptionSeen"
      then int_argument ArgKind.LastPerceptionSeen value p
      else if String.eqb kind "LastPerceptionVanished"
      then int_argument ArgKind.LastPerceptionVanished value p
      else Throw logic_error
  end.

(** The kinds [fromString] reads with [std::stoul] into an object; the
    others it reads with [std::stoi] into an int. *)
Definition parses_object (k : ArgKind.t) : bool :=
  match k with
  | ArgKind.Caller | ArgKind.ClickingObject | ArgKind.EnteringObject
  | ArgKind.ExitingObject | ArgKind.LastClosedBy | ArgKind.LastOpenedBy
  | ArgKind.LastPerceived => true
  | _ => false
  end.

(** A digit and its value. *)
Definition digit_value (c : ascii) : option Z :=
  let n := Z.of_nat (nat_of_ascii c) in
  if (48 <=? n) && (n <=? 57) then Some (n - 48) else None.

(** The number the leading digits of a text spell, after [acc]. *)
Fixpoint leading_digits (s : string) (acc : Z) : Z :=
  match s with
  | String c rest =>
      match digit_value c with
      | Some d => leading_digits rest (10 * acc + d)
      | None => acc
      end
  | EmptyString => acc
  end.

(** Conversions for the scenarios: a parser that reads the leading
    decimal digits of a text and throws [invalid_argument] when the text
    starts with none, and conversions to text that no scenario looks
    into. *)
Definition parse_digits (s : string) : outcome Z :=
  match s with
  | String c _ =>
      match digit_value c with
      | Some _ => Ok (leading_digits s 0)
      | None => Throw invalid_argument
      end
  | EmptyString => Throw invalid_argument
  end.

Definition scenario_conversions : Conversions :=
  mkConversions parse_digits parse_digits (fun _ => "0"%string) (fun _ => "0"%string)
    (fun _ => "0.000000"%string).

(** The loop [vars.push_back(Argument::fromString(...))] over the texts
    given. *)
Fixpoint parse_arguments `{Engine} `{Conversions} (texts : list string) (p : Process)
    : outcome (list Argument * Process) :=
  match texts with
  | [] => Ok ([], p)
  | text :: rest =>
      '(a, p1) ← Argument_fromString text p;
      '(vars, p2) ← parse_arguments rest p1;
      Ok (a :: vars, p2)
  end.

(** [Game::consoleRunScript], with [consoleCheckUsage].  [args] holds the
    texts of the console arguments: [args[0]] is the name of the command.
    The line the console prints at the end is left out; the result is the
    [int] it would print. *)
Definition Game_consoleRunScript `{Engine} `{Conversions}
    (_scripts : string -> option ScriptProgram.t) (_routines : Z) (fuel : nat)
    (args : list string) (p : Process) : outcome (option RunResult) :=
  let numArgs := as_uint64 (vsize args - 1) in
  if (numArgs <? 1) || (1024 <? numArgs) then Throw runtime_error
  else
    resRef ← at_ args 1;
    '(vars, p') ← parse_arguments (drop 1 args) p;
    Ok (ScriptRunner_run _scripts _routines fuel resRef vars p').

(** The opcode that tests for inequality what an opcode tests for
    equality, for every type but [float]. *)
Definition not_equal_opcode (ty : InstructionType.t) : option InstructionType.t :=
  match ty with
  | InstructionType.EQUALII => Some InstructionType.NEQUALII
  | InstructionType.EQUALSS => Some InstructionType.NEQUALSS
  | InstructionType.EQUALOO => Some InstructionType.NEQUALOO
  | InstructionType.EQUALTT => Some InstructionType.NEQUALTT
  | InstructionType.EQUALEFFEFF => Some InstructionType.NEQUALEFFEFF
  | InstructionType.EQUALEVTEVT => Some InstructionType.NEQUALEVTEVT
  | InstructionType.EQUALLOCLOC => Some InstructionType.NEQUALLOCLOC
  | InstructionType.EQUALTALTAL => Some InstructionType.NEQUALTALTAL
  | _ => None
  end.

(** Two outcomes that fail alike or are the same machine but for the
    variable pushed last, which is the int 1 in one where it is the int
    0 in the other: both are made by pushing onto one machine, so they
    agree in every member below the top of the stack. *)
Definition opposite_results (r1 r2 : outcome VirtualMachine) : Prop :=
  match r1, r2 with
  | Ok m1, Ok m2 =>
      exists (m' : VirtualMachine) (b : bool),
        m1 = push_int (Z_of_bool b) m' /\ m2 = push_int (Z_of_bool (negb b)) m'
  | Throw e1, Throw e2 => e1 = e2
  | Undefined, Undefined => True
  | _, _ => False
  end.

(** [INCISP -4]: add one to the top of the stack. *)
Definition INCISP_top : Instruction.t :=
  Instruction.mk 13 InstructionType.INCISP 19 0 (-4) 0 0 0 0 0 0 Float32.zero EmptyString 0.
(** * Properties *)

(** ** The vector operations *)

Lemma back_snoc {A : Type} (l : list A) (a : A) : back (l ++ [a]) = Ok a.
Proof. unfold back. by rewrite last_snoc. Qed.

Lemma pop_snoc (m : VirtualMachine) (s : list Var) (v : Var) :
  _stack m = s ++ [v] -> pop m = Ok (v, set_stack s m).
Proof.
  intros Hs. unfold pop. rewrite Hs, back_snoc. simpl.
  by rewrite removelast_last.
Qed.

Lemma vsize_app {A : Type} (l k : list A) : vsize (l ++ k) = vsize l + vsize k.
Proof. unfold vsize. rewrite length_app. lia. Qed.

Lemma vsize_nonneg {A : Type} (l : list A) : 0 <= vsize l.
Proof. unfold vsize. lia. Qed.

(** ** The loop of run() *)

Section Run.
Context `{Engine}.

Lemma run_loop_more_fuel (fuel : nat) :
  forall (p : ScriptProgram.t) (m : VirtualMachine) (insOff : Z) (r : RunResult) (fuel' : nat),
    run_loop fuel p m insOff = Some r ->
    (fuel <= fuel')%nat ->
    run_loop fuel' p m insOff = Some r.
Proof.
  induction fuel as [|fuel IH]; intros p m insOff r fuel' Hrun Hle.
  - destruct fuel'; simpl in *; destruct (insOff <? ScriptProgram.length p); congruence.
  - destruct fuel' as [|fuel']; [lia|].
    simpl in *. destruct (insOff <? ScriptProgram.length p); [|done].
    destruct (run_body p m insOff) as [m' off'|r']; [|done].
    apply IH with (fuel' := fuel') in Hrun; [done|lia].
Qed.

(** After [k] full passes the loop goes on from where they led. *)
Lemma run_loop_after_passes (k : nat) :
  forall (p : ScriptProgram.t) (m m' : VirtualMachine) (insOff insOff' : Z) (fuel : nat),
    passes k p m insOff = Some (m', insOff') ->
    run_loop (k + fuel) p m insOff = run_loop fuel p m' insOff'.
Proof.
  induction k as [|k IH]; intros p m m' insOff insOff' fuel Hk; simpl in Hk.
  - by inversion Hk.
  - simpl. destruct (insOff <? ScriptProgram.length p); [|done].
    destruct (run_body p m insOff) as [m1 off1|r]; [|done].
    by apply IH.
Qed.

Lemma run_loop_past_end (fuel : nat) (p : ScriptProgram.t) (m : VirtualMachine) (insOff : Z) :
  ScriptProgram.length p <= insOff ->
  run_loop fuel p m insOff = Some (Returned (run_epilogue m)).
Proof.
  intros Hend. destruct fuel; simpl;
    destruct (Z.ltb_spec insOff (ScriptProgram.length p)); (lia || done).
Qed.

Lemma run_epilogue_cases (m : VirtualMachine) :
  (exists top, last (_stack m) = Some top /\ type top = VariableType.Int /\
               run_epilogue m = intValue top) \/
  ((_stack m = [] \/ exists top, last (_stack m) = Some top /\ type top <> VariableType.Int) /\
   run_epilogue m = -1).
Proof.
  unfold run_epilogue. destruct (last (_stack m)) as [top|] eqn:Hlast.
  - destruct (type top) eqn:Hty; simpl;
      first [ left; exists top; by rewrite Hty
            | right; split; [right; exists top; split; [done|by rewrite Hty]|done] ].
  - right. split; [left; by apply last_None|done].
Qed.

End Run.

(** ** What run() returns *)

(** C1.  When the loop of [run()] ends because the cursor has reached or
    passed the length of the program, [run()] returns the [int] payload of
    the top of the final stack if that stack is not empty and its top is
    tagged [Int], and -1 otherwise.  The program
    [CONSTI 2; CONSTI 3; ADDII; RETN], run with no saved state and no
    arguments, returns 5. *)
Theorem run_returns_top_int_or_sentinel `{Engine} :
  (forall (m m1 m' : VirtualMachine) (p : ScriptProgram.t) (off off' : Z) (k fuel : nat),
     _program m = Some p ->
     run_prologue m = (m1, off) ->
     passes k p m1 off = Some (m', off') ->
     ScriptProgram.length p <= off' ->
     (k <= fuel)%nat ->
     exists value : Z,
       run fuel m = Some (Returned value) /\
       ((exists top, last (_stack m') = Some top /\
                     type top = VariableType.Int /\ value = intValue top) \/
        ((_stack m' = [] \/
          exists top, last (_stack m') = Some top /\ type top <> VariableType.Int) /\
         value = -1)))
  /\
  (forall (routines : Z) (p : Process) (fuel : nat),
     (4 <= fuel)%nat ->
     run fuel (VirtualMachine_new (Some add_program)
                 (mkExecutionContext routines None []) p) = Some (Returned 5)).
Proof.
  split.
  - intros m m1 m' p off off' k fuel Hp Hpro Hk Hend Hfuel.
    exists (run_epilogue m'). split.
    + unfold run. rewrite Hp, Hpro.
      replace fuel with (k + (fuel - k))%nat by lia.
      rewrite (run_loop_after_passes k p m1 m' off off' _ Hk).
      by apply run_loop_past_end.
    + destruct (run_epilogue_cases m') as [(top & ? & ? & ?)|[? ?]]; [left|right]; eauto.
  - intros routines [g h] fuel Hfuel.
    unfold run. simpl _program. cbv iota beta.
    change (run_prologue _) with
      (VirtualMachine_new (Some add_program) (mkExecutionContext routines None [])
         (mkProcess g h), kStartInstructionOffset).
    cbv iota beta.
    apply run_loop_more_fuel with (fuel := 4%nat); [|done].
    vm_compute. reflexivity.
Qed.

(** The add program reaches the end of its code after four passes. *)
Lemma run_returns_top_int_or_sentinel_witness :
  exists value : Z,
    @run scenario_engine 4 (VirtualMachine_new (Some add_program) bare_context process0)
      = Some (Returned value) /\
    value = 5.
Proof.
  destruct (proj1 (@run_returns_top_int_or_sentinel scenario_engine)
              (VirtualMachine_new (Some add_program) bare_context process0)
              (VirtualMachine_new (Some add_program) bare_context process0)
              (set_nextInstruction 29
                 (set_process (mkProcess 3 0)
                    (set_stack [fst (ofInt 5 (mkProcess 2 0))]
                       (VirtualMachine_new (Some add_program) bare_context process0))))
              add_program 13 29 4%nat 4%nat
              eq_refl eq_refl eq_refl ltac:(vm_compute; congruence) ltac:(lia))
    as (value & Hrun & Hvalue).
  exists value. split; [exact Hrun|].
  destruct Hvalue as [(top & Htop & _ & ->)|[[Hnil|(top & Htop & Hty)] _]].
  - vm_compute in Htop. by inversion Htop.
  - discriminate Hnil.
  - vm_compute in Htop. inversion Htop; subst. by contradict Hty.
Defined.

(** ** Failures inside the loop *)

(** C3.  If the instruction decoded at the cursor has no registered handler,
    or its handler raises an error, [run()] stops in that very pass and
    returns -1; the error does not reach the caller.  A program whose first
    instruction has an unrecognised opcode returns -1. *)
Theorem run_returns_sentinel_on_failed_step `{Engine} :
  (forall (m m1 m' : VirtualMachine) (p : ScriptProgram.t) (off off' : Z)
          (ins : Instruction.t) (k fuel : nat),
     _program m = Some p ->
     run_prologue m = (m1, off) ->
     passes k p m1 off = Some (m', off') ->
     off' < ScriptProgram.length p ->
     ScriptProgram.getInstruction p off' = Some ins ->
     (find_handler (Instruction.type ins) = None \/
      exists handler e,
        find_handler (Instruction.type ins) = Some handler /\
        handler ins (set_nextInstruction (Instruction.nextOffset ins) m') = Throw e) ->
     (k < fuel)%nat ->
     run fuel m = Some (Returned (-1)))
  /\
  (forall (routines : Z) (p : Process) (fuel : nat),
     (1 <= fuel)%nat ->
     run fuel (VirtualMachine_new (Some unknown_opcode_program)
                 (mkExecutionContext routines None []) p) = Some (Returned (-1))).
Proof.
  split.
  - intros m m1 m' p off off' ins k fuel Hp Hpro Hk Hlt Hins Hfail Hfuel.
    unfold run. rewrite Hp, Hpro.
    replace fuel with (k + S (fuel - S k))%nat by lia.
    rewrite (run_loop_after_passes k p m1 m' off off' _ Hk).
    simpl. destruct (Z.ltb_spec off' (ScriptProgram.length p)); [|lia].
    unfold run_body. rewrite Hins.
    destruct Hfail as [Hnone|(handler & e & Hsome & Hthrow)].
    + by rewrite Hnone.
    + by rewrite Hsome, Hthrow.
  - intros routines p fuel Hfuel.
    destruct fuel as [|fuel]; [lia|]. reflexivity.
Qed.

(** [CONSTF 0.0; JZ]: the second pass meets a handler that throws. *)
Lemma run_returns_sentinel_on_failed_step_witness :
  @run scenario_engine 2 (VirtualMachine_new (Some type_error_program) bare_context process0)
    = Some (Returned (-1)).
Proof.
  refine (proj1 (@run_returns_sentinel_on_failed_step scenario_engine)
            (VirtualMachine_new (Some type_error_program) bare_context process0)
            (VirtualMachine_new (Some type_error_program) bare_context process0)
            (set_nextInstruction 19
               (push_new (ofFloat Float32.zero)
                  (VirtualMachine_new (Some type_error_program) bare_context process0)))
            type_error_program 13 19
            (Instruction.mk 19 InstructionType.JZ 25 0 0 6 0 0 0 0 0 Float32.zero EmptyString 0)
            1%nat 2%nat eq_refl eq_refl eq_refl _ eq_refl _ _).
  - vm_compute. reflexivity.
  - right. exists executeJZ, runtime_error. split; reflexivity.
  - lia.
Defined.

(** ** Saved state *)

Lemma at_lookup {A : Type} (l : list A) (i : Z) (a : A) :
  0 <= i -> l !! Z.to_nat i = Some a -> at_ l i = Ok a.
Proof.
  intros Hi Hl. unfold at_. destruct (Z.leb_spec 0 i); [|lia]. by rewrite Hl.
Qed.

Lemma at_in_range {A : Type} (l : list A) (i : Z) :
  0 <= i < vsize l -> exists a, l !! Z.to_nat i = Some a /\ at_ l i = Ok a.
Proof.
  intros Hi. unfold vsize in Hi.
  destruct (lookup_lt_is_Some_2 l (Z.to_nat i)) as [a Ha]; [lia|].
  exists a. split; [done|]. apply at_lookup; [lia|done].
Qed.

(** Reading [count] entries from [src] on gives that slice of the vector. *)
Lemma read_run_slice {A : Type} (l : list A) (count : nat) :
  forall src : Z,
    0 <= src -> src + Z.of_nat count <= vsize l ->
    read_run l src count = Ok (take count (drop (Z.to_nat src) l)).
Proof.
  induction count as [|count IH]; intros src Hsrc Hend.
  - by rewrite take_0.
  - destruct (at_in_range l src) as (a & Hl & Hat); [lia|].
    simpl. rewrite Hat. simpl.
    rewrite IH by lia. simpl.
    rewrite (drop_S l a (Z.to_nat src) Hl). simpl.
    by replace (Z.to_nat (src + 1)) with (S (Z.to_nat src)) by lia.
Qed.



(** ** Stack-region copies *)

Lemma assign_length {A : Type} (l l' : list A) (i : Z) (a : A) :
  assign l i a = Ok l' -> vsize l' = vsize l.
Proof.
  unfold assign. destruct (_ && _); [|done].
  intros [= <-]. unfold vsize. by rewrite length_insert.
Qed.

Lemma assign_in_range {A : Type} (l : list A) (i : Z) (a : A) :
  0 <= i < vsize l -> assign l i a = Ok (<[Z.to_nat i := a]> l).
Proof.
  intros Hi. unfold assign.
  destruct (Z.leb_spec 0 i); [|lia]. destruct (Z.ltb_spec i (vsize l)); [done|lia].
Qed.

Lemma copy_within_length {A : Type} (count : nat) :
  forall (l l' : list A) (dst src : Z),
    copy_within l dst src count = Ok l' -> vsize l' = vsize l.
Proof.
  induction count as [|count IH]; intros l l' dst src Hcopy; simpl in Hcopy.
  - by inversion Hcopy.
  - destruct (at_ l src) as [a| |]; simpl in Hcopy; try done.
    destruct (assign l dst a) as [l1| |] eqn:Hassign; simpl in Hcopy; try done.
    apply IH in Hcopy. apply assign_length in Hassign. lia.
Qed.

Lemma copy_within_defined {A : Type} (count : nat) :
  forall (l : list A) (dst src : Z),
    0 <= dst -> dst + Z.of_nat count <= vsize l ->
    0 <= src -> src + Z.of_nat count <= vsize l ->
    exists l', copy_within l dst src count = Ok l'.
Proof.
  induction count as [|count IH]; intros l dst src Hdst Hdend Hsrc Hsend; simpl.
  - by eexists.
  - destruct (at_in_range l src) as (a & _ & ->); [lia|]. simpl.
    rewrite assign_in_range by lia. simpl.
    apply IH; try lia; unfold vsize in *; rewrite length_insert; lia.
Qed.

Lemma copy_to_top_length {A : Type} (count : nat) :
  forall (l l' : list A) (src : Z),
    copy_to_top l src count = Ok l' -> vsize l' = vsize l + Z.of_nat count.
Proof.
  induction count as [|count IH]; intros l l' src Hcopy; simpl in Hcopy.
  - inversion Hcopy. lia.
  - destruct (at_ l src) as [a| |]; simpl in Hcopy; try done.
    apply IH in Hcopy. rewrite vsize_app in Hcopy. unfold vsize in *. simpl in *. lia.
Qed.

Lemma copy_to_top_defined {A : Type} (count : nat) :
  forall (l : list A) (src : Z),
    0 <= src < vsize l ->
    exists l', copy_to_top l src count = Ok l'.
Proof.
  induction count as [|count IH]; intros l src Hsrc; simpl.
  - by eexists.
  - destruct (at_in_range l src) as (a & _ & ->); [lia|]. simpl.
    apply IH. rewrite vsize_app. unfold vsize in *. simpl. lia.
Qed.

(** C4, as the code has it.  [CPDOWNSP] and [CPDOWNBP] assign inside the
    stack and leave its size unchanged, for every stack and every encoded
    size and offset; [CPTOPSP] and [CPTOPBP] push the copies and grow the
    stack by [size/4] entries.  Each of the four is defined whenever the
    region it reads and the region it writes lie inside the stack. *)
Theorem copy_instructions_stack_size :
  (forall ins m m',
     executeCPDOWNSP ins m = Ok m' -> vsize (_stack m') = vsize (_stack m)) /\
  (forall ins m m',
     executeCPDOWNBP ins m = Ok m' -> vsize (_stack m') = vsize (_stack m)) /\
  (forall ins m m',
     executeCPTOPSP ins m = Ok m' ->
     vsize (_stack m') = vsize (_stack m) + Z.max 0 (Z.quot (Instruction.size ins) 4)) /\
  (forall ins m m',
     executeCPTOPBP ins m = Ok m' ->
     vsize (_stack m') = vsize (_stack m) + Z.max 0 (Z.quot (Instruction.size ins) 4)) /\
  (forall ins m,
     let count := Z.quot (Instruction.size ins) 4 in
     let dstIdx := vsize (_stack m) + Z.quot (Instruction.stackOffset ins) 4 in
     0 <= count <= vsize (_stack m) ->
     0 <= dstIdx -> dstIdx + count <= vsize (_stack m) ->
     exists m', executeCPDOWNSP ins m = Ok m') /\
  (forall ins m,
     let count := Z.quot (Instruction.size ins) 4 in
     let dstIdx := _globalCount m + Z.quot (Instruction.stackOffset ins) 4 in
     0 <= count <= vsize (_stack m) ->
     0 <= dstIdx -> dstIdx + count <= vsize (_stack m) ->
     exists m', executeCPDOWNBP ins m = Ok m') /\
  (forall ins m,
     let srcIdx := vsize (_stack m) + Z.quot (Instruction.stackOffset ins) 4 in
     0 <= srcIdx < vsize (_stack m) ->
     exists m', executeCPTOPSP ins m = Ok m') /\
  (forall ins m,
     let srcIdx := _globalCount m + Z.quot (Instruction.stackOffset ins) 4 in
     0 <= srcIdx < vsize (_stack m) ->
     exists m', executeCPTOPBP ins m = Ok m').
Proof.
  repeat split.
  - intros ins m m'. unfold executeCPDOWNSP.
    destruct (copy_within _ _ _ _) as [s| |] eqn:Hcopy; simpl; try done.
    intros [= <-]. simpl. by apply copy_within_length in Hcopy.
  - intros ins m m'. unfold executeCPDOWNBP.
    destruct (copy_within _ _ _ _) as [s| |] eqn:Hcopy; simpl; try done.
    intros [= <-]. simpl. by apply copy_within_length in Hcopy.
  - intros ins m m'. unfold executeCPTOPSP.
    destruct (copy_to_top _ _ _) as [s| |] eqn:Hcopy; simpl; try done.
    intros [= <-]. simpl. apply copy_to_top_length in Hcopy. lia.
  - intros ins m m'. unfold executeCPTOPBP.
    destruct (copy_to_top _ _ _) as [s| |] eqn:Hcopy; simpl; try done.
    intros [= <-]. simpl. apply copy_to_top_length in Hcopy. lia.
  - intros ins m count dstIdx Hcount Hdst Hdend. unfold executeCPDOWNSP.
    fold count. fold dstIdx.
    destruct (copy_within_defined (Z.to_nat count) (_stack m) dstIdx (vsize (_stack m) - count))
      as [s ->]; try lia.
    by eexists.
  - intros ins m count dstIdx Hcount Hdst Hdend. unfold executeCPDOWNBP.
    fold count. fold dstIdx.
    destruct (copy_within_defined (Z.to_nat count) (_stack m) dstIdx (vsize (_stack m) - count))
      as [s ->]; try lia.
    by eexists.
  - intros ins m srcIdx Hsrc. unfold executeCPTOPSP. fold srcIdx.
    destruct (copy_to_top_defined (Z.to_nat (Z.quot (Instruction.size ins) 4)) (_stack m) srcIdx)
      as [s ->]; [lia|].
    by eexists.
  - intros ins m srcIdx Hsrc. unfold executeCPTOPBP. fold srcIdx.
    destruct (copy_to_top_defined (Z.to_nat (Z.quot (Instruction.size ins) 4)) (_stack m) srcIdx)
      as [s ->]; [lia|].
    by eexists.
Qed.

(** [CPTOPSP -4, 4] on the stack that holds the one [int] 7. *)
Lemma copy_instructions_stack_size_witness :
  (exists m', executeCPTOPSP CPTOPSP_top machine_with_7 = Ok m' /\
              vsize (_stack m') = vsize (_stack machine_with_7) + 1) /\
  (exists m', executeCPDOWNSP CPDOWNSP_top (push_back ofNull machine_with_7) = Ok m' /\
              vsize (_stack m') = vsize (_stack (push_back ofNull machine_with_7))).
Proof.
  pose proof copy_instructions_stack_size
    as (Hdown & _ & Htop & _ & Hdown_def & _ & Htop_def & _).
  split.
  - destruct (Htop_def CPTOPSP_top machine_with_7) as [m' Hm'].
    { vm_compute. split; congruence. }
    exists m'. split; [exact Hm'|]. exact (Htop _ _ _ Hm').
  - destruct (Hdown_def CPDOWNSP_top (push_back ofNull machine_with_7)) as [m' Hm'].
    { vm_compute. split; congruence. }
    { vm_compute. congruence. }
    { vm_compute. congruence. }
    exists m'. split; [exact Hm'|]. exact (Hdown _ _ _ Hm').
Defined.

(** C4 as the design document words it fails: [CPTOPSP -4, 4] run on a
    stack of one variable leaves a stack of two. *)
Lemma CPTOPSP_changes_stack_size :
  _stack machine_with_7 = [int_var 7] /\
  executeCPTOPSP CPTOPSP_top machine_with_7 =
    Ok (set_stack [int_var 7; int_var 7] machine_with_7) /\
  ~ (forall ins m m',
       executeCPTOPSP ins m = Ok m' -> vsize (_stack m') = vsize (_stack m)).
Proof.
  split; [reflexivity|]. split; [reflexivity|].
  intros Hclaim.
  specialize (Hclaim CPTOPSP_top machine_with_7 _ eq_refl).
  vm_compute in Hclaim. discriminate.
Qed.

(** ** Continuation re-binding *)

Lemma ArgKind_eqb_eq (a b : ArgKind.t) : ArgKind.eqb a b = true <-> a = b.
Proof. destruct a, b; simpl; split; congruence. Qed.

Lemma overwrite_caller_first (actorId : Z) (l : list Argument) :
  forall (i : nat) (caller : Argument),
    l !! i = Some caller ->
    kind caller = ArgKind.Caller ->
    (forall j other, (j < i)%nat -> l !! j = Some other -> kind other <> ArgKind.Caller) ->
    overwrite_caller actorId l =
      Some (<[i := mkArgument ArgKind.Caller (set_objectId (var caller) actorId)]> l).
Proof.
  induction l as [|arg rest IH]; intros i caller Hi Hkind Hfirst; [done|].
  destruct i as [|i]; simpl in *.
  - inversion Hi; subst arg. rewrite Hkind. reflexivity.
  - destruct (ArgKind.eqb (kind arg) ArgKind.Caller) eqn:Heq.
    + apply ArgKind_eqb_eq in Heq. by destruct (Hfirst 0%nat arg ltac:(lia) eq_refl).
    + rewrite (IH i caller Hi Hkind); [done|].
      intros j other Hj Hother. apply (Hfirst (S j) other); [lia|done].
Qed.

Lemma overwrite_caller_absent (actorId : Z) (l : list Argument) :
  (forall other, other ∈ l -> kind other <> ArgKind.Caller) ->
  overwrite_caller actorId l = None.
Proof.
  induction l as [|arg rest IH]; intros Hnone; [done|]. simpl.
  destruct (ArgKind.eqb (kind arg) ArgKind.Caller) eqn:Heq.
  - apply ArgKind_eqb_eq in Heq. destruct (Hnone arg); [left|done].
  - rewrite IH; [done|]. intros other Hin. apply Hnone. by right.
Qed.

(** C5.  [DoCommandAction::execute] copies the captured context and, in
    the copy, overwrites the object id of the first [Caller] argument with
    the id of the actor, or appends a [Caller] argument for the actor when
    there is none; every other argument keeps its kind and its variable.
    The machine it runs is constructed from that context. *)
Theorem DoCommand_rebinds_caller `{Engine} :
  forall (actionToDo : ExecutionContext) (actorId : Z) (p : Process),
    0 <= actorId < 2 ^ 32 ->
    (forall (i : nat) (caller : Argument),
       args actionToDo !! i = Some caller ->
       kind caller = ArgKind.Caller ->
       (forall j other, (j < i)%nat -> args actionToDo !! j = Some other ->
                        kind other <> ArgKind.Caller) ->
       exists (ctx : ExecutionContext) (caller' : Argument),
         rebind_caller actionToDo actorId p = Ok (ctx, p) /\
         routines ctx = routines actionToDo /\
         savedState ctx = savedState actionToDo /\
         List.length (args ctx) = List.length (args actionToDo) /\
         args ctx !! i = Some caller' /\
         kind caller' = ArgKind.Caller /\
         objectId (var caller') = actorId /\
         type (var caller') = type (var caller) /\
         (forall j, j <> i -> args ctx !! j = args actionToDo !! j))
    /\
    ((forall other, other ∈ args actionToDo -> kind other <> ArgKind.Caller) ->
     actorId <> kObjectSelf ->
     exists (ctx : ExecutionContext) (p' : Process) (caller' : Argument),
       rebind_caller actionToDo actorId p = Ok (ctx, p') /\
       routines ctx = routines actionToDo /\
       savedState ctx = savedState actionToDo /\
       args ctx = args actionToDo ++ [caller'] /\
       kind caller' = ArgKind.Caller /\
       type (var caller') = VariableType.Object /\
       objectId (var caller') = actorId)
    /\
    (forall (fuel : nat) (st : ExecutionState) (ctx : ExecutionContext) (p' : Process),
       savedState actionToDo = Some st ->
       rebind_caller actionToDo actorId p = Ok (ctx, p') ->
       DoCommandAction_execute fuel actionToDo actorId p =
         Ok (run fuel (VirtualMachine_new (program st) ctx p'))).
Proof.
  intros actionToDo actorId p Hactor.
  assert (Hid : as_uint32 actorId = actorId) by (apply Z.mod_small; lia).
  repeat split.
  - intros i caller Hi Hkind Hfirst.
    unfold rebind_caller.
    rewrite (overwrite_caller_first actorId _ i caller Hi Hkind Hfirst).
    assert (Hlt : (i < List.length (args actionToDo))%nat) by (by eapply lookup_lt_Some).
    do 2 eexists. split; [reflexivity|]. simpl.
    split; [done|]. split; [done|].
    split; [by rewrite length_insert|].
    split; [by apply list_lookup_insert_eq|].
    split; [done|]. split; [exact Hid|]. split; [done|].
    intros j Hj. by apply list_lookup_insert_ne.
  - intros Hnone Hself.
    unfold rebind_caller. rewrite (overwrite_caller_absent actorId _ Hnone).
    unfold ofObject, Argument_new, verify. simpl.
    unfold objectId. simpl. rewrite Hid.
    destruct (Z.eqb_spec actorId kObjectSelf); [done|]. simpl.
    do 3 eexists. split; [reflexivity|]. done.
  - intros fuel st ctx p' Hst Hctx.
    unfold DoCommandAction_execute. rewrite Hctx. simpl. by rewrite Hst.
Qed.

(** The door scenario: [Caller = Object(5)] is re-bound to actor 9 and
    [LastOpenedBy = Object(7)] stays as it was. *)
Lemma DoCommand_rebinds_caller_witness :
  exists (ctx : ExecutionContext) (caller' : Argument),
    @rebind_caller scenario_engine door_context 9 process0 = Ok (ctx, process0) /\
    args ctx !! 1%nat = Some caller' /\
    kind caller' = ArgKind.Caller /\
    objectId (var caller') = 9 /\
    args ctx !! 0%nat = args door_context !! 0%nat.
Proof.
  destruct (proj1 (@DoCommand_rebinds_caller scenario_engine door_context 9 process0
                     ltac:(vm_compute; split; congruence))
              1%nat (mkArgument ArgKind.Caller (fst (ofObject 5 process0)))
              eq_refl eq_refl)
    as (ctx & caller' & Hctx & _ & _ & _ & Hat & Hkind & Hid & _ & Hothers).
  { intros j other Hj Hother. destruct j as [|j]; [|lia].
    inversion Hother; subst other. discriminate. }
  exists ctx, caller'. repeat split; try assumption.
  apply Hothers. lia.
Defined.

(** ** Handlers of two operands *)

Lemma VariableType_eqb_refl (t : VariableType.t) : VariableType.eqb t t = true.
Proof. by destruct t. Qed.

Lemma throwIfInvalidType_same (t : VariableType.t) : throwIfInvalidType t t = Ok ().
Proof. unfold throwIfInvalidType. by rewrite VariableType_eqb_refl. Qed.

Lemma withStackVariables_two (fn : Var -> Var -> VirtualMachine -> outcome VirtualMachine)
    (m : VirtualMachine) (rest : list Var) (a b : Var) :
  _stack m = rest ++ [a; b] ->
  withStackVariables fn m = fn a b (set_stack rest m).
Proof.
  intros Hs. unfold withStackVariables.
  rewrite (pop_snoc m (rest ++ [a]) b) by (by rewrite Hs, <- app_assoc). simpl.
  by rewrite (pop_snoc _ rest a).
Qed.

Lemma withTyped_two {A B : Type} (ty1 : VariableType.t) (get1 : Var -> A)
    (ty2 : VariableType.t) (get2 : Var -> B)
    (fn : A -> B -> VirtualMachine -> outcome VirtualMachine)
    (m : VirtualMachine) (rest : list Var) (a b : Var) :
  _stack m = rest ++ [a; b] ->
  type a = ty1 -> type b = ty2 ->
  withTyped ty1 get1 ty2 get2 fn m = fn (get1 a) (get2 b) (set_stack rest m).
Proof.
  intros Hs <- <-. unfold withTyped.
  rewrite (withStackVariables_two _ m rest a b Hs).
  by rewrite !throwIfInvalidType_same.
Qed.

Lemma intValue_range (v : Var) : INT_MIN <= intValue v <= INT_MAX.
Proof.
  unfold intValue, as_int32, INT_MIN, INT_MAX.
  pose proof (Z.mod_pos_bound (word v + 2 ^ 31) (2 ^ 32) ltac:(lia)). lia.
Qed.

Lemma int_result_in_range (z : Z) : INT_MIN <= z <= INT_MAX -> int_result z = Ok z.
Proof.
  intros Hz. unfold int_result.
  destruct (Z.leb_spec INT_MIN z); [|lia]. destruct (Z.leb_spec z INT_MAX); [done|lia].
Qed.



(** ** Shift right *)




(** ** The bit pattern of a float *)

Lemma digits2_pos_bounds (m : positive) :
  2 ^ (Z.pos (digits2_pos m) - 1) <= Z.pos m < 2 ^ Z.pos (digits2_pos m).
Proof.
  induction m as [m IH|m IH|]; simpl digits2_pos.
  - rewrite Pos2Z.inj_succ.
    replace (Z.succ (Z.pos (digits2_pos m)) - 1) with (Z.succ (Z.pos (digits2_pos m) - 1)) by lia.
    rewrite !Z.pow_succ_r by lia. lia.
  - rewrite Pos2Z.inj_succ.
    replace (Z.succ (Z.pos (digits2_pos m)) - 1) with (Z.succ (Z.pos (digits2_pos m) - 1)) by lia.
    rewrite !Z.pow_succ_r by lia. lia.
  - simpl. lia.
Qed.

Lemma valid_finite_cases (s : bool) (m : positive) (e : Z) :
  Float32.valid (S754_finite s m e) = true ->
  (Z.pos m < 2 ^ 23 /\ e = -149) \/
  (2 ^ 23 <= Z.pos m < 2 ^ 24 /\ -149 <= e <= 104).
Proof.
  unfold Float32.valid, valid_binary, bounded, canonical_mantissa, fexp, emin,
    Float32.prec, Float32.emax.
  intros Hv. apply andb_true_iff in Hv as [Hc He].
  apply Z.eqb_eq in Hc. apply Z.leb_le in He.
  pose proof (digits2_pos_bounds m) as [Hlo Hhi].
  destruct (Z_lt_le_dec (Z.pos m) (2 ^ 23)) as [Hsub|Hnorm].
  - left. split; [done|].
    assert (Z.pos (digits2_pos m) <= 23).
    { destruct (Z_le_gt_dec (Z.pos (digits2_pos m)) 23); [done|].
      assert (2 ^ 23 <= 2 ^ (Z.pos (digits2_pos m) - 1)) by (apply Z.pow_le_mono_r; lia).
      lia. }
    lia.
  - right.
    assert (24 <= Z.pos (digits2_pos m)).
    { destruct (Z_le_gt_dec 24 (Z.pos (digits2_pos m))); [done|].
      assert (2 ^ Z.pos (digits2_pos m) <= 2 ^ 23) by (apply Z.pow_le_mono_r; lia).
      lia. }
    assert (Z.pos (digits2_pos m) = 24) by lia.
    split; [|lia]. split; [done|]. replace 24 with (Z.pos (digits2_pos m)) by done. done.
Qed.

Lemma of_bits_to_bits (f : Float32.t) :
  Float32.valid f = true -> Float32.of_bits (Float32.to_bits f) = f.
Proof.
  destruct f as [s|s| |s m e]; intros Hv.
  - by destruct s.
  - by destruct s.
  - done.
  - apply valid_finite_cases in Hv.
    unfold Float32.to_bits, Float32.of_bits, Float32.sign_bit.
    change (2 ^ 23) with 8388608 in *. change (2 ^ 24) with 16777216 in *.
    change (2 ^ 31) with 2147483648. change (2 ^ 8) with 256.
    destruct Hv as [[Hm ->]|[Hm He]].
    + destruct (Z.ltb_spec (Z.pos m) 8388608); [|lia].
      set (w := (if s then 2147483648 else 0) + Z.pos m).
      assert (Hmant : w mod 8388608 = Z.pos m).
      { subst w. destruct s; Z.to_euclidean_division_equations; lia. }
      assert (Hex : (w / 8388608) mod 256 = 0).
      { subst w. destruct s; Z.to_euclidean_division_equations; lia. }
      assert (Hs : (2147483648 <=? w) = s).
      { subst w. destruct s; [apply Z.leb_le|apply Z.leb_gt]; lia. }
      rewrite Hex, Hmant, Hs. simpl.
      destruct (Z.eqb_spec (Z.pos m) 0); [lia|]. done.
    + destruct (Z.ltb_spec (Z.pos m) 8388608); [lia|].
      set (w := (if s then 2147483648 else 0) + (e + 150) * 8388608 + (Z.pos m - 8388608)).
      assert (Hmant : w mod 8388608 = Z.pos m - 8388608).
      { subst w. destruct s; Z.to_euclidean_division_equations; lia. }
      assert (Hex : (w / 8388608) mod 256 = e + 150).
      { subst w. destruct s; Z.to_euclidean_division_equations; lia. }
      assert (Hs : (2147483648 <=? w) = s).
      { subst w. destruct s; [apply Z.leb_le|apply Z.leb_gt]; lia. }
      rewrite Hex, Hmant, Hs.
      destruct (Z.eqb_spec (e + 150) 0); [lia|].
      destruct (Z.eqb_spec (e + 150) 255); [lia|].
      f_equal; [|lia].
      replace (Z.pos m - 8388608 + 8388608) with (Z.pos m) by lia. done.
Qed.

Lemma floatValue_ofFloat (f : Float32.t) (p : Process) :
  Float32.valid f = true -> floatValue (fst (ofFloat f p)) = f.
Proof. intros Hv. unfold floatValue. simpl. by apply of_bits_to_bits. Qed.

(** ** Rounding and the range of float

    The exponent a rounded result ends with, followed through
    [binary_round_aux]: a mantissa and exponent whose magnitude is below
    2^127 round to a finite value. *)
















(** ** Float division and comparison *)

(** [kFloatTolerance] is a binary32 value, and no binary32 value is nearer
    to 1/100000: its mantissa at exponent -40 is within half a unit of
    [2^40 / 100000]. *)
Lemma kFloatTolerance_is_1e_5 :
  Float32.valid kFloatTolerance = true /\
  kFloatTolerance = S754_finite false 10995116 (-40) /\
  2 * Z.abs (10995116 * 100000 - 2 ^ 40) < 100000.
Proof. repeat split. Qed.








(** ** Construction of an Argument *)

Lemma VariableType_eqb_eq (a b : VariableType.t) : VariableType.eqb a b = true <-> a = b.
Proof. destruct a, b; simpl; split; congruence. Qed.

(** Membership in a list that is written out. *)
Ltac in_list := apply list_elem_of_In; simpl; tauto.
Ltac not_in_list H := apply list_elem_of_In in H; simpl in H; intuition discriminate.

Lemma kinds_partition (k : ArgKind.t) :
  (k ∈ object_kinds /\ k ∉ numeric_kinds) \/ (k ∈ numeric_kinds /\ k ∉ object_kinds).
Proof.
  unfold object_kinds, numeric_kinds.
  destruct k;
    first [ left; split; [in_list|intros Hin; not_in_list Hin]
          | right; split; [in_list|intros Hin; not_in_list Hin] ].
Qed.

Lemma verify_object_kind `{Engine} (k : ArgKind.t) (v : Var) :
  k ∈ object_kinds ->
  verify (mkArgument k v) =
    if negb (VariableType.eqb (type v) VariableType.Object) || (objectId v =? kObjectSelf)
    then Throw invalid_argument else Ok ().
Proof.
  unfold object_kinds. intros Hk. destruct k; try reflexivity; exfalso; not_in_list Hk.
Qed.

Lemma verify_numeric_kind `{Engine} (k : ArgKind.t) (v : Var) :
  k ∈ numeric_kinds ->
  verify (mkArgument k v) =
    if negb (VariableType.eqb (type v) VariableType.Int)
    then Throw invalid_argument else Ok ().
Proof.
  unfold numeric_kinds. intros Hk. destruct k; try reflexivity; exfalso; not_in_list Hk.
Qed.

(** C9.  The constructor of [Argument] throws [std::invalid_argument]
    exactly when the pairing of kind and variable is violated: an argument
    of an object kind must hold a variable tagged [Object] whose id is not
    the self sentinel, one of a numeric kind a variable tagged [Int].  A
    rightly paired argument is constructed, and the check is part of the
    constructor: no machine is involved. *)
Theorem Argument_constructor_checks_pairing `{Engine} :
  forall (k : ArgKind.t) (v : Var),
    (pairing_respected k v -> Argument_new k v = Ok (mkArgument k v)) /\
    (~ pairing_respected k v -> Argument_new k v = Throw invalid_argument) /\
    (Argument_new k v = Throw invalid_argument <-> ~ pairing_respected k v) /\
    (k ∈ object_kinds \/ k ∈ numeric_kinds).
Proof.
  intros k v.
  assert (Hdec : (pairing_respected k v /\ Argument_new k v = Ok (mkArgument k v)) \/
                 (~ pairing_respected k v /\ Argument_new k v = Throw invalid_argument)).
  { unfold Argument_new, pairing_respected.
    destruct (kinds_partition k) as [[Hobj Hnum]|[Hnum Hobj]].
    - rewrite (verify_object_kind k v Hobj).
      destruct (VariableType.eqb (type v) VariableType.Object) eqn:Hty; simpl.
      + apply VariableType_eqb_eq in Hty.
        destruct (Z.eqb_spec (objectId v) kObjectSelf) as [Hself|Hself]; simpl.
        * right. split; [|done]. intros [Hpair _]. by destruct (Hpair Hobj).
        * left. split; [|done]. split; [done|]. intros Hin. by destruct Hnum.
      + right. split; [|done]. intros [Hpair _].
        destruct (Hpair Hobj) as [Hty' _].
        apply VariableType_eqb_eq in Hty'. congruence.
    - rewrite (verify_numeric_kind k v Hnum).
      destruct (VariableType.eqb (type v) VariableType.Int) eqn:Hty; simpl.
      + apply VariableType_eqb_eq in Hty.
        left. split; [|done]. split; [|done]. intros Hin. by destruct Hobj.
      + right. split; [|done]. intros [_ Hpair].
        specialize (Hpair Hnum). apply VariableType_eqb_eq in Hpair. congruence. }
  repeat split.
  - intros Hpair. destruct Hdec as [[_ ->]|[Hnot _]]; [done|by destruct Hnot].
  - intros Hnot. destruct Hdec as [[Hpair _]|[_ ->]]; [by destruct Hnot|done].
  - intros Hthrow Hpair. destruct Hdec as [[_ Hok]|[Hnot _]]; [congruence|by destruct Hnot].
  - intros Hnot. destruct Hdec as [[Hpair _]|[_ ->]]; [by destruct Hnot|done].
  - destruct (kinds_partition k) as [[? _]|[? _]]; [by left|by right].
Qed.

(** [Caller] with the object 5 is constructed; [Caller] with the self
    sentinel and [ScriptVar] with an object are refused. *)
Lemma Argument_constructor_checks_pairing_witness :
  @Argument_new scenario_engine ArgKind.Caller (fst (ofObject 5 process0)) =
    Ok (mkArgument ArgKind.Caller (fst (ofObject 5 process0))) /\
  @Argument_new scenario_engine ArgKind.Caller (fst (ofObject 2130706432 process0)) =
    Throw invalid_argument /\
  @Argument_new scenario_engine ArgKind.ScriptVar (fst (ofObject 5 process0)) =
    Throw invalid_argument.
Proof.
  split; [|split].
  - apply (proj1 (@Argument_constructor_checks_pairing scenario_engine
                    ArgKind.Caller (fst (ofObject 5 process0)))).
    split.
    + intros _. split; [reflexivity|]. vm_compute. congruence.
    + unfold numeric_kinds. intros Hin. exfalso. not_in_list Hin.
  - apply (proj1 (proj2 (@Argument_constructor_checks_pairing scenario_engine
                           ArgKind.Caller (fst (ofObject 2130706432 process0))))).
    intros [Hpair _]. destruct Hpair as [_ Hself].
    + unfold object_kinds. in_list.
    + by apply Hself.
  - apply (proj1 (proj2 (@Argument_constructor_checks_pairing scenario_engine
                           ArgKind.ScriptVar (fst (ofObject 5 process0))))).
    intros [_ Hpair]. discriminate Hpair. unfold numeric_kinds. in_list.
Defined.

(** ** Vectors on the stack *)

Lemma getFloatFromStack_snoc (m : VirtualMachine) (s : list Var) (v : Var) :
  _stack m = s ++ [v] ->
  type v = VariableType.Float ->
  getFloatFromStack m = Ok (floatValue v, set_stack s m).
Proof.
  intros Hs Hty. unfold getFloatFromStack.
  rewrite (pop_snoc m s v Hs). simpl. rewrite Hty. reflexivity.
Qed.

(** The three floats a vector is read from: the top is z, the one below
    it y, the lowest x. *)
Lemma getVectorFromStack_three (m : VirtualMachine) (rest : list Var) (vx vy vz : Var) :
  _stack m = rest ++ [vx; vy; vz] ->
  type vx = VariableType.Float ->
  type vy = VariableType.Float ->
  type vz = VariableType.Float ->
  getVectorFromStack m =
    Ok (glm.mkvec3 (floatValue vx) (floatValue vy) (floatValue vz), set_stack rest m).
Proof.
  intros Hs Hx Hy Hz. unfold getVectorFromStack.
  rewrite (getFloatFromStack_snoc m (rest ++ [vx; vy]) vz)
    by (by rewrite Hs, <- app_assoc || done). simpl.
  rewrite (getFloatFromStack_snoc _ (rest ++ [vx]) vy)
    by (by simpl; rewrite <- app_assoc || done). simpl.
  by rewrite (getFloatFromStack_snoc _ rest vx).
Qed.

Lemma vecValue_ofVector (vec : glm.vec3) (p : Process) :
  vecValue (fst (ofVector vec p)) = vec.
Proof. reflexivity. Qed.

Lemma push_float_stack (f : Float32.t) (m : VirtualMachine) :
  _stack (push_float f m) = _stack m ++ [fst (ofFloat f (process m))].
Proof. reflexivity. Qed.

Lemma push_three_floats (f1 f2 f3 : Float32.t) (m : VirtualMachine) :
  exists v1 v2 v3 : Var,
    _stack (push_float f3 (push_float f2 (push_float f1 m))) = _stack m ++ [v1; v2; v3] /\
    v1 = fst (ofFloat f1 (process m)) /\
    v2 = fst (ofFloat f2 (next_id (process m))) /\
    v3 = fst (ofFloat f3 (next_id (next_id (process m)))).
Proof.
  do 3 eexists. split; [|repeat split].
  rewrite !push_float_stack. rewrite <- !app_assoc. reflexivity.
Qed.

(** C6.  The argument loop of [ACTION] reads a [Vector] parameter from
    three floats, popping z, then y, then x, and hands the routine
    (x, y, z); a [Vector] result is pushed as the floats z, y, x in that
    order, which leaves x on top.  So a vector result that is marshalled
    into a vector parameter arrives reversed, as (z, y, x), whereas the
    vector handlers ([ADDVV] and the like) push x, y, z, which reads back
    as pushed.  In the scenario the routine that returns (1, 2, 3) is
    followed by one that takes a vector: it receives 3 as x. *)
Theorem ACTION_vector_result_marshals_reversed :
  (forall (m : VirtualMachine) (rest args : list Var) (vx vy vz : Var),
     _stack m = rest ++ [vx; vy; vz] ->
     type vx = VariableType.Float ->
     type vy = VariableType.Float ->
     type vz = VariableType.Float ->
     marshal_arg VariableType.Vector args m =
       Ok (args ++ [fst (ofVector (glm.mkvec3 (floatValue vx) (floatValue vy) (floatValue vz))
                           (process m))],
           set_process (next_id (process m)) (set_stack rest m)))
  /\
  (forall (m : VirtualMachine) (ret : Var),
     _stack (push_return VariableType.Vector ret m) =
       _stack m ++ [ fst (ofFloat (glm.z (vecValue ret)) (process m));
                     fst (ofFloat (glm.y (vecValue ret)) (next_id (process m)));
                     fst (ofFloat (glm.x (vecValue ret)) (next_id (next_id (process m)))) ])
  /\
  (forall (m : VirtualMachine) (ret : Var) (args : list Var),
     Float32.valid (glm.x (vecValue ret)) = true ->
     Float32.valid (glm.y (vecValue ret)) = true ->
     Float32.valid (glm.z (vecValue ret)) = true ->
     exists (v : Var) (m' : VirtualMachine),
       marshal_arg VariableType.Vector args (push_return VariableType.Vector ret m) =
         Ok (args ++ [v], m') /\
       _stack m' = _stack m /\
       vecValue v =
         glm.mkvec3 (glm.z (vecValue ret)) (glm.y (vecValue ret)) (glm.x (vecValue ret)))
  /\
  (forall (m : VirtualMachine) (vec : glm.vec3),
     Float32.valid (glm.x vec) = true ->
     Float32.valid (glm.y vec) = true ->
     Float32.valid (glm.z vec) = true ->
     exists m' : VirtualMachine,
       getVectorFromStack (push_xyz vec m) = Ok (vec, m') /\ _stack m' = _stack m)
  /\
  (stack_floats_after (@passes vector_engine 1 vector_program vector_machine 13) =
     Some ([float_three; float_two; float_one], 18) /\
   stack_floats_after (@passes vector_engine 2 vector_program vector_machine 13) =
     Some ([float_three], 23) /\
   glm.x vector_123 = float_one).
Proof.
  assert (Hmarshal : forall m rest args vx vy vz,
            _stack m = rest ++ [vx; vy; vz] ->
            type vx = VariableType.Float ->
            type vy = VariableType.Float ->
            type vz = VariableType.Float ->
            marshal_arg VariableType.Vector args m =
              Ok (args ++ [fst (ofVector (glm.mkvec3 (floatValue vx) (floatValue vy) (floatValue vz))
                                  (process m))],
                  set_process (next_id (process m)) (set_stack rest m))).
  { intros m rest args vx vy vz Hs Hx Hy Hz. unfold marshal_arg.
    by rewrite (getVectorFromStack_three m rest vx vy vz Hs Hx Hy Hz). }
  split; [exact Hmarshal|]. split; [|split; [|split]].
  - intros m ret. simpl.
    destruct (push_three_floats (glm.z (vecValue ret)) (glm.y (vecValue ret))
                (glm.x (vecValue ret)) m) as (v1 & v2 & v3 & Hs & -> & -> & ->).
    exact Hs.
  - intros m ret args Hx Hy Hz.
    destruct (push_three_floats (glm.z (vecValue ret)) (glm.y (vecValue ret))
                (glm.x (vecValue ret)) m) as (v1 & v2 & v3 & Hs & -> & -> & ->).
    do 2 eexists. split; [|split].
    + apply Hmarshal with (rest := _stack m); [exact Hs|done..].
    + reflexivity.
    + rewrite vecValue_ofVector. by rewrite !floatValue_ofFloat.
  - intros m vec Hx Hy Hz.
    destruct (push_three_floats (glm.x vec) (glm.y vec) (glm.z vec) m)
      as (v1 & v2 & v3 & Hs & -> & -> & ->).
    eexists. split.
    + unfold push_xyz. rewrite (getVectorFromStack_three _ _ _ _ _ Hs); [|done..].
      rewrite !floatValue_ofFloat by done. by destruct vec.
    + reflexivity.
  - split; [|split]; [vm_compute; reflexivity..|reflexivity].
Qed.

(** The vector (1, 2, 3) returned by a routine and marshalled into a
    vector parameter. *)
Lemma ACTION_vector_result_marshals_reversed_witness :
  exists (v : Var) (m' : VirtualMachine),
    marshal_arg VariableType.Vector []
      (push_return VariableType.Vector (fst (ofVector vector_123 process0)) vector_machine) =
      Ok ([v], m') /\
    vecValue v = glm.mkvec3 float_three float_two float_one.
Proof.
  destruct (proj1 (proj2 (proj2 ACTION_vector_result_marshals_reversed))
              vector_machine (fst (ofVector vector_123 process0)) []
              eq_refl eq_refl eq_refl)
    as (v & m' & Hmarshal & _ & Hvec).
  exists v, m'. split; [exact Hmarshal|exact Hvec].
Defined.

(** * Further properties of the code

    Properties read off the code itself: what the handlers do to the
    stack and to the other members of the machine, how calls, deferred
    actions and the self sentinel compose, and how arguments are read
    from text. *)

Lemma pop_inv (m m' : VirtualMachine) (v : Var) :
  pop m = Ok (v, m') -> exists s, _stack m = s ++ [v] /\ m' = set_stack s m.
Proof.
  unfold pop, back. destruct (last (_stack m)) as [a|] eqn:Hlast; [|done].
  simpl. intros [= <- <-].
  apply last_Some in Hlast as [s Hs]. exists s. split; [done|].
  by rewrite Hs, removelast_last.
Qed.

Lemma pop_size (m m' : VirtualMachine) (v : Var) :
  pop m = Ok (v, m') -> ssize m = ssize m' + 1.
Proof.
  intros Hpop. apply pop_inv in Hpop as (s & Hs & ->).
  unfold ssize. rewrite Hs, vsize_app. simpl. unfold vsize. simpl. lia.
Qed.

Lemma push_back_size (v : Var) (m : VirtualMachine) : ssize (push_back v m) = ssize m + 1.
Proof. unfold ssize. simpl. rewrite vsize_app. unfold vsize. simpl. lia. Qed.

Lemma push_new_size (mk : Process -> Var * Process) (m : VirtualMachine) :
  ssize (push_new mk m) = ssize m + 1.
Proof.
  unfold push_new. destruct (mk (process m)) as [v p].
  change (ssize (set_process p (push_back v m))) with (ssize (push_back v m)).
  apply push_back_size.
Qed.

Lemma getIntFromStack_size (m m' : VirtualMachine) (z : Z) :
  getIntFromStack m = Ok (z, m') -> ssize m = ssize m' + 1.
Proof.
  unfold getIntFromStack. destruct (pop m) as [[v m1]| |] eqn:Hpop; try done. simpl.
  destruct (throwIfInvalidType _ _); try done. simpl. intros [= _ <-].
  by apply pop_size in Hpop.
Qed.

Lemma getFloatFromStack_size (m m' : VirtualMachine) (f : Float32.t) :
  getFloatFromStack m = Ok (f, m') -> ssize m = ssize m' + 1.
Proof.
  unfold getFloatFromStack. destruct (pop m) as [[v m1]| |] eqn:Hpop; try done. simpl.
  destruct (throwIfInvalidType _ _); try done. simpl. intros [= _ <-].
  by apply pop_size in Hpop.
Qed.

Lemma getVectorFromStack_size (m m' : VirtualMachine) (v : glm.vec3) :
  getVectorFromStack m = Ok (v, m') -> ssize m = ssize m' + 3.
Proof.
  unfold getVectorFromStack.
  destruct (getFloatFromStack m) as [[z m1]| |] eqn:H1; try done. simpl.
  destruct (getFloatFromStack m1) as [[y m2]| |] eqn:H2; try done. simpl.
  destruct (getFloatFromStack m2) as [[x m3]| |] eqn:H3; try done. simpl.
  intros [= _ <-].
  apply getFloatFromStack_size in H1, H2, H3. lia.
Qed.

Lemma withStackVariables_inv (fn : Var -> Var -> VirtualMachine -> outcome VirtualMachine)
    (m m' : VirtualMachine) :
  withStackVariables fn m = Ok m' ->
  exists (a b : Var) (m2 : VirtualMachine),
    ssize m = ssize m2 + 2 /\ fn a b m2 = Ok m'.
Proof.
  unfold withStackVariables.
  destruct (pop m) as [[b m1]| |] eqn:H1; try done. simpl.
  destruct (pop m1) as [[a m2]| |] eqn:H2; try done. simpl.
  intros Hfn. exists a, b, m2. split; [|done].
  apply pop_size in H1, H2. lia.
Qed.

Lemma withTyped_inv {A B : Type} (ty1 : VariableType.t) (get1 : Var -> A)
    (ty2 : VariableType.t) (get2 : Var -> B)
    (fn : A -> B -> VirtualMachine -> outcome VirtualMachine) (m m' : VirtualMachine) :
  withTyped ty1 get1 ty2 get2 fn m = Ok m' ->
  exists (a : A) (b : B) (m2 : VirtualMachine),
    ssize m = ssize m2 + 2 /\ fn a b m2 = Ok m'.
Proof.
  unfold withTyped. intros Hw.
  apply withStackVariables_inv in Hw as (a & b & m2 & Hsize & Hfn).
  destruct (throwIfInvalidType ty1 (type a)); try done. simpl in Hfn.
  destruct (throwIfInvalidType ty2 (type b)); try done. simpl in Hfn.
  by exists (get1 a), (get2 b), m2.
Qed.

(** a typed handler of two operands whose body pushes [d] variables *)
Lemma withTyped_size {A B : Type} (ty1 : VariableType.t) (get1 : Var -> A)
    (ty2 : VariableType.t) (get2 : Var -> B)
    (fn : A -> B -> VirtualMachine -> outcome VirtualMachine) (d : Z) (m m' : VirtualMachine) :
  (forall a b m2 m3, fn a b m2 = Ok m3 -> ssize m3 = ssize m2 + d) ->
  withTyped ty1 get1 ty2 get2 fn m = Ok m' ->
  ssize m' = ssize m - 2 + d.
Proof.
  intros Hfn Hw. apply withTyped_inv in Hw as (a & b & m2 & Hsize & Hok).
  apply Hfn in Hok. lia.
Qed.

Lemma push_int_size (v : Z) (m : VirtualMachine) : ssize (push_int v m) = ssize m + 1.
Proof. apply push_new_size. Qed.

Lemma push_float_size (v : Float32.t) (m : VirtualMachine) : ssize (push_float v m) = ssize m + 1.
Proof. apply push_new_size. Qed.

Lemma push_xyz_size (v : glm.vec3) (m : VirtualMachine) : ssize (push_xyz v m) = ssize m + 3.
Proof. unfold push_xyz. rewrite !push_float_size. lia. Qed.

Lemma int_int_size (f : Z -> Z -> outcome Z) (m m' : VirtualMachine) :
  int_int f m = Ok m' -> ssize m' = ssize m - 1.
Proof.
  intros Hm. apply (withTyped_size _ _ _ _ _ 1) in Hm; [lia|].
  intros a b m2 m3. destruct (f a b); try done. simpl. intros [= <-]. apply push_int_size.
Qed.

Lemma float_compare_size (f : Float32.t -> Float32.t -> bool) (m m' : VirtualMachine) :
  float_compare f m = Ok m' -> ssize m' = ssize m - 1.
Proof.
  intros Hm. apply (withTyped_size _ _ _ _ _ 1) in Hm; [lia|].
  intros a b m2 m3 [= <-]. apply push_int_size.
Qed.

Lemma float_float_size (f : Float32.t -> Float32.t -> Float32.t) (m m' : VirtualMachine) :
  float_float f m = Ok m' -> ssize m' = ssize m - 1.
Proof.
  intros Hm. apply (withTyped_size _ _ _ _ _ 1) in Hm; [lia|].
  intros a b m2 m3 [= <-]. apply push_float_size.
Qed.

Lemma int_float_size (f : Float32.t -> Float32.t -> Float32.t) (m m' : VirtualMachine) :
  int_float f m = Ok m' -> ssize m' = ssize m - 1.
Proof.
  intros Hm. apply (withTyped_size _ _ _ _ _ 1) in Hm; [lia|].
  intros a b m2 m3 [= <-]. apply push_float_size.
Qed.

Lemma float_int_size (f : Float32.t -> Float32.t -> Float32.t) (m m' : VirtualMachine) :
  float_int f m = Ok m' -> ssize m' = ssize m - 1.
Proof.
  intros Hm. apply (withTyped_size _ _ _ _ _ 1) in Hm; [lia|].
  intros a b m2 m3 [= <-]. apply push_float_size.
Qed.

(** a typed handler whose body pushes one variable built from the operands *)
Lemma withTyped_push_size {A B : Type} (ty1 : VariableType.t) (get1 : Var -> A)
    (ty2 : VariableType.t) (get2 : Var -> B)
    (mk : A -> B -> Process -> Var * Process) (m m' : VirtualMachine) :
  withTyped ty1 get1 ty2 get2 (fun a b m2 => Ok (push_new (mk a b) m2)) m = Ok m' ->
  ssize m' = ssize m - 1.
Proof.
  intros Hm. apply (withTyped_size _ _ _ _ _ 1) in Hm; [lia|].
  intros a b m2 m3 [= <-]. apply push_new_size.
Qed.

Lemma withVectorsFromStack_size (fn : glm.vec3 -> glm.vec3 -> VirtualMachine -> outcome VirtualMachine)
    (d : Z) (m m' : VirtualMachine) :
  (forall a b m2 m3, fn a b m2 = Ok m3 -> ssize m3 = ssize m2 + d) ->
  withVectorsFromStack fn m = Ok m' -> ssize m' = ssize m - 6 + d.
Proof.
  intros Hfn. unfold withVectorsFromStack.
  destruct (getVectorFromStack m) as [[b m1]| |] eqn:H1; try done. simpl.
  destruct (getVectorFromStack m1) as [[a m2]| |] eqn:H2; try done. simpl.
  intros Hok. apply Hfn in Hok. apply getVectorFromStack_size in H1, H2. lia.
Qed.

Lemma withVectorFloatFromStack_size (fn : glm.vec3 -> Float32.t -> VirtualMachine -> outcome VirtualMachine)
    (d : Z) (m m' : VirtualMachine) :
  (forall a b m2 m3, fn a b m2 = Ok m3 -> ssize m3 = ssize m2 + d) ->
  withVectorFloatFromStack fn m = Ok m' -> ssize m' = ssize m - 4 + d.
Proof.
  intros Hfn. unfold withVectorFloatFromStack.
  destruct (getFloatFromStack m) as [[b m1]| |] eqn:H1; try done. simpl.
  destruct (getVectorFromStack m1) as [[a m2]| |] eqn:H2; try done. simpl.
  intros Hok. apply Hfn in Hok.
  apply getFloatFromStack_size in H1. apply getVectorFromStack_size in H2. lia.
Qed.

Lemma withFloatVectorFromStack_size (fn : Float32.t -> glm.vec3 -> VirtualMachine -> outcome VirtualMachine)
    (d : Z) (m m' : VirtualMachine) :
  (forall a b m2 m3, fn a b m2 = Ok m3 -> ssize m3 = ssize m2 + d) ->
  withFloatVectorFromStack fn m = Ok m' -> ssize m' = ssize m - 4 + d.
Proof.
  intros Hfn. unfold withFloatVectorFromStack.
  destruct (getVectorFromStack m) as [[b m1]| |] eqn:H1; try done. simpl.
  destruct (getFloatFromStack m1) as [[a m2]| |] eqn:H2; try done. simpl.
  intros Hok. apply Hfn in Hok.
  apply getFloatFromStack_size in H2. apply getVectorFromStack_size in H1. lia.
Qed.

Lemma pop_many_size (n : nat) :
  forall (m m' : VirtualMachine) (vars : list Var),
    pop_many n m = Ok (vars, m') -> ssize m = ssize m' + Z.of_nat n /\ List.length vars = n.
Proof.
  induction n as [|n IH]; intros m m' vars; simpl.
  - intros [= <- <-]. split; [lia|done].
  - destruct (pop m) as [[v m1]| |] eqn:Hpop; try done. simpl.
    destruct (pop_many n m1) as [[vs m2]| |] eqn:Hmany; try done. simpl.
    intros [= <- <-]. apply IH in Hmany as [Hsize Hlen]. apply pop_size in Hpop.
    split; [lia|simpl; lia].
Qed.

Lemma vsize_removelast {A : Type} (l : list A) :
  l <> [] -> vsize (removelast l) = vsize l - 1.
Proof.
  intros Hl. destruct (exists_last Hl) as (l' & a & ->).
  rewrite removelast_last, vsize_app. unfold vsize. simpl. lia.
Qed.

Lemma pop_back_size {A : Type} (s s' : list A) :
  pop_back s = Ok s' -> vsize s' = vsize s - 1.
Proof.
  destruct s as [|v s0]; [done|]. unfold pop_back. intros [= <-].
  by apply (vsize_removelast (v :: s0)).
Qed.

Lemma pop_times_size (count : nat) :
  forall s s' : list Var, pop_times count s = Ok s' -> vsize s' = vsize s - Z.of_nat count.
Proof.
  induction count as [|count IH]; intros s s'; simpl.
  - intros [= <-]. lia.
  - destruct (pop_back s) as [s1| |] eqn:Hpop; try done. simpl.
    intros Hp. apply IH in Hp. apply pop_back_size in Hpop. lia.
Qed.

Lemma resize_size (l l' : list Var) (n : Z) : resize l n = Ok l' -> vsize l' = n.
Proof.
  unfold resize. destruct (Z.ltb_spec n 0); [done|]. intros [= <-].
  unfold vsize. rewrite length_app, length_take, length_replicate. lia.
Qed.

Lemma marshal_arg_size (ty : VariableType.t) (args args' : list Var) (m m' : VirtualMachine) :
  marshal_arg ty args m = Ok (args', m') -> ssize m = ssize m' + arg_pops ty.
Proof.
  assert (Hdefault :
    (v ← back (_stack m);
     if negb (VariableType.eqb (type v) ty) then Throw runtime_error
     else Ok (args ++ [v], set_stack (removelast (_stack m)) m)) = Ok (args', m') ->
    ssize m = ssize m' + 1).
  { unfold back. destruct (last (_stack m)) as [v|] eqn:Hlast; [|done]. simpl.
    destruct (negb _); [done|]. intros [= _ <-].
    apply last_Some in Hlast as [s Hs]. unfold ssize. simpl.
    rewrite Hs, removelast_last, vsize_app. unfold vsize. simpl. lia. }
  destruct ty; simpl arg_pops; try exact Hdefault.
  - unfold marshal_arg.
    destruct (getVectorFromStack m) as [[vec m1]| |] eqn:Hvec; try done. simpl.
    intros [= _ <-]. apply getVectorFromStack_size in Hvec. exact Hvec.
  - unfold marshal_arg. simpl. intros [= _ <-]. unfold ssize. simpl. lia.
Qed.

Lemma marshal_args_size (r : Routine) (count : nat) :
  forall (i : nat) (args args' : list Var) (m m' : VirtualMachine),
    marshal_args r i count args m = Ok (args', m') ->
    ssize m = ssize m' + sum_pops (take count (drop i (argumentTypes r))).
Proof.
  induction count as [|count IH]; intros i args args' m m'; simpl.
  - intros [= _ <-]. lia.
  - unfold getArgumentType.
    destruct (argumentTypes r !! i) as [ty|] eqn:Hty; [|done]. simpl.
    destruct (marshal_arg ty args m) as [[args1 m1]| |] eqn:Harg; try done. simpl.
    intros Hrest. apply IH in Hrest. apply marshal_arg_size in Harg.
    rewrite (drop_S _ _ _ Hty). simpl. lia.
Qed.

Lemma push_return_size (ty : VariableType.t) (ret : Var) (m : VirtualMachine) :
  ssize (push_return ty ret m) = ssize m + return_pushes ty.
Proof.
  destruct ty; simpl; rewrite ?push_float_size, ?push_back_size; lia.
Qed.

Ltac size_of H :=
  first
    [ apply int_int_size in H
    | apply float_compare_size in H
    | apply float_float_size in H
    | apply int_float_size in H
    | apply float_int_size in H
    | apply withTyped_push_size in H
    | apply (withTyped_size _ _ _ _ _ 1) in H;
        [|(intros ? ? ? ? [= <-]; apply push_int_size)]
    | apply (withVectorsFromStack_size _ 3) in H;
        [|(intros ? ? ? ? [= <-]; apply push_xyz_size)]
    | apply (withVectorFloatFromStack_size _ 3) in H;
        [|(intros ? ? ? ? [= <-]; apply push_xyz_size)]
    | apply (withFloatVectorFromStack_size _ 3) in H;
        [|(intros ? ? ? ? [= <-]; apply push_xyz_size)] ].

Lemma set_back_size (v top : Var) (m : VirtualMachine) :
  back (_stack m) = Ok top -> ssize (set_back v m) = ssize m.
Proof.
  unfold back. destruct (last (_stack m)) as [a|] eqn:Hlast; [|done]. intros _.
  apply last_Some in Hlast as [s Hs]. unfold ssize. simpl.
  rewrite Hs, removelast_last, !vsize_app. done.
Qed.

Lemma step_int_at_size (dstIdx delta : Z) (m m' : VirtualMachine) :
  step_int_at dstIdx delta m = Ok m' -> ssize m' = ssize m.
Proof.
  unfold step_int_at.
  destruct (at_ (_stack m) dstIdx) as [v| |]; try done. simpl.
  destruct (int_result _) as [n| |]; try done. simpl.
  destruct (assign _ _ _) as [s| |] eqn:Hassign; try done. simpl.
  intros [= <-]. apply assign_length in Hassign. exact Hassign.
Qed.

Lemma tuples_from_stack_size (ins : Instruction.t) (m m' : VirtualMachine) (equal : bool) :
  tuples_from_stack ins m = Ok (equal, m') ->
  ssize m = ssize m' + 2 * Z.max 0 (Z.quot (Instruction.size ins) 4).
Proof.
  unfold tuples_from_stack.
  destruct (pop_many _ m) as [[vars1 m1]| |] eqn:H1; try done. simpl.
  destruct (pop_many _ m1) as [[vars2 m2]| |] eqn:H2; try done. simpl.
  intros [= _ <-]. apply pop_many_size in H1 as [H1 _], H2 as [H2 _]. lia.
Qed.

Lemma executeACTION_size `{Engine} (ins : Instruction.t) (m m' : VirtualMachine) :
  executeACTION ins m = Ok m' ->
  exists d : Z, action_effect ins m = Some d /\ ssize m' = ssize m + d.
Proof.
  unfold executeACTION, action_effect.
  destruct (routinesAt (routines (_context m))) as [rs|]; [|done].
  destruct (IRoutines_get rs (Instruction.routine ins)) as [r| |]; try done. simpl.
  destruct (getArgumentCount r <? Instruction.argCount ins); [done|].
  destruct (marshal_args r 0 _ [] m) as [[args m1]| |] eqn:Hargs; try done. simpl.
  destruct (invoke r args (_context m1) (process m1)) as [[ret p]| |]; try done. simpl.
  intros [= <-]. eexists. split; [reflexivity|].
  apply marshal_args_size in Hargs. rewrite drop_0 in Hargs.
  rewrite push_return_size.
  change (ssize (set_process p m1)) with (ssize m1). lia.
Qed.

(** ** The size of the stack *)

(** X1.  Every handler that returns changes the size of the stack by an
    amount fixed by the instruction alone (for [ACTION], by the
    instruction and the routine it names), the one [stack_effect] gives.
    It is 0 for [NOP], [NOP2], [CPDOWNSP], [CPDOWNBP], [JMP], [JSR],
    [RETN], [NEGI], [NEGF], [NOTI], [DECISP], [INCISP], [DECIBP],
    [INCIBP] and [STORE_STATE]; +1 for the eight [RSADD] opcodes, the
    four [CONST] opcodes and [SAVEBP]; [size/4], or 0 when that is
    negative, for [CPTOPSP] and [CPTOPBP]; for [ACTION] the pushes for
    the return type less the pops for the parameters passed; -3 for
    [ADDVV] and [SUBVV]; 1 less twice [size/4] (taken as 0 when
    negative) for [EQUALTT] and [NEQUALTT]; minus [-stackOffset/4], or 0
    when that is negative, for [MOVSP]; [sizeNoDestroy/4 - size/4] for
    [DESTRUCT]; and -1 for [JZ], [JNZ], [RESTOREBP] and every handler of
    two operands not named above, which are the logical, bitwise and
    shift opcodes, the comparisons other than the tuple ones, the sums,
    differences, products and quotients other than [ADDVV] and [SUBVV],
    and [MODII]. *)
Theorem handler_stack_effect `{Engine} :
  forall (ins : Instruction.t) (m m' : VirtualMachine)
         (handler : Instruction.t -> VirtualMachine -> outcome VirtualMachine),
    find_handler (Instruction.type ins) = Some handler ->
    handler ins m = Ok m' ->
    exists d : Z,
      stack_effect ins m = Some d /\
      vsize (_stack m') = vsize (_stack m) + d.
Proof.
  intros ins m m' handler Hfind Hrun.
  change (exists d, stack_effect ins m = Some d /\ ssize m' = ssize m + d).
  unfold stack_effect.
  destruct (Instruction.type ins) eqn:Hty; simpl in Hfind; try discriminate;
    injection Hfind as <-.
  all: try (by apply executeACTION_size).
  all: eexists; split; [reflexivity|].
  all: try (size_of Hrun; lia).
  all: try (injection Hrun as <-; rewrite ?push_new_size; unfold ssize; simpl; lia).
  - (* CPDOWNSP *)
    unfold executeCPDOWNSP in Hrun.
    destruct (copy_within _ _ _ _) as [s| |] eqn:Hcopy; try done.
    injection Hrun as <-. apply copy_within_length in Hcopy. unfold ssize. simpl. lia.
  - (* CPTOPSP *)
    unfold executeCPTOPSP in Hrun.
    destruct (copy_to_top _ _ _) as [s| |] eqn:Hcopy; try done.
    injection Hrun as <-. apply copy_to_top_length in Hcopy. unfold ssize. simpl. lia.
  - (* CONSTO *)
    unfold executeCONSTO in Hrun. destruct (negb _).
    + injection Hrun as <-. apply push_new_size.
    + destruct (findArg _ _); injection Hrun as <-;
        [apply push_back_size|apply push_new_size].
  - (* EQUALTT *)
    unfold executeEQUALTT in Hrun.
    destruct (tuples_from_stack ins m) as [[equal m1]| |] eqn:Ht; try done.
    injection Hrun as <-. apply tuples_from_stack_size in Ht.
    rewrite push_int_size. lia.
  - (* NEQUALTT *)
    unfold executeNEQUALTT in Hrun.
    destruct (tuples_from_stack ins m) as [[equal m1]| |] eqn:Ht; try done.
    injection Hrun as <-. apply tuples_from_stack_size in Ht.
    rewrite push_int_size. lia.
  - (* NEGI *)
    unfold executeNEGI in Hrun.
    destruct (back (_stack m)) as [top| |] eqn:Hback; try done. simpl in Hrun.
    destruct (int_result _) as [n| |]; try done. simpl in Hrun.
    injection Hrun as <-. rewrite (set_back_size _ top) by exact Hback. unfold ssize. simpl. lia.
  - (* NEGF *)
    unfold executeNEGF in Hrun.
    destruct (back (_stack m)) as [top| |] eqn:Hback; try done. simpl in Hrun.
    injection Hrun as <-. rewrite (set_back_size _ top) by exact Hback. unfold ssize. simpl. lia.
  - (* MOVSP *)
    unfold executeMOVSP in Hrun. unfold int_result in Hrun.
    destruct (_ && _); try done. simpl in Hrun.
    destruct (pop_times _ _) as [s| |] eqn:Hpop; try done.
    injection Hrun as <-. apply pop_times_size in Hpop. unfold ssize. simpl. lia.
  - (* JZ *)
    unfold executeJZ in Hrun.
    destruct (getIntFromStack m) as [[value m1]| |] eqn:Hint; try done. simpl in Hrun.
    apply getIntFromStack_size in Hint.
    destruct (value =? 0); injection Hrun as <-; unfold ssize in *; simpl; lia.
  - (* RETN *)
    unfold executeRETN in Hrun.
    destruct (last (_returnOffsets m)); [|destruct (_program m); try done];
      injection Hrun as <-; unfold ssize; simpl; lia.
  - (* DESTRUCT *)
    unfold executeDESTRUCT in Hrun.
    destruct (copy_within _ _ _ _) as [s| |] eqn:Hcopy; try done. simpl in Hrun.
    destruct (resize _ _) as [s'| |] eqn:Hresize; try done.
    injection Hrun as <-. apply resize_size in Hresize. unfold ssize. simpl. lia.
  - (* NOTI *)
    unfold executeNOTI in Hrun.
    destruct (getIntFromStack m) as [[value m1]| |] eqn:Hint; try done.
    injection Hrun as <-. apply getIntFromStack_size in Hint.
    rewrite push_int_size. lia.
  - unfold executeDECISP in Hrun. apply step_int_at_size in Hrun. lia.
  - unfold executeINCISP in Hrun. apply step_int_at_size in Hrun. lia.
  - (* JNZ *)
    unfold executeJNZ in Hrun.
    destruct (getIntFromStack m) as [[value m1]| |] eqn:Hint; try done. simpl in Hrun.
    apply getIntFromStack_size in Hint.
    destruct (negb _); injection Hrun as <-; unfold ssize in *; simpl; lia.
  - (* CPDOWNBP *)
    unfold executeCPDOWNBP in Hrun.
    destruct (copy_within _ _ _ _) as [s| |] eqn:Hcopy; try done.
    injection Hrun as <-. apply copy_within_length in Hcopy. unfold ssize. simpl. lia.
  - (* CPTOPBP *)
    unfold executeCPTOPBP in Hrun.
    destruct (copy_to_top _ _ _) as [s| |] eqn:Hcopy; try done.
    injection Hrun as <-. apply copy_to_top_length in Hcopy. unfold ssize. simpl. lia.
  - unfold executeDECIBP in Hrun. apply step_int_at_size in Hrun. lia.
  - unfold executeINCIBP in Hrun. apply step_int_at_size in Hrun. lia.
  - (* SAVEBP *)
    unfold executeSAVEBP in Hrun. injection Hrun as <-. rewrite push_int_size.
    unfold ssize. simpl. lia.
  - (* RESTOREBP *)
    unfold executeRESTOREBP in Hrun.
    destruct (getIntFromStack m) as [[value m1]| |] eqn:Hint; try done.
    injection Hrun as <-. apply getIntFromStack_size in Hint. unfold ssize in *. simpl. lia.
  - (* STORE_STATE *)
    unfold executeSTORE_STATE in Hrun.
    destruct (read_run _ (_globalCount m - _) _); simpl in Hrun; try done.
    destruct (read_run _ _ _); simpl in Hrun; try done.
    injection Hrun as <-. unfold ssize. simpl. lia.
Qed.
(** [ADDII] on the ints 2 and 3 leaves one variable where there were
    two. *)
Lemma handler_stack_effect_witness :
  exists d : Z,
    @stack_effect scenario_engine (Instruction.plain 25 InstructionType.ADDII 27)
      (machine_with_operands (int_var 2) (int_var 3)) = Some d /\
    vsize (_stack (push_int 5 (set_stack [] (machine_with_operands (int_var 2) (int_var 3)))))
      = vsize (_stack (machine_with_operands (int_var 2) (int_var 3))) + d.
Proof.
  exact (@handler_stack_effect scenario_engine
           (Instruction.plain 25 InstructionType.ADDII 27)
           (machine_with_operands (int_var 2) (int_var 3))
           (push_int 5 (set_stack [] (machine_with_operands (int_var 2) (int_var 3))))
           executeADDII eq_refl eq_refl).
Defined.

Lemma copy_within_forward {A : Type} (count : nat) :
  forall (l : list A) (dst src : nat),
    (dst <= src)%nat -> (src + count <= List.length l)%nat ->
    copy_within l (Z.of_nat dst) (Z.of_nat src) count =
      Ok (take dst l ++ take count (drop src l) ++ drop (dst + count) l).
Proof.
  induction count as [|count IH]; intros l dst src Hle Hend.
  - simpl. rewrite Nat.add_0_r. by rewrite take_drop.
  - destruct (lookup_lt_is_Some_2 l src) as [a Ha]; [lia|].
    simpl. rewrite (at_lookup l (Z.of_nat src) a) by (lia || by rewrite Nat2Z.id).
    simpl. rewrite assign_in_range by (unfold vsize; lia). simpl.
    rewrite Nat2Z.id.
    replace (Z.of_nat dst + 1) with (Z.of_nat (S dst)) by lia.
    replace (Z.of_nat src + 1) with (Z.of_nat (S src)) by lia.
    rewrite IH by (rewrite ?length_insert; lia).
    f_equal.
    rewrite (take_S_r (<[dst:=a]> l) dst a) by (apply list_lookup_insert_eq; lia).
    rewrite take_insert_ge by lia.
    rewrite !drop_insert_lt by lia.
    rewrite (drop_S l a src Ha). simpl.
    rewrite <- app_assoc. simpl.
    by replace (S (dst + count))%nat with (dst + S count)%nat by lia.
Qed.

Lemma copy_to_top_slice {A : Type} (count : nat) :
  forall (l acc : list A) (src : nat),
    (src + count <= List.length l)%nat ->
    copy_to_top (l ++ acc) (Z.of_nat src) count =
      Ok (l ++ acc ++ take count (drop src l)).
Proof.
  induction count as [|count IH]; intros l acc src Hend.
  - simpl. by rewrite app_nil_r.
  - destruct (lookup_lt_is_Some_2 l src) as [a Ha]; [lia|].
    simpl. rewrite (at_lookup (l ++ acc) (Z.of_nat src) a);
      [|lia|rewrite Nat2Z.id; by apply lookup_app_l_Some].
    simpl. rewrite <- app_assoc.
    replace (Z.of_nat src + 1) with (Z.of_nat (S src)) by lia.
    rewrite IH by lia.
    rewrite (drop_S l a src Ha). simpl. by rewrite <- app_assoc.
Qed.

Lemma list_snoc_cases {A : Type} (l : list A) :
  l = [] \/ exists l' a, l = l' ++ [a].
Proof.
  destruct l as [|x l0]; [by left|right].
  destruct (@exists_last A (x :: l0)) as (l' & a & Heq); [done|].
  by exists l', a.
Qed.

Lemma pop_back_snoc {A : Type} (l : list A) (a : A) : pop_back (l ++ [a]) = Ok l.
Proof.
  unfold pop_back. destruct (l ++ [a]) eqn:Heq; [by destruct l|].
  by rewrite <- Heq, removelast_last.
Qed.

Lemma pop_times_take (count : nat) :
  forall s : list Var,
    (count <= List.length s)%nat ->
    pop_times count s = Ok (take (List.length s - count) s).
Proof.
  induction count as [|count IH]; intros s Hlen.
  - simpl. by rewrite Nat.sub_0_r, firstn_all.
  - destruct (list_snoc_cases s) as [->|(s' & a & ->)]; [simpl in Hlen; lia|].
    simpl. rewrite pop_back_snoc. simpl.
    rewrite length_app in *. simpl in *.
    rewrite IH by lia.
    f_equal. rewrite take_app_le by lia. f_equal. lia.
Qed.

Lemma pop_times_short (count : nat) :
  forall s : list Var, (List.length s < count)%nat -> pop_times count s = Undefined.
Proof.
  induction count as [|count IH]; intros s Hlen; [lia|].
  destruct (list_snoc_cases s) as [->|(s' & a & ->)]; [done|].
  simpl. rewrite pop_back_snoc. simpl.
  apply IH. rewrite length_app in Hlen. simpl in Hlen. lia.
Qed.

Lemma copy_within_forward_Z {A : Type} (l : list A) (dst src count : Z) :
  0 <= count -> 0 <= dst <= src -> src + count <= vsize l ->
  copy_within l dst src (Z.to_nat count) =
    Ok (take (Z.to_nat dst) l ++ take (Z.to_nat count) (drop (Z.to_nat src) l)
          ++ drop (Z.to_nat (dst + count)) l).
Proof.
  intros Hcount Hdst Hend. unfold vsize in Hend.
  rewrite <- (Z2Nat.id dst) at 1 by lia. rewrite <- (Z2Nat.id src) at 1 by lia.
  rewrite copy_within_forward by lia.
  by rewrite Z2Nat.inj_add by lia.
Qed.

Lemma copy_to_top_slice_Z {A : Type} (l : list A) (src count : Z) :
  0 <= count -> 0 <= src -> src + count <= vsize l ->
  copy_to_top l src (Z.to_nat count) =
    Ok (l ++ take (Z.to_nat count) (drop (Z.to_nat src) l)).
Proof.
  intros Hcount Hsrc Hend. unfold vsize in Hend.
  rewrite <- (Z2Nat.id src) at 1 by lia.
  rewrite <- (app_nil_r l) at 1.
  rewrite copy_to_top_slice by lia. done.
Qed.

(** ** The copies, [DESTRUCT] and [MOVSP] on the contents of the stack *)

(** X2.  [CPDOWNSP] and [CPDOWNBP] overwrite the [size/4] variables that
    start at the destination with the [size/4] variables on top of the
    stack, and change nothing else; the destination is counted from the
    top of the stack for [CPDOWNSP] and from the global/local boundary for
    [CPDOWNBP].  (For a destination at or below the source.) *)
Theorem CPDOWN_overwrites_region :
  (forall (ins : Instruction.t) (m : VirtualMachine),
     let count := Z.quot (Instruction.size ins) 4 in
     let srcIdx := vsize (_stack m) - count in
     let dstIdx := vsize (_stack m) + Z.quot (Instruction.stackOffset ins) 4 in
     0 <= count -> 0 <= dstIdx <= srcIdx ->
     executeCPDOWNSP ins m =
       Ok (set_stack (take (Z.to_nat dstIdx) (_stack m)
                        ++ drop (Z.to_nat srcIdx) (_stack m)
                        ++ drop (Z.to_nat (dstIdx + count)) (_stack m)) m))
  /\
  (forall (ins : Instruction.t) (m : VirtualMachine),
     let count := Z.quot (Instruction.size ins) 4 in
     let srcIdx := vsize (_stack m) - count in
     let dstIdx := _globalCount m + Z.quot (Instruction.stackOffset ins) 4 in
     0 <= count -> 0 <= dstIdx <= srcIdx ->
     executeCPDOWNBP ins m =
       Ok (set_stack (take (Z.to_nat dstIdx) (_stack m)
                        ++ drop (Z.to_nat srcIdx) (_stack m)
                        ++ drop (Z.to_nat (dstIdx + count)) (_stack m)) m)).
Proof.
  split; intros ins m count srcIdx dstIdx Hcount Hdst.
  - unfold executeCPDOWNSP. fold count. fold srcIdx. fold dstIdx.
    rewrite copy_within_forward_Z by (subst srcIdx; lia).
    rewrite (take_ge (drop (Z.to_nat srcIdx) (_stack m)));
      [done|rewrite length_drop; unfold vsize in *; subst srcIdx; lia].
  - unfold executeCPDOWNBP. fold count. fold srcIdx. fold dstIdx.
    rewrite copy_within_forward_Z by (subst srcIdx; lia).
    rewrite (take_ge (drop (Z.to_nat srcIdx) (_stack m)));
      [done|rewrite length_drop; unfold vsize in *; subst srcIdx; lia].
Qed.

(** [CPDOWNSP -8, 4] on the ints 2 and 3 leaves 3 and 3. *)
Lemma CPDOWN_overwrites_region_witness :
  executeCPDOWNSP CPDOWNSP_top (machine_with_operands (int_var 2) (int_var 3)) =
    Ok (set_stack [int_var 3; int_var 3] (machine_with_operands (int_var 2) (int_var 3))).
Proof.
  exact (proj1 CPDOWN_overwrites_region CPDOWNSP_top
           (machine_with_operands (int_var 2) (int_var 3))
           ltac:(vm_compute; congruence) ltac:(vm_compute; split; congruence)).
Defined.

(** X3.  [CPTOPSP] and [CPTOPBP] push copies of the [size/4] variables
    that start at the source, in their order, and leave the variables
    below as they were; the source is counted from the top of the stack
    for [CPTOPSP] and from the global/local boundary for [CPTOPBP]. *)
Theorem CPTOP_pushes_slice :
  (forall (ins : Instruction.t) (m : VirtualMachine),
     let count := Z.quot (Instruction.size ins) 4 in
     let srcIdx := vsize (_stack m) + Z.quot (Instruction.stackOffset ins) 4 in
     0 <= count -> 0 <= srcIdx -> srcIdx + count <= vsize (_stack m) ->
     executeCPTOPSP ins m =
       Ok (set_stack (_stack m ++ take (Z.to_nat count) (drop (Z.to_nat srcIdx) (_stack m))) m))
  /\
  (forall (ins : Instruction.t) (m : VirtualMachine),
     let count := Z.quot (Instruction.size ins) 4 in
     let srcIdx := _globalCount m + Z.quot (Instruction.stackOffset ins) 4 in
     0 <= count -> 0 <= srcIdx -> srcIdx + count <= vsize (_stack m) ->
     executeCPTOPBP ins m =
       Ok (set_stack (_stack m ++ take (Z.to_nat count) (drop (Z.to_nat srcIdx) (_stack m))) m)).
Proof.
  split; intros ins m count srcIdx Hcount Hsrc Hend.
  - unfold executeCPTOPSP. fold count. fold srcIdx.
    by rewrite copy_to_top_slice_Z.
  - unfold executeCPTOPBP. fold count. fold srcIdx.
    by rewrite copy_to_top_slice_Z.
Qed.

(** [CPTOPSP -4, 4] on the int 7 leaves 7 and 7. *)
Lemma CPTOP_pushes_slice_witness :
  executeCPTOPSP CPTOPSP_top machine_with_7 =
    Ok (set_stack [int_var 7; int_var 7] machine_with_7).
Proof.
  exact (proj1 CPTOP_pushes_slice CPTOPSP_top machine_with_7
           ltac:(vm_compute; congruence) ltac:(vm_compute; congruence)
           ltac:(vm_compute; congruence)).
Defined.

(** X4.  [DESTRUCT] removes the top [size/4] variables except the
    [sizeNoDestroy/4] of them that start [stackOffset/4] above the lowest:
    those are kept, in their order, on top of what lay below. *)
Theorem DESTRUCT_keeps_subrange :
  forall (ins : Instruction.t) (m : VirtualMachine),
    let startIdx := vsize (_stack m) - Z.quot (Instruction.size ins) 4 in
    let startIdxNoDestroy := startIdx + Z.quot (Instruction.stackOffset ins) 4 in
    let countNoDestroy := Z.quot (Instruction.sizeNoDestroy ins) 4 in
    0 <= startIdx ->
    0 <= Z.quot (Instruction.stackOffset ins) 4 ->
    0 <= countNoDestroy ->
    startIdxNoDestroy + countNoDestroy <= vsize (_stack m) ->
    executeDESTRUCT ins m =
      Ok (set_stack (take (Z.to_nat startIdx) (_stack m)
                       ++ take (Z.to_nat countNoDestroy)
                            (drop (Z.to_nat startIdxNoDestroy) (_stack m))) m).
Proof.
  intros ins m startIdx startIdxNoDestroy countNoDestroy Hstart Hoff Hcount Hend.
  unfold executeDESTRUCT. fold startIdx. fold startIdxNoDestroy. fold countNoDestroy.
  rewrite copy_within_forward_Z by (subst startIdxNoDestroy; lia). simpl.
  unfold resize. destruct (Z.ltb_spec (startIdx + countNoDestroy) 0); [lia|]. simpl.
  do 2 f_equal.
  set (s := _stack m) in *. unfold vsize in *.
  assert (Hl1 : List.length (take (Z.to_nat startIdx) s) = Z.to_nat startIdx)
    by (rewrite length_take; lia).
  assert (Hl2 : List.length (take (Z.to_nat countNoDestroy) (drop (Z.to_nat startIdxNoDestroy) s))
                = Z.to_nat countNoDestroy)
    by (rewrite length_take, length_drop; subst startIdxNoDestroy; lia).
  rewrite !length_app, Hl1, Hl2, length_drop.
  replace (Z.to_nat (startIdx + countNoDestroy) -
           (Z.to_nat startIdx + (Z.to_nat countNoDestroy +
              (List.length s - Z.to_nat (startIdx + countNoDestroy)))))%nat with 0%nat
    by (subst startIdxNoDestroy; lia).
  simpl. rewrite app_nil_r.
  rewrite app_assoc. rewrite take_app_length'; [done|].
  rewrite length_app, Hl1, Hl2. lia.
Qed.

(** [DESTRUCT 12, 4, 4] on the ints 1, 2, 3 keeps the 2. *)
Lemma DESTRUCT_keeps_subrange_witness :
  executeDESTRUCT DESTRUCT_middle (machine_with_stack [int_var 1; int_var 2; int_var 3]) =
    Ok (set_stack [int_var 2] (machine_with_stack [int_var 1; int_var 2; int_var 3])).
Proof.
  exact (DESTRUCT_keeps_subrange DESTRUCT_middle
           (machine_with_stack [int_var 1; int_var 2; int_var 3])
           ltac:(vm_compute; congruence) ltac:(vm_compute; congruence)
           ltac:(vm_compute; congruence) ltac:(vm_compute; congruence)).
Defined.

(** X5.  [MOVSP] pops [-stackOffset/4] variables and keeps the rest; it
    pops nothing when that count is zero or negative, and it has no
    defined result when the count exceeds the size of the stack. *)
Theorem MOVSP_pops_count :
  forall (ins : Instruction.t) (m : VirtualMachine),
    let count := Z.quot (- Instruction.stackOffset ins) 4 in
    INT_MIN < Instruction.stackOffset ins <= INT_MAX ->
    (0 <= count <= vsize (_stack m) ->
     executeMOVSP ins m =
       Ok (set_stack (take (Z.to_nat (vsize (_stack m) - count)) (_stack m)) m)) /\
    (count <= 0 -> executeMOVSP ins m = Ok (set_stack (_stack m) m)) /\
    (vsize (_stack m) < count -> executeMOVSP ins m = Undefined).
Proof.
  intros ins m count Hoff.
  assert (Hneg : int_result (- Instruction.stackOffset ins) = Ok (- Instruction.stackOffset ins)).
  { apply int_result_in_range. unfold INT_MIN, INT_MAX in *. lia. }
  unfold executeMOVSP. rewrite Hneg. simpl. fold count. unfold vsize.
  split; [|split].
  - intros Hcount. rewrite pop_times_take by lia. simpl. do 3 f_equal. lia.
  - intros Hcount. replace (Z.to_nat count) with 0%nat by lia. done.
  - intros Hcount. rewrite pop_times_short by lia. done.
Qed.

(** [MOVSP -8] on the ints 1, 2, 3 leaves the 1. *)
Lemma MOVSP_pops_count_witness :
  executeMOVSP MOVSP_two (machine_with_stack [int_var 1; int_var 2; int_var 3]) =
    Ok (set_stack [int_var 1] (machine_with_stack [int_var 1; int_var 2; int_var 3])).
Proof.
  exact (proj1 (MOVSP_pops_count MOVSP_two
                  (machine_with_stack [int_var 1; int_var 2; int_var 3])
                  ltac:(vm_compute; split; congruence))
           ltac:(vm_compute; split; congruence)).
Defined.





(** ** Comparison of tuples *)



Lemma frame_refl (m : VirtualMachine) : frame m m.
Proof. by repeat split. Qed.

Lemma frame_trans (m1 m2 m3 : VirtualMachine) : frame m1 m2 -> frame m2 m3 -> frame m1 m3.
Proof. unfold frame. intros (?&?&?&?&?&?) (?&?&?&?&?&?). repeat split; congruence. Qed.

Lemma frame_set_stack (s : list Var) (m : VirtualMachine) : frame m (set_stack s m).
Proof. by repeat split. Qed.

Lemma frame_set_process (p : Process) (m : VirtualMachine) : frame m (set_process p m).
Proof. by repeat split. Qed.

Lemma frame_push_new (mk : Process -> Var * Process) (m : VirtualMachine) :
  frame m (push_new mk m).
Proof. unfold push_new. destruct (mk (process m)). by repeat split. Qed.

Lemma frame_push_xyz (v : glm.vec3) (m : VirtualMachine) : frame m (push_xyz v m).
Proof.
  unfold push_xyz, push_float.
  eapply frame_trans; [|apply frame_push_new].
  eapply frame_trans; [|apply frame_push_new]. apply frame_push_new.
Qed.

Lemma pop_frame (m m' : VirtualMachine) (v : Var) : pop m = Ok (v, m') -> frame m m'.
Proof.
  unfold pop. destruct (back (_stack m)); try done. simpl. intros [= _ <-].
  apply frame_set_stack.
Qed.

Lemma getIntFromStack_frame (m m' : VirtualMachine) (z : Z) :
  getIntFromStack m = Ok (z, m') -> frame m m'.
Proof.
  unfold getIntFromStack. destruct (pop m) as [[v m1]| |] eqn:Hpop; try done. simpl.
  destruct (throwIfInvalidType _ _); try done. simpl. intros [= _ <-].
  by apply pop_frame in Hpop.
Qed.

Lemma getFloatFromStack_frame (m m' : VirtualMachine) (f : Float32.t) :
  getFloatFromStack m = Ok (f, m') -> frame m m'.
Proof.
  unfold getFloatFromStack. destruct (pop m) as [[v m1]| |] eqn:Hpop; try done. simpl.
  destruct (throwIfInvalidType _ _); try done. simpl. intros [= _ <-].
  by apply pop_frame in Hpop.
Qed.

Lemma getVectorFromStack_frame (m m' : VirtualMachine) (v : glm.vec3) :
  getVectorFromStack m = Ok (v, m') -> frame m m'.
Proof.
  unfold getVectorFromStack.
  destruct (getFloatFromStack m) as [[z m1]| |] eqn:H1; try done. simpl.
  destruct (getFloatFromStack m1) as [[y m2]| |] eqn:H2; try done. simpl.
  destruct (getFloatFromStack m2) as [[x m3]| |] eqn:H3; try done. simpl.
  intros [= _ <-].
  apply getFloatFromStack_frame in H1, H2, H3.
  eauto using frame_trans.
Qed.

Lemma withTyped_frame {A B : Type} (ty1 : VariableType.t) (get1 : Var -> A)
    (ty2 : VariableType.t) (get2 : Var -> B)
    (fn : A -> B -> VirtualMachine -> outcome VirtualMachine) (m m' : VirtualMachine) :
  (forall a b m2 m3, fn a b m2 = Ok m3 -> frame m2 m3) ->
  withTyped ty1 get1 ty2 get2 fn m = Ok m' -> frame m m'.
Proof.
  intros Hfn. unfold withTyped, withStackVariables.
  destruct (pop m) as [[b m1]| |] eqn:H1; try done. simpl.
  destruct (pop m1) as [[a m2]| |] eqn:H2; try done. simpl.
  destruct (throwIfInvalidType ty1 (type a)); try done. simpl.
  destruct (throwIfInvalidType ty2 (type b)); try done. simpl.
  intros Hok. apply Hfn in Hok. apply pop_frame in H1, H2.
  eauto using frame_trans.
Qed.

Lemma int_int_frame (f : Z -> Z -> outcome Z) (m m' : VirtualMachine) :
  int_int f m = Ok m' -> frame m m'.
Proof.
  apply withTyped_frame. intros a b m2 m3.
  destruct (f a b); try done. simpl. intros [= <-]. apply frame_push_new.
Qed.

Lemma withTyped_push_frame {A B : Type} (ty1 : VariableType.t) (get1 : Var -> A)
    (ty2 : VariableType.t) (get2 : Var -> B)
    (mk : A -> B -> Process -> Var * Process) (m m' : VirtualMachine) :
  withTyped ty1 get1 ty2 get2 (fun a b m2 => Ok (push_new (mk a b) m2)) m = Ok m' ->
  frame m m'.
Proof. apply withTyped_frame. intros a b m2 m3 [= <-]. apply frame_push_new. Qed.

Lemma withVectorsFromStack_frame (fn : glm.vec3 -> glm.vec3 -> VirtualMachine -> outcome VirtualMachine)
    (m m' : VirtualMachine) :
  (forall a b m2 m3, fn a b m2 = Ok m3 -> frame m2 m3) ->
  withVectorsFromStack fn m = Ok m' -> frame m m'.
Proof.
  intros Hfn. unfold withVectorsFromStack.
  destruct (getVectorFromStack m) as [[b m1]| |] eqn:H1; try done. simpl.
  destruct (getVectorFromStack m1) as [[a m2]| |] eqn:H2; try done. simpl.
  intros Hok. apply Hfn in Hok. apply getVectorFromStack_frame in H1, H2.
  eauto using frame_trans.
Qed.

Lemma withVectorFloatFromStack_frame
    (fn : glm.vec3 -> Float32.t -> VirtualMachine -> outcome VirtualMachine)
    (m m' : VirtualMachine) :
  (forall a b m2 m3, fn a b m2 = Ok m3 -> frame m2 m3) ->
  withVectorFloatFromStack fn m = Ok m' -> frame m m'.
Proof.
  intros Hfn. unfold withVectorFloatFromStack.
  destruct (getFloatFromStack m) as [[b m1]| |] eqn:H1; try done. simpl.
  destruct (getVectorFromStack m1) as [[a m2]| |] eqn:H2; try done. simpl.
  intros Hok. apply Hfn in Hok.
  apply getFloatFromStack_frame in H1. apply getVectorFromStack_frame in H2.
  eauto using frame_trans.
Qed.

Lemma withFloatVectorFromStack_frame
    (fn : Float32.t -> glm.vec3 -> VirtualMachine -> outcome VirtualMachine)
    (m m' : VirtualMachine) :
  (forall a b m2 m3, fn a b m2 = Ok m3 -> frame m2 m3) ->
  withFloatVectorFromStack fn m = Ok m' -> frame m m'.
Proof.
  intros Hfn. unfold withFloatVectorFromStack.
  destruct (getVectorFromStack m) as [[b m1]| |] eqn:H1; try done. simpl.
  destruct (getFloatFromStack m1) as [[a m2]| |] eqn:H2; try done. simpl.
  intros Hok. apply Hfn in Hok.
  apply getFloatFromStack_frame in H2. apply getVectorFromStack_frame in H1.
  eauto using frame_trans.
Qed.

Lemma pop_many_frame (n : nat) :
  forall (m m' : VirtualMachine) (vars : list Var),
    pop_many n m = Ok (vars, m') -> frame m m'.
Proof.
  induction n as [|n IH]; intros m m' vars; simpl.
  - intros [= _ <-]. apply frame_refl.
  - destruct (pop m) as [[v m1]| |] eqn:Hpop; try done. simpl.
    destruct (pop_many n m1) as [[vs m2]| |] eqn:Hmany; try done. simpl.
    intros [= _ <-]. apply IH in Hmany. apply pop_frame in Hpop.
    eauto using frame_trans.
Qed.

Lemma marshal_arg_frame (ty : VariableType.t) (args args' : list Var) (m m' : VirtualMachine) :
  marshal_arg ty args m = Ok (args', m') -> frame m m'.
Proof.
  assert (Hdefault :
    (v ← back (_stack m);
     if negb (VariableType.eqb (type v) ty) then Throw runtime_error
     else Ok (args ++ [v], set_stack (removelast (_stack m)) m)) = Ok (args', m') ->
    frame m m').
  { destruct (back (_stack m)) as [v| |]; try done. simpl.
    destruct (negb _); [done|]. intros [= _ <-]. apply frame_set_stack. }
  destruct ty; try exact Hdefault.
  - unfold marshal_arg.
    destruct (getVectorFromStack m) as [[vec m1]| |] eqn:Hvec; try done. simpl.
    intros [= _ <-]. apply getVectorFromStack_frame in Hvec.
    eapply frame_trans; [exact Hvec|apply frame_set_process].
  - unfold marshal_arg. simpl. intros [= _ <-]. apply frame_set_process.
Qed.

Lemma marshal_args_frame (r : Routine) (count : nat) :
  forall (i : nat) (args args' : list Var) (m m' : VirtualMachine),
    marshal_args r i count args m = Ok (args', m') -> frame m m'.
Proof.
  induction count as [|count IH]; intros i args args' m m'; simpl.
  - intros [= _ <-]. apply frame_refl.
  - destruct (getArgumentType r i) as [ty| |]; try done. simpl.
    destruct (marshal_arg ty args m) as [[args1 m1]| |] eqn:Harg; try done. simpl.
    intros Hrest. apply IH in Hrest. apply marshal_arg_frame in Harg.
    eauto using frame_trans.
Qed.

Lemma push_return_frame (ty : VariableType.t) (ret : Var) (m : VirtualMachine) :
  frame m (push_return ty ret m).
Proof.
  destruct ty; simpl; try apply frame_set_stack; try apply frame_refl.
  unfold push_float.
  eapply frame_trans; [|apply frame_push_new].
  eapply frame_trans; [|apply frame_push_new]. apply frame_push_new.
Qed.

Lemma step_int_at_frame (dstIdx delta : Z) (m m' : VirtualMachine) :
  step_int_at dstIdx delta m = Ok m' -> frame m m'.
Proof.
  unfold step_int_at.
  destruct (at_ (_stack m) dstIdx) as [v| |]; try done. simpl.
  destruct (int_result _) as [n| |]; try done. simpl.
  destruct (assign _ _ _) as [s| |]; try done. simpl.
  intros [= <-]. by repeat split.
Qed.

Ltac frame_of H :=
  first
    [ apply int_int_frame in H
    | apply withTyped_push_frame in H
    | apply withTyped_frame in H;
        [|(intros ? ? ? ? [= <-]; apply frame_push_new)]
    | apply withVectorsFromStack_frame in H;
        [|(intros ? ? ? ? [= <-]; apply frame_push_xyz)]
    | apply withVectorFloatFromStack_frame in H;
        [|(intros ? ? ? ? [= <-]; apply frame_push_xyz)]
    | apply withFloatVectorFromStack_frame in H;
        [|(intros ? ? ? ? [= <-]; apply frame_push_xyz)] ].

(** What a handler that returns leaves as it was. *)
Lemma handler_members_kept `{Engine} :
  forall (ins : Instruction.t) (m m' : VirtualMachine)
         (handler : Instruction.t -> VirtualMachine -> outcome VirtualMachine),
    find_handler (Instruction.type ins) = Some handler ->
    handler ins m = Ok m' ->
    _context m' = _context m /\
    _program m' = _program m /\
    (may_change_savedState (Instruction.type ins) = false -> _savedState m' = _savedState m) /\
    (may_change_globalCount (Instruction.type ins) = false -> _globalCount m' = _globalCount m) /\
    (may_change_returnOffsets (Instruction.type ins) = false ->
     _returnOffsets m' = _returnOffsets m) /\
    (may_change_nextInstruction (Instruction.type ins) = false ->
     _nextInstruction m' = _nextInstruction m).
Proof.
  intros ins m m' handler Hfind Hrun.
  assert (Hframe : frame m m' ->
    _context m' = _context m /\ _program m' = _program m /\
    (may_change_savedState (Instruction.type ins) = false -> _savedState m' = _savedState m) /\
    (may_change_globalCount (Instruction.type ins) = false -> _globalCount m' = _globalCount m) /\
    (may_change_returnOffsets (Instruction.type ins) = false ->
     _returnOffsets m' = _returnOffsets m) /\
    (may_change_nextInstruction (Instruction.type ins) = false ->
     _nextInstruction m' = _nextInstruction m)).
  { intros (?&?&?&?&?&?). by repeat split. }
  destruct (Instruction.type ins) eqn:Hty; simpl in Hfind; try discriminate;
    injection Hfind as <-.
  all: try (apply Hframe; frame_of Hrun; exact Hrun).
  all: try (apply Hframe; injection Hrun as <-;
            first [apply frame_push_new | apply frame_refl | by repeat split]).
  - (* CPDOWNSP *)
    apply Hframe. unfold executeCPDOWNSP in Hrun.
    destruct (copy_within _ _ _ _); try done. injection Hrun as <-. apply frame_set_stack.
  - (* CPTOPSP *)
    apply Hframe. unfold executeCPTOPSP in Hrun.
    destruct (copy_to_top _ _ _); try done. injection Hrun as <-. apply frame_set_stack.
  - (* CONSTO *)
    apply Hframe. unfold executeCONSTO in Hrun. destruct (negb _).
    + injection Hrun as <-. apply frame_push_new.
    + destruct (findArg _ _); injection Hrun as <-;
        [apply frame_set_stack|apply frame_push_new].
  - (* ACTION *)
    apply Hframe. unfold executeACTION in Hrun.
    destruct (routinesAt _); try done.
    destruct (IRoutines_get _ _) as [r| |]; try done. simpl in Hrun.
    destruct (_ <? _); try done.
    destruct (marshal_args _ _ _ _ _) as [[args m1]| |] eqn:Hargs; try done. simpl in Hrun.
    destruct (invoke _ _ _ _) as [[ret p]| |]; try done. simpl in Hrun.
    injection Hrun as <-. apply marshal_args_frame in Hargs.
    eapply frame_trans; [exact Hargs|].
    eapply frame_trans; [apply (frame_set_process p)|apply push_return_frame].
  - (* EQUALTT *)
    apply Hframe. unfold executeEQUALTT, tuples_from_stack in Hrun.
    destruct (pop_many _ m) as [[v1 m1]| |] eqn:H1; try done. simpl in Hrun.
    destruct (pop_many _ m1) as [[v2 m2]| |] eqn:H2; try done. simpl in Hrun.
    injection Hrun as <-. apply pop_many_frame in H1, H2.
    eapply frame_trans; [exact H1|]. eapply frame_trans; [exact H2|apply frame_push_new].
  - (* NEQUALTT *)
    apply Hframe. unfold executeNEQUALTT, tuples_from_stack in Hrun.
    destruct (pop_many _ m) as [[v1 m1]| |] eqn:H1; try done. simpl in Hrun.
    destruct (pop_many _ m1) as [[v2 m2]| |] eqn:H2; try done. simpl in Hrun.
    injection Hrun as <-. apply pop_many_frame in H1, H2.
    eapply frame_trans; [exact H1|]. eapply frame_trans; [exact H2|apply frame_push_new].
  - (* NEGI *)
    apply Hframe. unfold executeNEGI in Hrun.
    destruct (back (_stack m)); try done. simpl in Hrun.
    destruct (int_result _); try done. simpl in Hrun.
    injection Hrun as <-. by repeat split.
  - (* NEGF *)
    apply Hframe. unfold executeNEGF in Hrun.
    destruct (back (_stack m)); try done. simpl in Hrun.
    injection Hrun as <-. by repeat split.
  - (* MOVSP *)
    apply Hframe. unfold executeMOVSP in Hrun.
    destruct (int_result _); try done. simpl in Hrun.
    destruct (pop_times _ _); try done. injection Hrun as <-. apply frame_set_stack.
  - (* JMP *)
    injection Hrun as <-. by repeat split.
  - (* JSR *)
    injection Hrun as <-. by repeat split.
  - (* JZ *)
    unfold executeJZ in Hrun.
    destruct (getIntFromStack m) as [[value m1]| |] eqn:Hint; try done. simpl in Hrun.
    apply getIntFromStack_frame in Hint. destruct Hint as (?&?&?&?&?&?).
    destruct (value =? 0); injection Hrun as <-; by repeat split.
  - (* RETN *)
    unfold executeRETN in Hrun.
    destruct (last (_returnOffsets m)); [|destruct (_program m) eqn:Hprogram; try done];
      injection Hrun as <-; simpl; by repeat split.
  - (* DESTRUCT *)
    apply Hframe. unfold executeDESTRUCT in Hrun.
    destruct (copy_within _ _ _ _); try done. simpl in Hrun.
    destruct (resize _ _); try done. injection Hrun as <-. apply frame_set_stack.
  - (* NOTI *)
    apply Hframe. unfold executeNOTI in Hrun.
    destruct (getIntFromStack m) as [[value m1]| |] eqn:Hint; try done.
    injection Hrun as <-. apply getIntFromStack_frame in Hint.
    eapply frame_trans; [exact Hint|apply frame_push_new].
  - apply Hframe. unfold executeDECISP in Hrun. by apply step_int_at_frame in Hrun.
  - apply Hframe. unfold executeINCISP in Hrun. by apply step_int_at_frame in Hrun.
  - (* JNZ *)
    unfold executeJNZ in Hrun.
    destruct (getIntFromStack m) as [[value m1]| |] eqn:Hint; try done. simpl in Hrun.
    apply getIntFromStack_frame in Hint. destruct Hint as (?&?&?&?&?&?).
    destruct (negb _); injection Hrun as <-; by repeat split.
  - (* CPDOWNBP *)
    apply Hframe. unfold executeCPDOWNBP in Hrun.
    destruct (copy_within _ _ _ _); try done. injection Hrun as <-. apply frame_set_stack.
  - (* CPTOPBP *)
    apply Hframe. unfold executeCPTOPBP in Hrun.
    destruct (copy_to_top _ _ _); try done. injection Hrun as <-. apply frame_set_stack.
  - apply Hframe. unfold executeDECIBP in Hrun. by apply step_int_at_frame in Hrun.
  - apply Hframe. unfold executeINCIBP in Hrun. by apply step_int_at_frame in Hrun.
  - (* SAVEBP *)
    unfold executeSAVEBP in Hrun. injection Hrun as <-.
    unfold push_int, push_new. simpl. by repeat split.
  - (* RESTOREBP *)
    unfold executeRESTOREBP in Hrun.
    destruct (getIntFromStack m) as [[value m1]| |] eqn:Hint; try done.
    injection Hrun as <-. apply getIntFromStack_frame in Hint.
    destruct Hint as (?&?&?&?&?&?). by repeat split.
  - (* STORE_STATE *)
    unfold executeSTORE_STATE in Hrun.
    destruct (read_run _ (_globalCount m - _) _); simpl in Hrun; try done.
    destruct (read_run _ _ _); simpl in Hrun; try done.
    injection Hrun as <-. by repeat split.
Qed.

Section RunInvariants.
Context `{Engine}.

Lemma passes_app (a : nat) :
  forall (b : nat) (p : ScriptProgram.t) (m m1 : VirtualMachine) (off off1 : Z),
    passes a p m off = Some (m1, off1) ->
    passes (a + b) p m off = passes b p m1 off1.
Proof.
  induction a as [|a IH]; intros b p m m1 off off1 Ha; simpl in Ha.
  - by inversion Ha.
  - simpl. destruct (off <? ScriptProgram.length p); [|done].
    destruct (run_body p m off) as [m2 off2|r]; [|done].
    by apply IH.
Qed.

Lemma passes_one (p : ScriptProgram.t) (m m' : VirtualMachine) (off : Z)
    (ins : Instruction.t)
    (handler : Instruction.t -> VirtualMachine -> outcome VirtualMachine) :
  off < ScriptProgram.length p ->
  ScriptProgram.getInstruction p off = Some ins ->
  find_handler (Instruction.type ins) = Some handler ->
  handler ins (set_nextInstruction (Instruction.nextOffset ins) m) = Ok m' ->
  passes 1 p m off = Some (m', _nextInstruction m').
Proof.
  intros Hlt Hins Hfind Hrun. simpl.
  destruct (Z.ltb_spec off (ScriptProgram.length p)); [|lia].
  unfold run_body. by rewrite Hins, Hfind, Hrun.
Qed.

Lemma run_body_keeps (p : ScriptProgram.t) (m m' : VirtualMachine) (off off' : Z) :
  run_body p m off = Continue m' off' ->
  _context m' = _context m /\ _program m' = _program m /\ off' = _nextInstruction m'.
Proof.
  unfold run_body.
  destruct (ScriptProgram.getInstruction p off) as [ins|]; [|done].
  destruct (find_handler (Instruction.type ins)) as [handler|] eqn:Hfind; [|done].
  destruct (handler ins _) as [m2| |] eqn:Hrun; try done.
  intros [= <- <-].
  destruct (handler_members_kept ins _ m2 handler Hfind Hrun) as (Hc & Hp & _).
  by rewrite Hc, Hp.
Qed.

Lemma passes_keep (k : nat) :
  forall (p : ScriptProgram.t) (m m' : VirtualMachine) (off off' : Z),
    passes k p m off = Some (m', off') ->
    _context m' = _context m /\ _program m' = _program m.
Proof.
  induction k as [|k IH]; intros p m m' off off' Hk; simpl in Hk.
  - by inversion Hk.
  - destruct (off <? ScriptProgram.length p); [|done].
    destruct (run_body p m off) as [m1 off1|r] eqn:Hbody; [|done].
    apply run_body_keeps in Hbody. destruct Hbody as (Hc & Hp & _).
    apply IH in Hk. destruct Hk as (Hc' & Hp'). split; congruence.
Qed.

(** X7.  No handler assigns to the program or to the context;
    [_savedState] is assigned by [STORE_STATE] alone, [_globalCount] by
    [SAVEBP] and [RESTOREBP] alone, [_returnOffsets] by [JSR] and [RETN]
    alone, and the cursor by the jumps and [RETN] alone.  So at every
    pass of [run()] the program and the context are the ones the machine
    started the loop with. *)
Theorem handlers_keep_program_and_context :
  (forall (ins : Instruction.t) (m m' : VirtualMachine)
          (handler : Instruction.t -> VirtualMachine -> outcome VirtualMachine),
     find_handler (Instruction.type ins) = Some handler ->
     handler ins m = Ok m' ->
     _context m' = _context m /\
     _program m' = _program m /\
     (may_change_savedState (Instruction.type ins) = false ->
      _savedState m' = _savedState m) /\
     (may_change_globalCount (Instruction.type ins) = false ->
      _globalCount m' = _globalCount m) /\
     (may_change_returnOffsets (Instruction.type ins) = false ->
      _returnOffsets m' = _returnOffsets m) /\
     (may_change_nextInstruction (Instruction.type ins) = false ->
      _nextInstruction m' = _nextInstruction m)) /\
  (forall (k : nat) (p : ScriptProgram.t) (m m' : VirtualMachine) (off off' : Z),
     passes k p m off = Some (m', off') ->
     _context m' = _context m /\ _program m' = _program m).
Proof.
  split.
  - intros ins m m' handler. apply handler_members_kept.
  - intros k. apply passes_keep.
Qed.

(** ** Subroutines *)

(** X8.  [JSR] pushes the offset of the instruction after it on the
    return stack and jumps; when the passes that follow leave the return
    stack as [JSR] left it and reach a [RETN], that [RETN] pops the offset
    and the loop goes on right after the [JSR], with the return stack as
    it was before the call and the stack as the subroutine left it. *)
Theorem JSR_RETN_returns_to_call_site :
  forall (p : ScriptProgram.t) (m : VirtualMachine) (off : Z) (jsr : Instruction.t),
    off < ScriptProgram.length p ->
    ScriptProgram.getInstruction p off = Some jsr ->
    Instruction.type jsr = InstructionType.JSR ->
    exists m1 : VirtualMachine,
      passes 1 p m off = Some (m1, jump_target jsr) /\
      _returnOffsets m1 = _returnOffsets m ++ [Instruction.nextOffset jsr] /\
      _stack m1 = _stack m /\
      forall (k : nat) (m2 : VirtualMachine) (off2 : Z) (retn : Instruction.t),
        passes k p m1 (jump_target jsr) = Some (m2, off2) ->
        _returnOffsets m2 = _returnOffsets m1 ->
        off2 < ScriptProgram.length p ->
        ScriptProgram.getInstruction p off2 = Some retn ->
        Instruction.type retn = InstructionType.RETN ->
        exists m3 : VirtualMachine,
          passes (1 + k + 1) p m off = Some (m3, Instruction.nextOffset jsr) /\
          _returnOffsets m3 = _returnOffsets m /\
          _stack m3 = _stack m2 /\
          _globalCount m3 = _globalCount m2.
Proof.
  intros p m off jsr Hlt Hjsr Hty.
  assert (Hcall : passes 1 p m off =
            Some (set_nextInstruction (jump_target jsr)
                    (set_returnOffsets (_returnOffsets m ++ [Instruction.nextOffset jsr])
                       (set_nextInstruction (Instruction.nextOffset jsr) m)),
                  jump_target jsr)).
  { erewrite passes_one; [|exact Hlt|exact Hjsr|by rewrite Hty|reflexivity]. reflexivity. }
  eexists. split; [exact Hcall|]. split; [|split].
  - reflexivity.
  - reflexivity.
  - intros k m2 off2 retn Hbody Hbalanced Hlt2 Hretn Hty2.
    assert (Hlast : last (_returnOffsets m2) = Some (Instruction.nextOffset jsr)).
    { rewrite Hbalanced. simpl. apply last_snoc. }
    exists (set_returnOffsets (removelast (_returnOffsets m2))
              (set_nextInstruction (Instruction.nextOffset jsr)
                 (set_nextInstruction (Instruction.nextOffset retn) m2))).
    split; [|split; [|split]].
    + rewrite <- Nat.add_assoc.
      rewrite (passes_app 1 (k + 1) _ _ _ _ _ Hcall).
      rewrite (passes_app k 1 _ _ _ _ _ Hbody).
      erewrite passes_one; [|exact Hlt2|exact Hretn|by rewrite Hty2|].
      2: { unfold executeRETN. simpl _returnOffsets. rewrite Hlast. reflexivity. }
      reflexivity.
    + simpl. rewrite Hbalanced. simpl. apply removelast_last.
    + reflexivity.
    + reflexivity.
Qed.

(** X9.  A [RETN] met while the return stack is empty moves the cursor to
    the length of the program: the loop ends with that pass and [run()]
    returns what the stack holds then. *)
Theorem RETN_outside_subroutine_ends_run :
  forall (p : ScriptProgram.t) (m : VirtualMachine) (off : Z) (retn : Instruction.t)
         (fuel : nat),
    _program m = Some p ->
    _returnOffsets m = [] ->
    off < ScriptProgram.length p ->
    ScriptProgram.getInstruction p off = Some retn ->
    Instruction.type retn = InstructionType.RETN ->
    run_loop (S fuel) p m off = Some (Returned (run_epilogue m)).
Proof.
  intros p m off retn fuel Hp Hret Hlt Hretn Hty.
  change (S fuel) with (1 + fuel)%nat.
  erewrite run_loop_after_passes.
  2: { eapply passes_one; [exact Hlt|exact Hretn|by rewrite Hty|].
       unfold executeRETN. simpl _returnOffsets. rewrite Hret. simpl. rewrite Hp.
       reflexivity. }
  simpl _nextInstruction. rewrite run_loop_past_end by lia. reflexivity.
Qed.

End RunInvariants.

(** [ADDII] leaves every member but the stack as it was. *)
Lemma handlers_keep_program_and_context_witness :
  _context (push_int 5 (set_stack [] (machine_with_operands (int_var 2) (int_var 3)))) =
    _context (machine_with_operands (int_var 2) (int_var 3)) /\
  _program (push_int 5 (set_stack [] (machine_with_operands (int_var 2) (int_var 3)))) =
    _program (machine_with_operands (int_var 2) (int_var 3)).
Proof.
  destruct (proj1 (@handlers_keep_program_and_context scenario_engine)
              (Instruction.plain 25 InstructionType.ADDII 27)
              (machine_with_operands (int_var 2) (int_var 3))
              (push_int 5 (set_stack [] (machine_with_operands (int_var 2) (int_var 3))))
              executeADDII eq_refl eq_refl)
    as (Hcontext & Hprogram & _).
  exact (conj Hcontext Hprogram).
Defined.

(** The call at offset 13 of [call_program] comes back to offset 19 after
    two passes, with an empty return stack. *)
Lemma JSR_RETN_returns_to_call_site_witness :
  exists m3 : VirtualMachine,
    @passes scenario_engine 2 call_program
      (VirtualMachine_new (Some call_program) bare_context process0) 13 = Some (m3, 19) /\
    _returnOffsets m3 = [].
Proof.
  destruct (@JSR_RETN_returns_to_call_site scenario_engine call_program
              (VirtualMachine_new (Some call_program) bare_context process0) 13
              (Instruction.mk 13 InstructionType.JSR 19 0 0 8 0 0 0 0 0
                 Float32.zero EmptyString 0)
              ltac:(vm_compute; congruence) eq_refl eq_refl)
    as (m1 & _ & _ & _ & Hbody).
  destruct (Hbody 0%nat m1 21 (Instruction.plain 21 InstructionType.RETN 23)
              eq_refl eq_refl ltac:(vm_compute; congruence) eq_refl eq_refl)
    as (m3 & Hpasses & Hreturn & _).
  exists m3. exact (conj Hpasses Hreturn).
Defined.

(** The [RETN] that ends the add program, met with the int 7 on the
    stack. *)
Lemma RETN_outside_subroutine_ends_run_witness :
  @run_loop scenario_engine 1 add_program machine_with_7 27 = Some (Returned 7).
Proof.
  exact (@RETN_outside_subroutine_ends_run scenario_engine add_program machine_with_7 27
           (Instruction.plain 27 InstructionType.RETN 29) 0%nat
           eq_refl eq_refl ltac:(vm_compute; congruence) eq_refl eq_refl).
Defined.

(** ** runner.cpp *)

Section Self.
Context `{Engine}.

Lemma passes_S (k : nat) (p : ScriptProgram.t) (m0 m : VirtualMachine) (off0 off : Z) :
  passes k p m0 off0 = Some (m, off) ->
  passes (S k) p m0 off0 = passes 1 p m off.
Proof. intros Hk. rewrite <- Nat.add_1_r. by apply passes_app. Qed.

(** [CONSTO] with the self sentinel, at any point of a run. *)
Lemma CONSTO_self_in_run (p : ScriptProgram.t) (m0 m : VirtualMachine) (off0 off : Z)
    (k : nat) (ins : Instruction.t) :
  passes k p m0 off0 = Some (m, off) ->
  off < ScriptProgram.length p ->
  ScriptProgram.getInstruction p off = Some ins ->
  Instruction.type ins = InstructionType.CONSTO ->
  Instruction.objectId ins = kObjectSelf ->
  exists (m' : VirtualMachine) (v : Var),
    passes (S k) p m0 off0 = Some (m', Instruction.nextOffset ins) /\
    _stack m' = _stack m ++ [v] /\
    match findArg (_context m0) ArgKind.Caller with
    | Some caller => v = caller
    | None => type v = VariableType.Object /\ objectId v = as_uint32 kObjectInvalid
    end.
Proof.
  intros Hk Hlt Hins Hty Hself.
  destruct (passes_keep k p m0 m off0 off Hk) as (Hctx & _).
  rewrite (passes_S k p m0 m off0 off Hk).
  pose (m1 := set_nextInstruction (Instruction.nextOffset ins) m).
  assert (Hrun : executeCONSTO ins m1 =
            match findArg (_context m0) ArgKind.Caller with
            | Some caller => Ok (push_back caller m1)
            | None => Ok (push_new (ofObject kObjectInvalid) m1)
            end).
  { unfold executeCONSTO. rewrite Hself, Z.eqb_refl. simpl negb. cbv iota.
    unfold m1. simpl _context. by rewrite Hctx. }
  destruct (findArg (_context m0) ArgKind.Caller) as [caller|].
  - exists (push_back caller m1), caller.
    erewrite passes_one; [|exact Hlt|exact Hins|by rewrite Hty|exact Hrun].
    done.
  - eexists (push_new (ofObject kObjectInvalid) m1), _.
    erewrite passes_one; [|exact Hlt|exact Hins|by rewrite Hty|exact Hrun].
    split; [reflexivity|]. split; [reflexivity|]. done.
Qed.

Lemma find_overwrite_caller (actorId : Z) (l : list Argument) :
  match overwrite_caller actorId l with
  | Some l' =>
      exists caller,
        List.find (fun a => ArgKind.eqb (kind a) ArgKind.Caller) l = Some caller /\
        List.find (fun a => ArgKind.eqb (kind a) ArgKind.Caller) l' =
          Some (mkArgument (kind caller) (set_objectId (var caller) actorId))
  | None => List.find (fun a => ArgKind.eqb (kind a) ArgKind.Caller) l = None
  end.
Proof.
  induction l as [|arg rest IH]; [done|]. simpl.
  destruct (ArgKind.eqb (kind arg) ArgKind.Caller) eqn:Heq.
  - exists arg. simpl. by rewrite Heq.
  - destruct (overwrite_caller actorId rest) as [l'|]; simpl.
    + destruct IH as (caller & Hfind & Hfind'). exists caller. by rewrite Heq.
    + exact IH.
Qed.

Lemma find_app_None {A : Type} (f : A -> bool) (l k : list A) :
  List.find f l = None -> List.find f (l ++ k) = List.find f k.
Proof.
  induction l as [|a l IH]; [done|]. simpl. destruct (f a); [done|]. exact IH.
Qed.

(** After [DoCommandAction::execute] has built its context, the caller the
    machine finds carries the id of the actor. *)
Lemma findArg_rebind_caller (actionToDo ctx : ExecutionContext) (actorId : Z)
    (p p' : Process) :
  0 <= actorId < 2 ^ 32 ->
  rebind_caller actionToDo actorId p = Ok (ctx, p') ->
  exists caller : Var,
    findArg ctx ArgKind.Caller = Some caller /\ objectId caller = actorId.
Proof.
  intros Hrange. unfold rebind_caller.
  assert (Hid : as_uint32 actorId = actorId) by (apply Z.mod_small; lia).
  pose proof (find_overwrite_caller actorId (args actionToDo)) as Hfind.
  destruct (overwrite_caller actorId (args actionToDo)) as [l'|].
  - destruct Hfind as (caller & _ & Hfind'). intros [= <- <-].
    eexists. unfold findArg. simpl. rewrite Hfind'. simpl. split; [reflexivity|].
    exact Hid.
  - unfold ofObject, Argument_new. simpl.
    destruct (verify _); try done. simpl. intros [= <- <-].
    eexists. unfold findArg. simpl. rewrite find_app_None by exact Hfind. simpl.
    split; [reflexivity|]. exact Hid.
Qed.

(** ** The object a script runs for *)

(** X10.  In the run [DoCommandAction::execute] starts, the self
    sentinel stands for the actor: wherever the loop meets a [CONSTO]
    that carries [kObjectSelf], the variable it pushes has the id of the
    actor as object id.  The run starts from the saved state of the
    action, at its resume offset. *)
Theorem resumed_action_self_is_actor :
  forall (actionToDo ctx : ExecutionContext) (st : ExecutionState) (actorId : Z)
         (p p' : Process) (prog : ScriptProgram.t),
    0 <= actorId < 2 ^ 32 ->
    savedState actionToDo = Some st ->
    program st = Some prog ->
    rebind_caller actionToDo actorId p = Ok (ctx, p') ->
    (forall fuel : nat,
       DoCommandAction_execute fuel actionToDo actorId p =
         Ok (run_loop fuel prog
               (fst (run_prologue (VirtualMachine_new (Some prog) ctx p')))
               (insOffset st))) /\
    forall (k : nat) (m : VirtualMachine) (off : Z) (ins : Instruction.t),
      passes k prog (fst (run_prologue (VirtualMachine_new (Some prog) ctx p')))
        (insOffset st) = Some (m, off) ->
      off < ScriptProgram.length prog ->
      ScriptProgram.getInstruction prog off = Some ins ->
      Instruction.type ins = InstructionType.CONSTO ->
      Instruction.objectId ins = kObjectSelf ->
      exists (m' : VirtualMachine) (v : Var),
        passes (S k) prog (fst (run_prologue (VirtualMachine_new (Some prog) ctx p')))
          (insOffset st) = Some (m', Instruction.nextOffset ins) /\
        _stack m' = _stack m ++ [v] /\
        objectId v = actorId.
Proof.
  intros actionToDo ctx st actorId p p' prog Hrange Hst Hprog Hctx.
  assert (Hsaved : savedState ctx = Some st).
  { revert Hctx. unfold rebind_caller.
    destruct (overwrite_caller _ _); [by intros [= <- <-]|].
    unfold ofObject, Argument_new. simpl. destruct (verify _); try done.
    simpl. by intros [= <- <-]. }
  split.
  - intros fuel. unfold DoCommandAction_execute. rewrite Hctx. simpl. rewrite Hst, Hprog.
    unfold run, run_prologue. simpl. by rewrite Hsaved.
  - intros k m off ins Hk Hlt Hins Hty Hself.
    destruct (CONSTO_self_in_run _ _ _ _ _ _ _ Hk Hlt Hins Hty Hself)
      as (m' & v & Hpass & Hstack & Hv).
    exists m', v. split; [exact Hpass|]. split; [exact Hstack|].
    destruct (findArg_rebind_caller _ _ _ _ _ Hrange Hctx) as (caller & Hfind & Hid).
    replace (_context (fst (run_prologue (VirtualMachine_new (Some prog) ctx p'))))
      with ctx in Hv.
    + rewrite Hfind in Hv. by subst v.
    + unfold run_prologue. simpl. by rewrite Hsaved.
Qed.

(** X11.  [ScriptRunner::run(resRef, callerId)] passes a [Caller]
    argument for a caller id other than 0 and no argument for 0.  A
    caller id equal to [kObjectSelf] makes the construction of that
    argument throw [invalid_argument], before the script is looked up.
    Otherwise a script that is not found gives -1, and in the run of a
    script that is found a [CONSTO] that carries [kObjectSelf] pushes an
    object variable with the caller id, or with [kObjectInvalid] when the
    caller id is 0. *)
Theorem ScriptRunner_binds_self :
  forall (_scripts : string -> option ScriptProgram.t) (_routines : Z)
         (resRef : string) (callerId : Z) (p : Process),
    0 <= callerId < 2 ^ 32 ->
    (callerId <> 0 -> callerId = kObjectSelf ->
     forall fuel : nat,
       ScriptRunner_run_caller _scripts _routines fuel resRef callerId p =
         Throw invalid_argument) /\
    (callerId = 0 \/ callerId <> kObjectSelf ->
     (_scripts resRef = None ->
      forall fuel : nat,
        ScriptRunner_run_caller _scripts _routines fuel resRef callerId p =
          Ok (Some (Returned (-1)))) /\
     (forall prog : ScriptProgram.t,
        _scripts resRef = Some prog ->
        exists m0 : VirtualMachine,
          _stack m0 = [] /\
          (forall fuel : nat,
             ScriptRunner_run_caller _scripts _routines fuel resRef callerId p =
               Ok (run_loop fuel prog m0 kStartInstructionOffset)) /\
          forall (k : nat) (m : VirtualMachine) (off : Z) (ins : Instruction.t),
            passes k prog m0 kStartInstructionOffset = Some (m, off) ->
            off < ScriptProgram.length prog ->
            ScriptProgram.getInstruction prog off = Some ins ->
            Instruction.type ins = InstructionType.CONSTO ->
            Instruction.objectId ins = kObjectSelf ->
            exists (m' : VirtualMachine) (v : Var),
              passes (S k) prog m0 kStartInstructionOffset =
                Some (m', Instruction.nextOffset ins) /\
              _stack m' = _stack m ++ [v] /\
              type v = VariableType.Object /\
              objectId v = if callerId =? 0 then as_uint32 kObjectInvalid else callerId)).
Proof.
  intros _scripts _routines resRef callerId p Hrange.
  assert (Hid : as_uint32 callerId = callerId) by (apply Z.mod_small; lia).
  split; [|intros Hvalid; split].
  - intros Hnz Hself fuel. unfold ScriptRunner_run_caller.
    destruct (Z.eqb_spec callerId 0); [done|]. simpl.
    unfold Argument_new, verify, objectId. simpl. rewrite Hid.
    destruct (Z.eqb_spec callerId kObjectSelf); [done|contradiction].
  - intros Hnone fuel. unfold ScriptRunner_run_caller, ScriptRunner_run.
    rewrite Hnone.
    destruct (Z.eqb_spec callerId 0); simpl; [done|].
    unfold Argument_new, verify, objectId. simpl. rewrite Hid.
    destruct (Z.eqb_spec callerId kObjectSelf); [|done].
    destruct Hvalid; contradiction.
  - intros prog Hprog.
    destruct (Z.eqb_spec callerId 0) as [Hz|Hnz].
    + exists (VirtualMachine_new (Some prog) (mkExecutionContext _routines None []) p).
      split; [done|]. split.
      * intros fuel. unfold ScriptRunner_run_caller, ScriptRunner_run.
        rewrite Hprog. subst callerId. reflexivity.
      * intros k m off ins Hk Hlt Hins Hty Hself.
        destruct (CONSTO_self_in_run _ _ _ _ _ _ _ Hk Hlt Hins Hty Hself)
          as (m' & v & Hpass & Hstack & Hv).
        exists m', v. simpl in Hv. destruct Hv as (Htype & Hobj). done.
    + exists (VirtualMachine_new (Some prog)
                (mkExecutionContext _routines None
                   [mkArgument ArgKind.Caller (fst (ofObject callerId p))])
                (snd (ofObject callerId p))).
      split; [done|]. split.
      * intros fuel. unfold ScriptRunner_run_caller, ScriptRunner_run.
        rewrite Hprog.
        destruct (Z.eqb_spec callerId 0); [contradiction|]. simpl.
        unfold Argument_new, verify, objectId. simpl. rewrite Hid.
        destruct (Z.eqb_spec callerId kObjectSelf); [|done].
        destruct Hvalid; contradiction.
      * intros k m off ins Hk Hlt Hins Hty Hself.
        destruct (CONSTO_self_in_run _ _ _ _ _ _ _ Hk Hlt Hins Hty Hself)
          as (m' & v & Hpass & Hstack & Hv).
        exists m', v. simpl in Hv. subst v. done.
Qed.

End Self.

(** The action captured for object 5 is run by actor 9: the first pass
    of [self_program] pushes object 9. *)
Lemma resumed_action_self_is_actor_witness :
  exists (m' : VirtualMachine) (v : Var),
    @passes scenario_engine 1 self_program
      (fst (run_prologue (VirtualMachine_new (Some self_program)
                            (rebound_context 9) process0))) 13 = Some (m', 19) /\
    _stack m' = [v] /\
    objectId v = 9.
Proof.
  destruct (proj2 (@resumed_action_self_is_actor scenario_engine
                     (rebound_context 5) (rebound_context 9)
                     (mkExecutionState [] [] (Some self_program) 13) 9
                     process0 process0 self_program
                     ltac:(vm_compute; split; congruence) eq_refl eq_refl eq_refl)
              0%nat
              (fst (run_prologue (VirtualMachine_new (Some self_program)
                                    (rebound_context 9) process0)))
              13 CONSTO_self eq_refl ltac:(vm_compute; congruence) eq_refl eq_refl eq_refl)
    as (m' & v & Hpasses & Hstack & Hid).
  exists m', v. exact (conj Hpasses (conj Hstack Hid)).
Defined.

(** [self_program] run for caller 5: the first pass pushes object 5. *)
Lemma ScriptRunner_binds_self_witness :
  exists (m0 m' : VirtualMachine) (v : Var),
    @ScriptRunner_run_caller scenario_engine (fun _ => Some self_program) 0 2
      "self" 5 process0 = Ok (@run_loop scenario_engine 2 self_program m0 13) /\
    @passes scenario_engine 1 self_program m0 13 = Some (m', 19) /\
    _stack m' = _stack m0 ++ [v] /\
    objectId v = 5.
Proof.
  destruct (proj2 (proj2 (@ScriptRunner_binds_self scenario_engine
                            (fun _ => Some self_program) 0 "self" 5 process0
                            ltac:(vm_compute; split; congruence))
                     ltac:(right; vm_compute; congruence))
              self_program eq_refl)
    as (m0 & _ & Hrun & Hself).
  destruct (Hself 0%nat m0 13 CONSTO_self eq_refl ltac:(vm_compute; congruence)
              eq_refl eq_refl eq_refl)
    as (m' & v & Hpasses & Hstack & _ & Hid).
  exists m0, m', v. exact (conj (Hrun 2%nat) (conj Hpasses (conj Hstack Hid))).
Defined.

Lemma withTyped_checked {A B : Type} (ty1 : VariableType.t) (get1 : Var -> A)
    (ty2 : VariableType.t) (get2 : Var -> B)
    (fn : A -> B -> VirtualMachine -> outcome VirtualMachine)
    (m : VirtualMachine) (rest : list Var) (a b : Var) :
  _stack m = rest ++ [a; b] ->
  withTyped ty1 get1 ty2 get2 fn m =
    if VariableType.eqb (type a) ty1 && VariableType.eqb (type b) ty2
    then fn (get1 a) (get2 b) (set_stack rest m)
    else Throw runtime_error.
Proof.
  intros Hs. unfold withTyped.
  rewrite (withStackVariables_two _ m rest a b Hs).
  unfold throwIfInvalidType.
  destruct (VariableType.eqb (type a) ty1); [|done]. simpl.
  by destruct (VariableType.eqb (type b) ty2).
Qed.

Lemma int_result_no_throw (z : Z) (e : exception) : int_result z <> Throw e.
Proof. unfold int_result. by destruct (_ && _). Qed.

Lemma shift_count_no_throw (z : Z) (e : exception) : shift_count z <> Throw e.
Proof. unfold shift_count. by destruct (_ && _). Qed.

Ltac no_throw :=
  repeat match goal with
  | |- Ok _ <> Throw _ => discriminate
  | |- Ok _ = Throw _ -> _ => discriminate
  | |- Undefined <> Throw _ => discriminate
  | |- context [int_result ?z] =>
      let H := fresh in
      pose proof (int_result_no_throw z) as H;
      destruct (int_result z); simpl; [| exfalso; by eapply H | ]
  | |- context [shift_count ?z] =>
      let H := fresh in
      pose proof (shift_count_no_throw z) as H;
      destruct (shift_count z); simpl; [| exfalso; by eapply H | ]
  | |- context [if ?c then _ else _] => destruct c; simpl
  end.

(** ** The tags of the operands *)

(** X12.  A handler of two scalar operands throws exactly when the tag
    of one of the two variables it pops differs from the tag its helper
    names, and what it throws then is [runtime_error]: with matching tags
    the operation itself never throws. *)
Theorem typed_operands_checked `{Engine} :
  forall (ins : Instruction.t) (m : VirtualMachine) (rest : list Var) (a b : Var)
         (handler : Instruction.t -> VirtualMachine -> outcome VirtualMachine)
         (t1 t2 : VariableType.t) (e : exception),
    find_handler (Instruction.type ins) = Some handler ->
    operand_types (Instruction.type ins) = Some (t1, t2) ->
    _stack m = rest ++ [a; b] ->
    (handler ins m = Throw e <-> e = runtime_error /\ (type a <> t1 \/ type b <> t2)).
Proof.
  intros ins m rest a b handler t1 t2 e Hfind Hop Hs.
  assert (Hcases :
    forall {A B : Type} (get1 : Var -> A) (get2 : Var -> B)
           (fn : A -> B -> VirtualMachine -> outcome VirtualMachine),
      (forall x y m' e', fn x y m' <> Throw e') ->
      (withTyped t1 get1 t2 get2 fn m = Throw e <->
       e = runtime_error /\ (type a <> t1 \/ type b <> t2))).
  { intros A B get1 get2 fn Hfn.
    rewrite (withTyped_checked t1 get1 t2 get2 fn m rest a b Hs).
    destruct (VariableType.eqb (type a) t1) eqn:Ha; simpl.
    - destruct (VariableType.eqb (type b) t2) eqn:Hb.
      + apply VariableType_eqb_eq in Ha, Hb. split.
        * intros Hthrow. by apply Hfn in Hthrow.
        * intros [_ [Hne|Hne]]; contradiction.
      + split.
        * intros [= <-]. split; [done|]. right. intros Heq.
          apply VariableType_eqb_eq in Heq. congruence.
        * by intros [-> _].
    - split.
      + intros [= <-]. split; [done|]. left. intros Heq.
        apply VariableType_eqb_eq in Heq. congruence.
      + by intros [-> _]. }
  destruct (Instruction.type ins); simpl in Hfind, Hop; try discriminate;
    injection Hfind as <-; injection Hop as <- <-.
  all: apply Hcases; intros x y m' e'; unfold engine_eq, engine_ne; simpl; no_throw.
Qed.

(** [ADDII] on an int below a float throws. *)
Lemma typed_operands_checked_witness :
  executeADDII (Instruction.plain 25 InstructionType.ADDII 27)
    (machine_with_operands (int_var 2) (float_var float_one)) = Throw runtime_error.
Proof.
  apply (proj2 (@typed_operands_checked scenario_engine
                  (Instruction.plain 25 InstructionType.ADDII 27)
                  (machine_with_operands (int_var 2) (float_var float_one))
                  [] (int_var 2) (float_var float_one) executeADDII
                  VariableType.Int VariableType.Int runtime_error
                  eq_refl eq_refl eq_refl)).
  split; [reflexivity|]. right. vm_compute. congruence.
Defined.

Lemma as_int32_as_uint32 (z : Z) : INT_MIN <= z <= INT_MAX -> as_int32 (as_uint32 z) = z.
Proof.
  unfold as_int32, as_uint32, INT_MIN, INT_MAX. intros Hz.
  Z.to_euclidean_division_equations; lia.
Qed.

Lemma intValue_ofInt (z : Z) (p : Process) :
  INT_MIN <= z <= INT_MAX -> intValue (fst (ofInt z p)) = z.
Proof. intros Hz. unfold intValue. simpl. by apply as_int32_as_uint32. Qed.

(** ** Handlers that check no tag *)

(** X13.  [NEGI] and [NEGF] do not look at the tag of the top of the
    stack.  Whatever its type, [NEGI] replaces it by an [Int] that holds
    the negation of its word read as an [int] (no defined result for the
    least [int]).  [NEGF] replaces it by a [Float]: when its word read
    as a [float] is not a NaN, by the variable [ofFloat] makes of the
    negation of that float; when it is a NaN, by a variable that reads
    as a NaN.  On a stack that is not empty neither throws. *)
Theorem NEG_ignores_tag :
  forall (ins : Instruction.t) (m : VirtualMachine) (rest : list Var) (v : Var),
    _stack m = rest ++ [v] ->
    (intValue v <> INT_MIN ->
     exists (m' : VirtualMachine) (v' : Var),
       executeNEGI ins m = Ok m' /\
       _stack m' = rest ++ [v'] /\
       type v' = VariableType.Int /\
       intValue v' = - intValue v) /\
    (intValue v = INT_MIN -> executeNEGI ins m = Undefined) /\
    (exists (m' : VirtualMachine) (v' : Var),
       executeNEGF ins m = Ok m' /\
       _stack m' = rest ++ [v'] /\
       type v' = VariableType.Float /\
       (floatValue v <> S754_nan ->
        v' = fst (ofFloat (Float32.opp (floatValue v)) (process m))) /\
       (floatValue v = S754_nan -> floatValue v' = S754_nan)).
Proof.
  intros ins m rest v Hs. pose proof (intValue_range v) as Hrange.
  split; [|split].
  - intros Hmin. unfold executeNEGI. rewrite Hs, back_snoc. simpl.
    rewrite int_result_in_range by (unfold INT_MIN, INT_MAX in *; lia). simpl.
    do 2 eexists. split; [reflexivity|].
    unfold set_back. simpl. rewrite Hs, removelast_last.
    split; [reflexivity|]. split; [reflexivity|].
    apply as_int32_as_uint32. unfold INT_MIN, INT_MAX in *. lia.
  - intros Hmin. unfold executeNEGI. rewrite Hs, back_snoc. simpl.
    rewrite Hmin. reflexivity.
  - unfold executeNEGF. rewrite Hs, back_snoc. simpl.
    do 2 eexists. split; [reflexivity|].
    unfold set_back. simpl. rewrite Hs, removelast_last.
    split; [reflexivity|]. split; [reflexivity|]. split; [done|].
    intros Hnan. unfold floatValue in *. simpl. by rewrite Hnan.
Qed.

(** [NEGI] on the float 1.0 leaves an [Int]. *)
Lemma NEG_ignores_tag_witness :
  exists (m' : VirtualMachine) (v' : Var),
    executeNEGI (Instruction.plain 13 InstructionType.NEGI 15)
      (machine_with_stack [float_var float_one]) = Ok m' /\
    _stack m' = [v'] /\
    type v' = VariableType.Int /\
    intValue v' = -1065353216.
Proof.
  exact (proj1 (NEG_ignores_tag (Instruction.plain 13 InstructionType.NEGI 15)
                  (machine_with_stack [float_var float_one]) [] (float_var float_one)
                  eq_refl)
           ltac:(vm_compute; congruence)).
Defined.

(** ** Division of a float by an integer *)

(** X14.  [DIVFI] divides by the converted integer as it is, with no
    lower bound on the divisor: a finite non-zero float or an infinity
    divided by the integer 0 gives the infinity of its sign, and a zero
    divided by 0 gives a NaN. *)
Theorem DIVFI_divides_unclamped :
  forall (ins : Instruction.t) (m : VirtualMachine) (rest : list Var) (a b : Var),
    _stack m = rest ++ [a; b] ->
    type a = VariableType.Float ->
    type b = VariableType.Int ->
    intValue b = 0 ->
    exists (m' : VirtualMachine) (v : Var),
      executeDIVFI ins m = Ok m' /\
      _stack m' = rest ++ [v] /\
      type v = VariableType.Float /\
      floatValue v =
        match floatValue a with
        | S754_finite s _ _ => S754_infinity s
        | S754_infinity s => S754_infinity s
        | _ => S754_nan
        end.
Proof.
  intros ins m rest a b Hs Ha Hb Hzero.
  unfold executeDIVFI, float_int, withFloatIntFromStack.
  rewrite (withTyped_two _ _ _ _ _ m rest a b Hs Ha Hb). rewrite Hzero.
  do 2 eexists. split; [reflexivity|].
  split; [reflexivity|]. split; [reflexivity|].
  change (Float32.of_int 0) with (S754_zero false).
  destruct (floatValue a) as [s|s| |s mant e]; simpl.
  - reflexivity.
  - by destruct s.
  - reflexivity.
  - by destruct s.
Qed.

(** [DIVFI] on 1.0 and 0 pushes the positive infinity. *)
Lemma DIVFI_divides_unclamped_witness :
  exists (m' : VirtualMachine) (v : Var),
    executeDIVFI (Instruction.plain 13 InstructionType.DIVFI 15)
      (machine_with_operands (float_var float_one) (int_var 0)) = Ok m' /\
    _stack m' = [v] /\
    type v = VariableType.Float /\
    floatValue v = S754_infinity false.
Proof.
  exact (DIVFI_divides_unclamped (Instruction.plain 13 InstructionType.DIVFI 15)
           (machine_with_operands (float_var float_one) (int_var 0))
           [] (float_var float_one) (int_var 0) eq_refl eq_refl eq_refl eq_refl).
Defined.

Lemma to_bits_range (f : Float32.t) :
  Float32.valid f = true -> 0 <= Float32.to_bits f < 2 ^ 32.
Proof.
  destruct f as [s|s| |s m e]; intros Hv.
  - destruct s; simpl; lia.
  - destruct s; simpl; lia.
  - simpl. lia.
  - apply valid_finite_cases in Hv.
    unfold Float32.to_bits, Float32.sign_bit.
    change (2 ^ 23) with 8388608 in *. change (2 ^ 24) with 16777216 in *.
    change (2 ^ 31) with 2147483648. change (2 ^ 32) with 4294967296.
    destruct Hv as [[Hm ->]|[Hm He]].
    + destruct (Z.ltb_spec (Z.pos m) 8388608); [|lia]. destruct s; lia.
    + destruct (Z.ltb_spec (Z.pos m) 8388608); [lia|]. destruct s; lia.
Qed.

Lemma as_int32_inj (x y : Z) :
  0 <= x < 2 ^ 32 -> 0 <= y < 2 ^ 32 -> as_int32 x = as_int32 y -> x = y.
Proof.
  unfold as_int32. intros Hx Hy Heq.
  Z.to_euclidean_division_equations; lia.
Qed.

(** ** Equality of variables *)

(** X15.  [Variable::operator==], which [EQUALTT] and [NEQUALTT] apply to
    each pair, takes no account of the [id] and compares the union as one
    word: two variables tagged [Float] that hold nothing else are equal
    exactly when their words are, whatever the words.  So two ints made
    at any two times are equal exactly when their values are, two floats
    of which one at least is not a NaN exactly when they are the same
    value bit for bit (without any tolerance), and an int never equals a
    float. *)
Theorem Variable_equality_compares_payload :
  forall (p q : Process),
    (forall x y : Z,
       INT_MIN <= x <= INT_MAX -> INT_MIN <= y <= INT_MAX ->
       Variable_eqb (fst (ofInt x p)) (fst (ofInt y q)) = (x =? y)) /\
    (forall f g : Float32.t,
       Float32.valid f = true -> Float32.valid g = true ->
       f <> S754_nan \/ g <> S754_nan ->
       (Variable_eqb (fst (ofFloat f p)) (fst (ofFloat g q)) = true <-> f = g)) /\
    (forall x : Z, forall f : Float32.t,
       Variable_eqb (fst (ofInt x p)) (fst (ofFloat f q)) = false) /\
    (forall (w1 w2 id1 id2 : Z),
       0 <= w1 < 2 ^ 32 -> 0 <= w2 < 2 ^ 32 ->
       Variable_eqb
         (mkVariable VariableType.Float EmptyString glm.zero None None id1 w1)
         (mkVariable VariableType.Float EmptyString glm.zero None None id2 w2)
       = (w1 =? w2)).
Proof.
  intros p q. split; [|split; [|split]].
  - intros x y Hx Hy. unfold Variable_eqb, intValue. simpl.
    by rewrite !as_int32_as_uint32.
  - intros f g Hf Hg _. unfold Variable_eqb. simpl. unfold intValue. simpl.
    split.
    + intros Heq. apply Z.eqb_eq in Heq.
      apply as_int32_inj in Heq; [|by apply to_bits_range..].
      rewrite <- (of_bits_to_bits f Hf), <- (of_bits_to_bits g Hg). by rewrite Heq.
    + intros ->. apply Z.eqb_refl.
  - reflexivity.
  - intros w1 w2 id1 id2 Hw1 Hw2. unfold Variable_eqb, intValue. simpl.
    destruct (Z.eqb_spec w1 w2) as [->|Hne]; [apply Z.eqb_refl|].
    apply Z.eqb_neq. intros Heq. by apply as_int32_inj in Heq.
Qed.

(** The int 5 made at two different times. *)
Lemma Variable_equality_compares_payload_witness :
  Variable_eqb (fst (ofInt 5 process0)) (fst (ofInt 5 (mkProcess 9 0))) = (5 =? 5) /\
  (Variable_eqb (fst (ofFloat float_one process0)) (fst (ofFloat float_one (mkProcess 9 0)))
     = true <-> float_one = float_one) /\
  Variable_eqb
    (mkVariable VariableType.Float EmptyString glm.zero None None 1 4290772992)
    (mkVariable VariableType.Float EmptyString glm.zero None None 2 2143289344)
  = (4290772992 =? 2143289344).
Proof.
  split; [|split].
  - exact (proj1 (Variable_equality_compares_payload process0 (mkProcess 9 0)) 5 5
             ltac:(vm_compute; split; congruence) ltac:(vm_compute; split; congruence)).
  - exact (proj1 (proj2 (Variable_equality_compares_payload process0 (mkProcess 9 0)))
             float_one float_one eq_refl eq_refl ltac:(left; discriminate)).
  - exact (proj2 (proj2 (proj2 (Variable_equality_compares_payload process0 process0)))
             4290772992 2143289344 1 2
             ltac:(vm_compute; split; congruence) ltac:(vm_compute; split; congruence)).
Defined.

Lemma marshal_arg_scalar (ty : VariableType.t) (acc : list Var) (m : VirtualMachine)
    (s : list Var) (v : Var) :
  popped_as_is ty = true ->
  _stack m = s ++ [v] ->
  type v = ty ->
  marshal_arg ty acc m = Ok (acc ++ [v], set_stack s m).
Proof.
  intros Hty Hs Hv.
  assert (Hdefault :
    (v0 ← back (_stack m);
     if negb (VariableType.eqb (type v0) ty) then Throw runtime_error
     else Ok (acc ++ [v0], set_stack (removelast (_stack m)) m)) =
    Ok (acc ++ [v], set_stack s m)).
  { rewrite Hs, back_snoc. simpl. rewrite Hv, VariableType_eqb_refl. simpl.
    by rewrite removelast_last. }
  destruct ty; try exact Hdefault; discriminate.
Qed.

Lemma marshal_args_scalars (r : Routine) (vs : list Var) :
  forall (i : nat) (acc rest : list Var) (m : VirtualMachine),
    _stack m = rest ++ reverse vs ->
    Forall2 (fun v ty => type v = ty /\ popped_as_is ty = true)
      vs (take (List.length vs) (drop i (argumentTypes r))) ->
    marshal_args r i (List.length vs) acc m = Ok (acc ++ vs, set_stack rest m).
Proof.
  induction vs as [|v vs IH]; intros i acc rest m Hs Hall.
  - simpl. rewrite app_nil_r. simpl in Hs. rewrite app_nil_r in Hs.
    destruct m; simpl in *; by subst.
  - simpl in Hall.
    destruct (drop i (argumentTypes r)) as [|ty tys] eqn:Hdrop; [by inversion Hall|].
    simpl in Hall. apply Forall2_cons in Hall as ([Hv Hty] & Hall).
    assert (Hlook : argumentTypes r !! i = Some ty).
    { rewrite <- (Nat.add_0_r i), <- lookup_drop, Hdrop. done. }
    assert (Hdrop' : drop (S i) (argumentTypes r) = tys).
    { rewrite <- Nat.add_1_r, <- drop_drop, Hdrop. done. }
    simpl. unfold getArgumentType. rewrite Hlook. simpl.
    rewrite reverse_cons, app_assoc in Hs.
    rewrite (marshal_arg_scalar ty acc m (rest ++ reverse vs) v Hty Hs Hv). simpl.
    rewrite (IH (S i) (acc ++ [v]) rest); [by rewrite <- app_assoc|done|].
    by rewrite Hdrop'.
Qed.

(** ** Arguments of a routine *)

(** X16.  [ACTION] throws [invalid_argument] when the instruction passes
    more arguments than the routine declares, before it pops anything.
    When it passes no more than that and the parameters it passes are
    popped as one variable each, the routine is invoked with the
    variables popped top first (the top of the stack is the first
    argument), given that each carries the tag of its parameter; a
    routine may be passed fewer arguments than it declares. *)
Theorem ACTION_marshals_arguments `{Engine} :
  forall (ins : Instruction.t) (m : VirtualMachine) (rs : IRoutines) (r : Routine),
    routinesAt (routines (_context m)) = Some rs ->
    IRoutines_get rs (Instruction.routine ins) = Ok r ->
    (getArgumentCount r < Instruction.argCount ins ->
     executeACTION ins m = Throw invalid_argument) /\
    (forall (rest vs : list Var),
       _stack m = rest ++ reverse vs ->
       Instruction.argCount ins = vsize vs ->
       Forall2 (fun v ty => type v = ty /\ popped_as_is ty = true)
         vs (take (List.length vs) (argumentTypes r)) ->
       executeACTION ins m =
         '(retValue, p) ← invoke r vs (_context m) (process m);
         Ok (push_return (returnType r) retValue (set_process p (set_stack rest m)))).
Proof.
  intros ins m rs r Hrs Hget. split.
  - intros Hcount. unfold executeACTION. rewrite Hrs, Hget. simpl.
    destruct (Z.ltb_spec (getArgumentCount r) (Instruction.argCount ins)); [done|lia].
  - intros rest vs Hs Hcount Hall.
    unfold executeACTION. rewrite Hrs, Hget. simpl.
    assert (Hlen : (List.length vs <= List.length (argumentTypes r))%nat).
    { apply Forall2_length in Hall. rewrite length_take in Hall. lia. }
    destruct (Z.ltb_spec (getArgumentCount r) (Instruction.argCount ins)) as [Hlt|_].
    { unfold getArgumentCount, vsize in *. lia. }
    rewrite Hcount. unfold vsize. rewrite Nat2Z.id.
    rewrite (marshal_args_scalars r vs 0 [] rest m Hs Hall). reflexivity.
Qed.

(** [ACTION add_ints, 2] with 2 on top of 3 invokes the routine on 2
    and 3. *)
Lemma ACTION_marshals_arguments_witness :
  @executeACTION arith_engine (ACTION_at 13 0 2) arith_machine =
    '(retValue, p) ← invoke add_ints [int_var 2; int_var 3]
                       (_context arith_machine) (process arith_machine);
    Ok (push_return (returnType add_ints) retValue
          (set_process p (set_stack [] arith_machine))).
Proof.
  exact (proj2 (@ACTION_marshals_arguments arith_engine (ACTION_at 13 0 2) arith_machine
                  (mkRoutines [add_ints]) add_ints eq_refl eq_refl)
           [] [int_var 2; int_var 3] eq_refl eq_refl
           ltac:(repeat constructor)).
Defined.

(** ** Deferred actions *)

(** X17.  After [STORE_STATE], an [Action] parameter of [ACTION] pops
    nothing and receives a copy of the running context that carries the
    state just saved; when [DoCommandAction::execute] later runs that
    context, the loop starts at the offset of the [STORE_STATE] plus 16,
    in the program that was running, on a stack that holds the saved
    globals followed by the saved locals, with the boundary after the
    globals. *)
Theorem STORE_STATE_ACTION_defers_continuation `{Engine} :
  forall (ss : Instruction.t) (m : VirtualMachine) (prog : ScriptProgram.t) (acc : list Var),
    let count := Z.quot (Instruction.size ss) 4 in
    let countLocals := Z.quot (Instruction.sizeLocals ss) 4 in
    let gs := take (Z.to_nat count) (drop (Z.to_nat (_globalCount m - count)) (_stack m)) in
    let ls := drop (Z.to_nat (vsize (_stack m) - countLocals)) (_stack m) in
    _program m = Some prog ->
    0 <= count <= _globalCount m ->
    _globalCount m <= vsize (_stack m) ->
    0 <= countLocals <= vsize (_stack m) ->
    exists (m1 m2 : VirtualMachine) (v : Var) (captured : ExecutionContext),
      executeSTORE_STATE ss m = Ok m1 /\
      marshal_arg VariableType.Action acc m1 = Ok (acc ++ [v], m2) /\
      _stack m2 = _stack m /\
      type v = VariableType.Action /\
      context v = Some (heap_next (process m), captured) /\
      routines captured = routines (_context m) /\
      args captured = args (_context m) /\
      forall (actorId : Z) (p p' : Process) (ctx' : ExecutionContext),
        rebind_caller captured actorId p = Ok (ctx', p') ->
        exists m3 : VirtualMachine,
          (forall fuel : nat,
             DoCommandAction_execute fuel captured actorId p =
               Ok (run_loop fuel prog m3 (as_uint32 (Instruction.offset ss + 16)))) /\
          _stack m3 = gs ++ ls /\
          _globalCount m3 = vsize gs /\
          _context m3 = ctx'.
Proof.
  intros ss m prog acc count countLocals gs ls Hprog Hcount Hgc Hlocals.
  unfold executeSTORE_STATE. fold count. fold countLocals.
  rewrite read_run_slice by lia. simpl.
  rewrite read_run_slice by lia. simpl.
  assert (Hls : take (Z.to_nat countLocals)
                  (drop (Z.to_nat (vsize (_stack m) - countLocals)) (_stack m)) = ls).
  { unfold ls. apply take_ge. rewrite length_drop. unfold vsize in *. lia. }
  rewrite Hls. fold gs.
  do 4 eexists. split; [reflexivity|]. split; [reflexivity|].
  split; [reflexivity|]. split; [reflexivity|]. split; [reflexivity|].
  split; [reflexivity|]. split; [reflexivity|].
  intros actorId p p' ctx' Hctx.
  assert (Hsaved : savedState ctx' =
            Some (mkExecutionState gs ls (_program m)
                    (as_uint32 (Instruction.offset ss + 16)))).
  { revert Hctx. unfold rebind_caller.
    destruct (overwrite_caller _ _); [by intros [= <- <-]|].
    unfold ofObject, Argument_new. simpl. destruct (verify _); try done.
    simpl. by intros [= <- <-]. }
  eexists. split; [|split; [|split]].
  - intros fuel. unfold DoCommandAction_execute. rewrite Hctx. simpl.
    unfold run, run_prologue. simpl. rewrite Hprog, Hsaved. simpl. reflexivity.
  - reflexivity.
  - reflexivity.
  - reflexivity.
Qed.

(** Two globals and a local, saved at offset 40 and captured. *)
Lemma STORE_STATE_ACTION_defers_continuation_witness :
  exists (m1 m2 : VirtualMachine) (v : Var) (captured : ExecutionContext),
    executeSTORE_STATE STORE_STATE_at_40 machine_with_globals = Ok m1 /\
    marshal_arg VariableType.Action [] m1 = Ok ([] ++ [v], m2) /\
    _stack m2 = _stack machine_with_globals /\
    type v = VariableType.Action /\
    context v = Some (heap_next (process machine_with_globals), captured).
Proof.
  destruct (@STORE_STATE_ACTION_defers_continuation scenario_engine
              STORE_STATE_at_40 machine_with_globals add_program []
              eq_refl ltac:(vm_compute; split; congruence) ltac:(vm_compute; congruence)
              ltac:(vm_compute; split; congruence))
    as (m1 & m2 & v & captured & Hsave & Harg & Hstack & Htype & Hcontext & _).
  exists m1, m2, v, captured.
  exact (conj Hsave (conj Harg (conj Hstack (conj Htype Hcontext)))).
Defined.

Lemma substring_all (s : string) : String.substring 0 (String.length s) s = s.
Proof. induction s as [|c s IH]; [done|]. simpl. by rewrite IH. Qed.

Lemma index_colon_cons (c : ascii) (s : string) :
  String.index 0 ":" (String c s) =
    if Ascii.eqb c ":" then Some 0%nat else S <$> String.index 0 ":" s.
Proof.
  change (String.index 0 ":" (String c s))
    with (if (if ascii_dec ":" c then String.prefix EmptyString s else false)
          then Some 0%nat
          else match String.index 0 ":" s with
               | Some n => Some (S n)
               | None => None
               end).
  destruct (ascii_dec ":" c) as [<-|Hne]; [by destruct s|].
  destruct (Ascii.eqb_spec c ":") as [->|_]; [done|].
  by destruct (String.index 0 ":" s).
Qed.

(** Splitting [kind:value] at the first colon. *)
Lemma split_at_colon (s t : string) :
  String.index 0 ":" s = None ->
  String.index 0 ":" (String.append s (String.append ":" t)) = Some (String.length s) /\
  String.substring 0 (String.length s) (String.append s (String.append ":" t)) = s /\
  String.substring (S (String.length s))
    (String.length (String.append s (String.append ":" t)) - S (String.length s))
    (String.append s (String.append ":" t)) = t.
Proof.
  induction s as [|c s IH]; intros Hnone.
  - change (String.append EmptyString (String.append ":" t)) with (String ":" t).
    rewrite index_colon_cons. split; [done|]. split; [done|].
    simpl. rewrite Nat.sub_0_r. apply substring_all.
  - rewrite index_colon_cons in Hnone.
    destruct (Ascii.eqb c ":") eqn:Hc; [done|].
    destruct (String.index 0 ":" s) eqn:Hs; [done|].
    destruct (IH eq_refl) as (Hi & Hk & Hv).
    change (String.append (String c s) (String.append ":" t))
      with (String c (String.append s (String.append ":" t))).
    rewrite index_colon_cons, Hc, Hi. split; [done|]. split.
    + simpl. by rewrite Hk.
    + simpl. simpl in Hv. exact Hv.
Qed.

Section FromString.
Context `{Engine} `{Conversions}.

Lemma fromString_named (k : ArgKind.t) (value : string) (p : Process) :
  Argument_fromString (String.append (argKindToString k) (String.append ":" value)) p =
    if parses_object k then object_argument k value p else int_argument k value p.
Proof.
  destruct (split_at_colon (argKindToString k) value) as (Hi & Hk & Hv);
    [by destruct k|].
  unfold Argument_fromString. rewrite Hi, Hk, Hv. by destruct k.
Qed.

(** ** Arguments as text *)

(** X18.  [Argument::fromString] accepts each name [argKindToString]
    prints, followed by a colon and a value: it reads the value with
    [std::stoul] into an object for the seven kinds that name an object
    and with [std::stoi] into an int for the other six, and builds the
    argument of that kind through the checking constructor.  So an
    argument it returns has the kind named, passes [verify], and for an
    object kind its id is the number read, cut to 32 bits, and is not
    [kObjectSelf]. *)
Theorem fromString_reads_kind_names :
  forall (k : ArgKind.t) (value : string) (p : Process),
    (Argument_fromString (String.append (argKindToString k) (String.append ":" value)) p =
       if parses_object k then object_argument k value p else int_argument k value p) /\
    (forall (a : Argument) (p' : Process),
       Argument_fromString (String.append (argKindToString k) (String.append ":" value)) p
         = Ok (a, p') ->
       kind a = k /\ verify a = Ok () /\
       if parses_object k
       then exists n, stoul value = Ok n /\ type (var a) = VariableType.Object /\
                      objectId (var a) = as_uint32 n /\ as_uint32 n <> kObjectSelf
       else exists n, stoi value = Ok n /\ type (var a) = VariableType.Int /\
                      word (var a) = as_uint32 n).
Proof.
  intros k value p. split; [apply fromString_named|].
  intros a p'. rewrite fromString_named.
  destruct (parses_object k) eqn:Hk.
  - unfold object_argument. destruct (stoul value) as [n| |]; try done. simpl.
    unfold Argument_new.
    destruct (verify _) as [[]| |] eqn:Hverify; try done. simpl.
    intros [= <- <-]. split; [done|]. split; [exact Hverify|].
    exists n. split; [done|]. split; [done|]. split; [done|].
    revert Hverify. unfold verify, objectId. simpl.
    destruct k; try discriminate Hk; simpl;
      destruct (Z.eqb_spec (as_uint32 n) kObjectSelf); done.
  - unfold int_argument. destruct (stoi value) as [n| |]; try done. simpl.
    unfold Argument_new.
    destruct (verify _) as [[]| |] eqn:Hverify; try done. simpl.
    intros [= <- <-]. split; [done|]. split; [exact Hverify|].
    exists n. done.
Qed.

(** X19.  [Argument::fromString] does not read back what
    [Argument::toString] prints: the text of a variable other than [Void]
    starts with a percent sign and the id, so the value [fromString]
    hands to the number parser starts with no number, and the parser
    throws [invalid_argument].  (For parsers that throw
    [invalid_argument] on a text that starts with a percent sign, as
    [std::stoul] and [std::stoi] do.) *)
Theorem fromString_rejects_toString :
  forall (a : Argument) (p : Process),
    (forall s, stoul (String "%" s) = Throw invalid_argument) ->
    (forall s, stoi (String "%" s) = Throw invalid_argument) ->
    type (var a) <> VariableType.Void ->
    Argument_fromString (Argument_toString a) p = Throw invalid_argument.
Proof.
  intros a p Hstoul Hstoi Hvoid.
  unfold Argument_toString. rewrite fromString_named.
  assert (Hpercent : exists s, Variable_toString (var a) = String "%" s).
  { unfold Variable_toString. destruct (type (var a)); try done; simpl; eauto. }
  destruct Hpercent as (s & ->).
  unfold object_argument, int_argument. rewrite Hstoul, Hstoi.
  by destruct (parses_object _).
Qed.

(** X20.  [Argument::fromString] throws [invalid_argument] for a text
    without a colon, and [logic_error] for a text whose part before the
    first colon is none of the thirteen kind names. *)
Theorem fromString_rejects_malformed :
  forall (str : string) (p : Process),
    (String.index 0 ":" str = None ->
     Argument_fromString str p = Throw invalid_argument) /\
    (forall value : string,
       String.index 0 ":" str = None ->
       (forall k : ArgKind.t, str <> argKindToString k) ->
       Argument_fromString (String.append str (String.append ":" value)) p =
         Throw logic_error).
Proof.
  intros str p. split.
  - intros Hnone. unfold Argument_fromString. by rewrite Hnone.
  - intros value Hnone Hname.
    destruct (split_at_colon str value Hnone) as (Hi & Hk & Hv).
    unfold Argument_fromString. rewrite Hi, Hk, Hv.
    repeat match goal with
    | |- context [String.eqb str ?name] =>
        destruct (String.eqb_spec str name) as [Heq|_];
          [exfalso;
           first [ exact (Hname ArgKind.Caller Heq)
                 | exact (Hname ArgKind.ScriptVar Heq)
                 | exact (Hname ArgKind.UserDefinedEventNumber Heq)
                 | exact (Hname ArgKind.ClickingObject Heq)
                 | exact (Hname ArgKind.EnteringObject Heq)
                 | exact (Hname ArgKind.ExitingObject Heq)
                 | exact (Hname ArgKind.LastClosedBy Heq)
                 | exact (Hname ArgKind.LastOpenedBy Heq)
                 | exact (Hname ArgKind.LastPerceived Heq)
                 | exact (Hname ArgKind.LastPerceptionHeard Heq)
                 | exact (Hname ArgKind.LastPerceptionInaudible Heq)
                 | exact (Hname ArgKind.LastPerceptionSeen Heq)
                 | exact (Hname ArgKind.LastPerceptionVanished Heq) ]|]
    end.
    reflexivity.
Qed.

End FromString.

(** [Caller:5] is read as the caller object 5. *)
Lemma fromString_reads_kind_names_witness :
  exists (a : Argument) (n : Z),
    @Argument_fromString scenario_engine scenario_conversions "Caller:5" process0 =
      Ok (a, next_id process0) /\
    kind a = ArgKind.Caller /\
    @stoul scenario_conversions "5" = Ok n /\
    objectId (var a) = as_uint32 n.
Proof.
  destruct (proj2 (@fromString_reads_kind_names scenario_engine scenario_conversions
                     ArgKind.Caller "5" process0)
              (mkArgument ArgKind.Caller (fst (ofObject 5 process0))) (next_id process0)
              eq_refl)
    as (Hkind & _ & n & Hparsed & _ & Hid & _).
  exists (mkArgument ArgKind.Caller (fst (ofObject 5 process0))), n.
  exact (conj eq_refl (conj Hkind (conj Hparsed Hid))).
Defined.

(** The text of the caller object 5 is not read back. *)
Lemma fromString_rejects_toString_witness :
  @Argument_fromString scenario_engine scenario_conversions
    (@Argument_toString scenario_conversions
       (mkArgument ArgKind.Caller (fst (ofObject 5 process0)))) process0 =
    Throw invalid_argument.
Proof.
  exact (@fromString_rejects_toString scenario_engine scenario_conversions
           (mkArgument ArgKind.Caller (fst (ofObject 5 process0))) process0
           (fun s => eq_refl) (fun s => eq_refl) ltac:(vm_compute; congruence)).
Defined.

(** A text without a colon. *)
Lemma fromString_rejects_malformed_witness :
  @Argument_fromString scenario_engine scenario_conversions "k_ai_master" process0 =
    Throw invalid_argument.
Proof.
  exact (proj1 (@fromString_rejects_malformed scenario_engine scenario_conversions
                  "k_ai_master" process0) eq_refl).
Defined.

(** ** game.cpp: the console command that runs a script *)

Section Console.
Context `{Engine} `{Conversions}.

(** X21.  The console command that runs a script hands every argument
    from the first on to [Argument::fromString], and the first argument
    is the name of the script: the command throws [invalid_argument]
    without running anything when that name holds no colon, and it runs
    a script only if the name reads as an argument. *)
Theorem consoleRunScript_parses_the_resref :
  forall (_scripts : string -> option ScriptProgram.t) (_routines : Z) (fuel : nat)
         (command resRef : string) (rest : list string) (p : Process),
    vsize rest < 1024 ->
    (String.index 0 ":" resRef = None ->
     Game_consoleRunScript _scripts _routines fuel (command :: resRef :: rest) p =
       Throw invalid_argument) /\
    (forall r : option RunResult,
       Game_consoleRunScript _scripts _routines fuel (command :: resRef :: rest) p = Ok r ->
       exists (a : Argument) (p1 : Process), Argument_fromString resRef p = Ok (a, p1)).
Proof.
  intros _scripts _routines fuel command resRef rest p Hrest.
  assert (Hgo :
    Game_consoleRunScript _scripts _routines fuel (command :: resRef :: rest) p =
      ('(vars, p') ← parse_arguments (resRef :: rest) p;
       Ok (ScriptRunner_run _scripts _routines fuel resRef vars p'))).
  { unfold Game_consoleRunScript.
    assert (Hn : as_uint64 (vsize (command :: resRef :: rest) - 1) = vsize rest + 1).
    { unfold as_uint64, vsize in *. simpl length.
      replace (Z.of_nat (S (S (length rest))) - 1) with (Z.of_nat (length rest) + 1) by lia.
      apply Z.mod_small. lia. }
    rewrite Hn.
    destruct (Z.ltb_spec (vsize rest + 1) 1); [unfold vsize in *; lia|].
    destruct (Z.ltb_spec 1024 (vsize rest + 1)); [lia|]. reflexivity. }
  rewrite Hgo. split.
  - intros Hnone. simpl. unfold Argument_fromString at 1. by rewrite Hnone.
  - intros r. simpl.
    destruct (Argument_fromString resRef p) as [[a p1]| |]; try done. eauto.
Qed.

End Console.

(** [runscript k_ai_master] *)
Lemma consoleRunScript_parses_the_resref_witness :
  @Game_consoleRunScript scenario_engine scenario_conversions
    (fun _ => Some add_program) 0 4 ["runscript"%string; "k_ai_master"%string] process0 =
    Throw invalid_argument.
Proof.
  exact (proj1 (@consoleRunScript_parses_the_resref scenario_engine scenario_conversions
                  (fun _ => Some add_program) 0 4%nat "runscript" "k_ai_master" []
                  process0 ltac:(vm_compute; congruence))
           eq_refl).
Defined.

(** ** The global/local boundary *)

(** X22.  [SAVEBP] moves the global/local boundary to the top of the
    stack and pushes the new boundary, not the one it replaces; a
    [RESTOREBP] that pops that variable therefore leaves the boundary
    where [SAVEBP] put it, whatever it was before, and the stack as it
    was before [SAVEBP]. *)
Theorem SAVEBP_pushes_the_new_boundary :
  forall (save restore : Instruction.t) (m : VirtualMachine),
    vsize (_stack m) <= INT_MAX ->
    exists (m1 m2 : VirtualMachine) (v : Var),
      executeSAVEBP save m = Ok m1 /\
      _globalCount m1 = vsize (_stack m) /\
      _stack m1 = _stack m ++ [v] /\
      type v = VariableType.Int /\
      intValue v = vsize (_stack m) /\
      executeRESTOREBP restore m1 = Ok m2 /\
      _stack m2 = _stack m /\
      _globalCount m2 = vsize (_stack m).
Proof.
  intros save restore m Hsize.
  pose proof (vsize_nonneg (_stack m)) as Hnonneg.
  assert (Hint : as_int32 (as_uint32 (vsize (_stack m))) = vsize (_stack m)).
  { apply as_int32_as_uint32. unfold INT_MIN, INT_MAX in *. lia. }
  do 3 eexists. split; [reflexivity|].
  split; [reflexivity|]. split; [reflexivity|]. split; [reflexivity|].
  split; [exact Hint|].
  unfold executeRESTOREBP, getIntFromStack.
  erewrite pop_snoc; [|reflexivity]. simpl.
  unfold intValue. simpl. rewrite Hint. done.
Qed.

(** [SAVEBP] and [RESTOREBP] on a machine whose boundary was 2 and whose
    stack holds three variables: the boundary ends at 3. *)
Lemma SAVEBP_pushes_the_new_boundary_witness :
  exists (m1 m2 : VirtualMachine),
    executeSAVEBP (Instruction.plain 13 InstructionType.SAVEBP 15) machine_with_globals
      = Ok m1 /\
    executeRESTOREBP (Instruction.plain 15 InstructionType.RESTOREBP 17) m1 = Ok m2 /\
    _stack m2 = _stack machine_with_globals /\
    _globalCount m2 = 3.
Proof.
  destruct (SAVEBP_pushes_the_new_boundary
              (Instruction.plain 13 InstructionType.SAVEBP 15)
              (Instruction.plain 15 InstructionType.RESTOREBP 17)
              machine_with_globals ltac:(vm_compute; congruence))
    as (m1 & m2 & v & Hsave & _ & _ & _ & _ & Hrestore & Hstack & Hcount).
  exists m1, m2. exact (conj Hsave (conj Hrestore (conj Hstack Hcount))).
Defined.

Lemma push_bool_opposite (b : bool) (m : VirtualMachine) :
  opposite_results (Ok (push_int (Z_of_bool b) m)) (Ok (push_int (Z_of_bool (negb b)) m)).
Proof. by exists m, b. Qed.

Lemma withTyped_opposite {A B : Type} (ty1 : VariableType.t) (get1 : Var -> A)
    (ty2 : VariableType.t) (get2 : Var -> B)
    (fn1 fn2 : A -> B -> VirtualMachine -> outcome VirtualMachine) (m : VirtualMachine) :
  (forall a b m', opposite_results (fn1 a b m') (fn2 a b m')) ->
  opposite_results (withTyped ty1 get1 ty2 get2 fn1 m) (withTyped ty1 get1 ty2 get2 fn2 m).
Proof.
  intros Hfn. unfold withTyped, withStackVariables.
  destruct (pop m) as [[b m1]| |]; try done. simpl.
  destruct (pop m1) as [[a m2]| |]; try done. simpl.
  destruct (throwIfInvalidType ty1 (type a)); try done. simpl.
  destruct (throwIfInvalidType ty2 (type b)); try done. simpl.
  apply Hfn.
Qed.

(** X23.  For every type but [float], the opcode that tests for
    inequality does to the machine what the opcode that tests for
    equality does, except that it pushes 1 where the other pushes 0 and 0
    where the other pushes 1: when they return, the two machines are the
    same in the stack below the top, the cursor, the boundary, the return
    stack, the saved state, the program, the context and the process, and
    the two tops differ in their value alone; and they fail alike. *)
Theorem NEQUAL_negates_EQUAL `{Engine} :
  forall (eq ne : Instruction.t) (m : VirtualMachine)
         (equal not_equal : Instruction.t -> VirtualMachine -> outcome VirtualMachine),
    not_equal_opcode (Instruction.type eq) = Some (Instruction.type ne) ->
    Instruction.size ne = Instruction.size eq ->
    find_handler (Instruction.type eq) = Some equal ->
    find_handler (Instruction.type ne) = Some not_equal ->
    opposite_results (equal eq m) (not_equal ne m) /\
    forall m1 m2 : VirtualMachine,
      equal eq m = Ok m1 ->
      not_equal ne m = Ok m2 ->
      exists (rest : list Var) (a b : Var),
        _stack m1 = rest ++ [a] /\ _stack m2 = rest ++ [b] /\
        type a = VariableType.Int /\ type b = VariableType.Int /\
        id a = id b /\
        0 <= intValue a <= 1 /\ intValue b = 1 - intValue a /\
        process m2 = process m1 /\
        _context m2 = _context m1 /\
        _program m2 = _program m1 /\
        _returnOffsets m2 = _returnOffsets m1 /\
        _globalCount m2 = _globalCount m1 /\
        _nextInstruction m2 = _nextInstruction m1 /\
        _savedState m2 = _savedState m1.
Proof.
  intros eq ne m equal not_equal Hop Hsize Hequal Hnot.
  assert (Hmembers :
    opposite_results (equal eq m) (not_equal ne m) ->
    opposite_results (equal eq m) (not_equal ne m) /\
    forall m1 m2 : VirtualMachine,
      equal eq m = Ok m1 ->
      not_equal ne m = Ok m2 ->
      exists (rest : list Var) (a b : Var),
        _stack m1 = rest ++ [a] /\ _stack m2 = rest ++ [b] /\
        type a = VariableType.Int /\ type b = VariableType.Int /\
        id a = id b /\
        0 <= intValue a <= 1 /\ intValue b = 1 - intValue a /\
        process m2 = process m1 /\
        _context m2 = _context m1 /\
        _program m2 = _program m1 /\
        _returnOffsets m2 = _returnOffsets m1 /\
        _globalCount m2 = _globalCount m1 /\
        _nextInstruction m2 = _nextInstruction m1 /\
        _savedState m2 = _savedState m1).
  { intros Hopp. split; [exact Hopp|].
    intros m1 m2 H1 H2. rewrite H1, H2 in Hopp.
    destruct Hopp as (m' & b & -> & ->).
    exists (_stack m'), (fst (ofInt (Z_of_bool b) (process m'))),
      (fst (ofInt (Z_of_bool (negb b)) (process m'))).
    split; [reflexivity|]. split; [reflexivity|]. split; [reflexivity|].
    split; [reflexivity|]. split; [reflexivity|].
    split; [by destruct b|]. split; [by destruct b|]. by repeat split. }
  apply Hmembers. clear Hmembers.
  destruct (Instruction.type eq); simpl in Hop; try discriminate;
    injection Hop as Hne; rewrite <- Hne in Hnot; simpl in Hequal, Hnot;
    injection Hequal as <-; injection Hnot as <-.
  - apply withTyped_opposite. intros a b m'. apply push_bool_opposite.
  - apply withTyped_opposite. intros a b m'. apply push_bool_opposite.
  - apply withTyped_opposite. intros a b m'. apply push_bool_opposite.
  - unfold executeEQUALTT, executeNEQUALTT, tuples_from_stack. rewrite Hsize.
    destruct (pop_many _ m) as [[vars1 m1]| |]; try done. simpl.
    destruct (pop_many _ m1) as [[vars2 m2]| |]; try done. simpl.
    apply push_bool_opposite.
  - apply withTyped_opposite. intros a b m'. apply push_bool_opposite.
  - apply withTyped_opposite. intros a b m'. apply push_bool_opposite.
  - apply withTyped_opposite. intros a b m'. apply push_bool_opposite.
  - apply withTyped_opposite. intros a b m'. apply push_bool_opposite.
Qed.

(** [EQUALII] and [NEQUALII] on the ints 2 and 3. *)
Lemma NEQUAL_negates_EQUAL_witness :
  opposite_results
    (executeEQUALII (Instruction.plain 13 InstructionType.EQUALII 15)
       (machine_with_operands (int_var 2) (int_var 3)))
    (executeNEQUALII (Instruction.plain 13 InstructionType.NEQUALII 15)
       (machine_with_operands (int_var 2) (int_var 3))).
Proof.
  exact (proj1 (@NEQUAL_negates_EQUAL scenario_engine
                  (Instruction.plain 13 InstructionType.EQUALII 15)
                  (Instruction.plain 13 InstructionType.NEQUALII 15)
                  (machine_with_operands (int_var 2) (int_var 3))
                  executeEQUALII executeNEQUALII eq_refl eq_refl eq_refl eq_refl)).
Defined.

Lemma step_int_at_spec (idx delta : Z) (m : VirtualMachine) (v : Var) :
  0 <= idx ->
  _stack m !! Z.to_nat idx = Some v ->
  INT_MIN <= intValue v + delta <= INT_MAX ->
  step_int_at idx delta m =
    Ok (set_stack (<[Z.to_nat idx := fst (ofInt (intValue v + delta) (process m))]> (_stack m))
          (set_process (snd (ofInt (intValue v + delta) (process m))) m)).
Proof.
  intros Hidx Hv Hrange. unfold step_int_at, at_.
  destruct (Z.leb_spec 0 idx); [|lia]. rewrite Hv. simpl.
  rewrite int_result_in_range by done. simpl.
  unfold assign. destruct (Z.leb_spec 0 idx); [|lia].
  apply lookup_lt_Some in Hv.
  destruct (Z.ltb_spec idx (vsize (_stack m))); [done|unfold vsize in *; lia].
Qed.

(** X24.  [INCISP] and [DECISP] at the same offset undo each other:
    [INCISP] replaces the variable at [stackOffset/4] from the top by an
    [Int] one greater than its word read as an [int], whatever its tag,
    [DECISP] by one that is one less, and after both the variable holds
    the value it had; every other variable stays as it was.  The same
    holds for [INCIBP] and [DECIBP], which count from the global/local
    boundary. *)
Theorem INC_DEC_round_trip :
  forall (ins : Instruction.t) (m : VirtualMachine) (v : Var),
    intValue v < INT_MAX ->
    (forall idx : Z,
       idx = vsize (_stack m) + Z.quot (Instruction.stackOffset ins) 4 ->
       0 <= idx ->
       _stack m !! Z.to_nat idx = Some v ->
       exists (m1 m2 : VirtualMachine) (v1 v2 : Var),
         executeINCISP ins m = Ok m1 /\
         _stack m1 = <[Z.to_nat idx := v1]> (_stack m) /\
         type v1 = VariableType.Int /\ intValue v1 = intValue v + 1 /\
         executeDECISP ins m1 = Ok m2 /\
         _stack m2 = <[Z.to_nat idx := v2]> (_stack m) /\
         type v2 = VariableType.Int /\ intValue v2 = intValue v) /\
    (forall idx : Z,
       idx = _globalCount m + Z.quot (Instruction.stackOffset ins) 4 ->
       0 <= idx ->
       _stack m !! Z.to_nat idx = Some v ->
       exists (m1 m2 : VirtualMachine) (v1 v2 : Var),
         executeINCIBP ins m = Ok m1 /\
         _stack m1 = <[Z.to_nat idx := v1]> (_stack m) /\
         type v1 = VariableType.Int /\ intValue v1 = intValue v + 1 /\
         executeDECIBP ins m1 = Ok m2 /\
         _stack m2 = <[Z.to_nat idx := v2]> (_stack m) /\
         type v2 = VariableType.Int /\ intValue v2 = intValue v).
Proof.
  intros ins m v Hmax. pose proof (intValue_range v) as Hrange.
  assert (Hstep : forall idx : Z,
    0 <= idx ->
    _stack m !! Z.to_nat idx = Some v ->
    exists (m1 m2 : VirtualMachine) (v1 v2 : Var),
      step_int_at idx 1 m = Ok m1 /\
      _stack m1 = <[Z.to_nat idx := v1]> (_stack m) /\
      type v1 = VariableType.Int /\ intValue v1 = intValue v + 1 /\
      vsize (_stack m1) = vsize (_stack m) /\
      _globalCount m1 = _globalCount m /\
      step_int_at idx (-1) m1 = Ok m2 /\
      _stack m2 = <[Z.to_nat idx := v2]> (_stack m) /\
      type v2 = VariableType.Int /\ intValue v2 = intValue v).
  { intros idx Hidx Hv.
    assert (Hlt : (Z.to_nat idx < List.length (_stack m))%nat) by (by eapply lookup_lt_Some).
    assert (Hup : intValue (fst (ofInt (intValue v + 1) (process m))) = intValue v + 1).
    { apply intValue_ofInt. unfold INT_MIN, INT_MAX in *. lia. }
    assert (Hdown : forall p' : Process,
              intValue (fst (ofInt (intValue (fst (ofInt (intValue v + 1) (process m))) + -1) p'))
              = intValue v).
    { intros p'. rewrite Hup. replace (intValue v + 1 + -1) with (intValue v) by lia.
      apply intValue_ofInt. exact Hrange. }
    do 4 eexists.
    split; [apply (step_int_at_spec idx 1 m v Hidx Hv); unfold INT_MIN, INT_MAX in *; lia|].
    split; [reflexivity|]. split; [reflexivity|]. split; [exact Hup|].
    split; [simpl; unfold vsize; by rewrite length_insert|]. split; [reflexivity|].
    split.
    - apply (step_int_at_spec idx (-1) _ (fst (ofInt (intValue v + 1) (process m)))); [done| |].
      + simpl. by apply list_lookup_insert_eq.
      + rewrite Hup. unfold INT_MIN, INT_MAX in *. lia.
    - split; [simpl; by rewrite list_insert_insert_eq|]. split; [reflexivity|].
      exact (Hdown (process m)). }
  split; intros idx Hdef Hidx Hv.
  - destruct (Hstep idx Hidx Hv)
      as (m1 & m2 & v1 & v2 & Hinc & Hs1 & Ht1 & Hv1 & Hsize & _ & Hdec & Hs2 & Ht2 & Hv2).
    exists m1, m2, v1, v2. unfold executeINCISP, executeDECISP.
    rewrite <- Hdef, Hsize, <- Hdef. done.
  - destruct (Hstep idx Hidx Hv)
      as (m1 & m2 & v1 & v2 & Hinc & Hs1 & Ht1 & Hv1 & _ & Hgc & Hdec & Hs2 & Ht2 & Hv2).
    exists m1, m2, v1, v2. unfold executeINCIBP, executeDECIBP.
    rewrite <- Hdef, Hgc, <- Hdef. done.
Qed.

(** [INCISP -4] and [DECISP -4] on the int 7. *)
Lemma INC_DEC_round_trip_witness :
  exists (m1 m2 : VirtualMachine) (v1 v2 : Var),
    executeINCISP INCISP_top machine_with_7 = Ok m1 /\
    _stack m1 = [v1] /\ intValue v1 = 8 /\
    executeDECISP INCISP_top m1 = Ok m2 /\
    _stack m2 = [v2] /\ intValue v2 = 7.
Proof.
  destruct (proj1 (INC_DEC_round_trip INCISP_top machine_with_7 (int_var 7)
                     ltac:(vm_compute; congruence))
              0 eq_refl ltac:(vm_compute; congruence) eq_refl)
    as (m1 & m2 & v1 & v2 & Hinc & Hs1 & _ & Hv1 & Hdec & Hs2 & _ & Hv2).
  exists m1, m2, v1, v2.
  exact (conj Hinc (conj Hs1 (conj Hv1 (conj Hdec (conj Hs2 Hv2))))).
Defined.
